(** * European digital slope pricing engine: model and verified properties

    A shallow embedding of the Python package [european_digital_slope]
    (modules [constants], [black_scholes], [utils], [underlying_config],
    [risk_markup] and [pricing_engine], and the surface construction of
    [historical_vol_surface]) together with the properties the specification
    states about it and further properties of the code.

    Conventions of the embedding.
    - A Python [float] is a real number ([R]); [np.exp], [np.log], [np.sqrt]
      and [np.pi] are [exp], [ln], [sqrt] and [PI].  Rounding, overflow, NaN
      and signed zeros are outside the model, so a statement about the branch
      taken on the value of a logarithm is made for positive spot and strike.
    - Division and [ln] are total on [R].  The code divides by the strike and
      by the spot and takes [np.log] of their ratio: at a zero strike Python
      raises [ZeroDivisionError], and for a ratio that is not positive numpy
      gives NaN or an infinity.  The embedding stands for the code at
      positive spot and strike, and every property of a function that
      evaluates such a quotient or logarithm carries these hypotheses.
    - [scipy.stats.norm.pdf] is the standard normal density and
      [scipy.stats.norm.cdf] its integral, one half plus the area of the
      density between 0 and the argument.
    - A [datetime] is an integer number of microseconds on a common time line.
    - A Python [dict] is a [gmap]; a raised exception is the [Raise] outcome of
      the [result] type, and exceptions propagate through [mbind].
    - Each Python module is a Rocq [Module] of the same name, each class a
      [Record] with the methods as functions of the record. *)

From Stdlib Require Import Reals Lra Lia ZArith Ascii.
From stdpp Require Import base option list sorting gmap strings.

Open Scope R_scope.

(** ** Python values shared by all modules *)

(** Comparisons of floats, as decisions. *)
#[global] Instance Rle_decision (x y : R) : Decision (x <= y) := Rle_dec x y.
#[global] Instance Rlt_decision (x y : R) : Decision (x < y) := Rlt_dec x y.
#[global] Instance Rge_decision (x y : R) : Decision (x >= y) := Rge_dec x y.
#[global] Instance Rgt_decision (x y : R) : Decision (x > y) := Rgt_dec x y.

(** A dictionary key, as an exception reports it. *)
Inductive PyKey : Type :=
| IntKey (k : Z)
| StrKey (k : string).

(** Exceptions the modelled code can raise. *)
Inductive PyError : Type :=
| ValueError (msg : string)
| KeyError (key : PyKey)
| IndexError (msg : string).

(** The outcome of a call: a returned value or a raised exception. *)
Inductive result (A : Type) : Type :=
| Ok (a : A)
| Raise (e : PyError).
Arguments Ok {A} a.
Arguments Raise {A} e.

#[global] Instance result_ret : MRet result := fun A a => Ok a.
#[global] Instance result_bind : MBind result := fun A B f r =>
  match r with
  | Ok a => f a
  | Raise e => Raise e
  end.

Definition returns {A : Type} (r : result A) : Prop := exists a, r = Ok a.
Definition raises {A : Type} (r : result A) : Prop := exists e, r = Raise e.

(** [d[k]] on a dictionary with integer keys: [KeyError] when [k] is absent. *)
Definition getitem {V : Type} (d : gmap Z V) (k : Z) : result V :=
  match d !! k with
  | Some v => Ok v
  | None => Raise (KeyError (IntKey k))
  end.

(** [d[k]] on a dictionary with string keys. *)
Definition getitem_str {V : Type} (d : gmap string V) (k : string) : result V :=
  match d !! k with
  | Some v => Ok v
  | None => Raise (KeyError (StrKey k))
  end.

(** [xs[i]] on a list: [IndexError] past the end. *)
Definition list_item {A : Type} (xs : list A) (i : nat) : result A :=
  match xs !! i with
  | Some x => Ok x
  | None => Raise (IndexError "list index out of range")
  end.

(** [[f(x) for x in xs]] where [f] may raise. *)
Fixpoint comprehension {A B : Type} (f : A -> result B) (xs : list A) : result (list B) :=
  match xs with
  | [] => Ok []
  | x :: xs' => y ← f x; ys ← comprehension f xs'; Ok (y :: ys)
  end.

(** [sorted(d.keys())] for integer keys. *)
Definition sorted_keys {V : Type} (d : gmap Z V) : list Z :=
  merge_sort Z.le (map_to_list d).*1.

(** [min(xs, key=key)]: the first element whose key is smallest; [ValueError]
    on an empty sequence. *)
Fixpoint min_by_from {A : Type} (key : A -> R) (best : A) (xs : list A) : A :=
  match xs with
  | [] => best
  | x :: xs' =>
      if bool_decide (key x < key best) then min_by_from key x xs'
      else min_by_from key best xs'
  end.

Definition py_min_by {A : Type} (key : A -> R) (xs : list A) : result A :=
  match xs with
  | [] => Raise (ValueError "min() arg is an empty sequence")
  | x :: xs' => Ok (min_by_from key x xs')
  end.

(** [min(xs)] and [max(xs)] on integers. *)
Definition py_min (xs : list Z) : result Z :=
  match xs with
  | [] => Raise (ValueError "min() arg is an empty sequence")
  | x :: xs' => Ok (foldl (fun best y => if decide (y < best)%Z then y else best) x xs')
  end.

Definition py_max (xs : list Z) : result Z :=
  match xs with
  | [] => Raise (ValueError "max() arg is an empty sequence")
  | x :: xs' => Ok (foldl (fun best y => if decide (best < y)%Z then y else best) x xs')
  end.

(** ** The standard normal distribution ([scipy.stats.norm]) *)

Definition norm_pdf (x : R) : R := exp (- (x * x) / 2) / sqrt (2 * PI).

Lemma norm_pdf_continuous : forall x, continuity_pt norm_pdf x.
Proof.
  intros x. apply derivable_continuous_pt. unfold norm_pdf. reg.
Qed.

Lemma norm_pdf_integrable (a b : R) : Riemann_integrable norm_pdf a b.
Proof.
  destruct (Rle_dec a b) as [Hab|Hab].
  - apply continuity_implies_RiemannInt; [exact Hab|].
    intros; apply norm_pdf_continuous.
  - apply RiemannInt_P1, continuity_implies_RiemannInt; [lra|].
    intros; apply norm_pdf_continuous.
Qed.

(** The area under the density between [a] and [b]. *)
Definition pdf_area (a b : R) : R := RiemannInt (norm_pdf_integrable a b).

Definition norm_cdf (x : R) : R := 1 / 2 + pdf_area 0 x.

(** ** constants.py *)
Module constants.

(** 5 hours and 1 minute in seconds. *)
Definition POTENTIAL_ARBITRAGE_DURATION : R := 18060.

Inductive ContractType : Type := CALL | PUT | EXPIRYMISS | EXPIRYRANGE.

Inductive PricingCurrency : Type := BASE | NUMERAIRE | QUANTO.

#[global] Instance ContractType_eq_dec : EqDecision ContractType.
Proof. solve_decision. Defined.

#[global] Instance PricingCurrency_eq_dec : EqDecision PricingCurrency.
Proof. solve_decision. Defined.

(** A member of one of the package's two enumerations.  The fields
    [contract_type] and [priced_with] of a request are not checked before
    validation, so either can hold a member of either enumeration. *)
Inductive EnumMember : Type :=
| OfContractType (c : ContractType)
| OfPricingCurrency (c : PricingCurrency).

#[global] Instance EnumMember_eq_dec : EqDecision EnumMember.
Proof. solve_decision. Defined.

Definition enum_code (x : EnumMember) : nat :=
  match x with
  | OfContractType CALL => 0
  | OfContractType PUT => 1
  | OfContractType EXPIRYMISS => 2
  | OfContractType EXPIRYRANGE => 3
  | OfPricingCurrency BASE => 4
  | OfPricingCurrency NUMERAIRE => 5
  | OfPricingCurrency QUANTO => 6
  end.

Definition enum_of_code (n : nat) : option EnumMember :=
  match n with
  | 0 => Some (OfContractType CALL)
  | 1 => Some (OfContractType PUT)
  | 2 => Some (OfContractType EXPIRYMISS)
  | 3 => Some (OfContractType EXPIRYRANGE)
  | 4 => Some (OfPricingCurrency BASE)
  | 5 => Some (OfPricingCurrency NUMERAIRE)
  | 6 => Some (OfPricingCurrency QUANTO)
  | _ => None
  end%nat.

Lemma enum_of_code_enum_code x : enum_of_code (enum_code x) = Some x.
Proof. destruct x as [[]|[]]; reflexivity. Qed.

#[global] Instance EnumMember_countable : Countable EnumMember :=
  inj_countable enum_code enum_of_code enum_of_code_enum_code.

(** [x in ContractType] and [x in PricingCurrency]. *)
Definition in_ContractType (x : EnumMember) : bool :=
  match x with OfContractType _ => true | OfPricingCurrency _ => false end.

Definition in_PricingCurrency (x : EnumMember) : bool :=
  match x with OfPricingCurrency _ => true | OfContractType _ => false end.

(** [str(x)], as the f-strings of the error messages print a member. *)
Definition enum_str (x : EnumMember) : string :=
  match x with
  | OfContractType CALL => "ContractType.CALL"
  | OfContractType PUT => "ContractType.PUT"
  | OfContractType EXPIRYMISS => "ContractType.EXPIRYMISS"
  | OfContractType EXPIRYRANGE => "ContractType.EXPIRYRANGE"
  | OfPricingCurrency BASE => "PricingCurrency.BASE"
  | OfPricingCurrency NUMERAIRE => "PricingCurrency.NUMERAIRE"
  | OfPricingCurrency QUANTO => "PricingCurrency.QUANTO"
  end.

End constants.

(** ** black_scholes.py *)
Module black_scholes.
Import constants.

(** The value [d1] returns: a real number or [float("inf")]. *)
Inductive d_value : Type :=
| Finite (x : R)
| Infinite (positive : bool).

Definition d_neg (d : d_value) : d_value :=
  match d with
  | Finite x => Finite (- x)
  | Infinite s => Infinite (negb s)
  end.

(** [norm.cdf] and [norm.pdf] at a [d_value]. *)
Definition cdf (d : d_value) : R :=
  match d with
  | Finite x => norm_cdf x
  | Infinite true => 1
  | Infinite false => 0
  end.

Definition pdf (d : d_value) : R :=
  match d with
  | Finite x => norm_pdf x
  | Infinite _ => 0
  end.

(** The number a finite [d_value] stands for.  The pricing functions multiply
    by [d2] only past their own guard, where it is finite. *)
Definition d_real (d : d_value) : R :=
  match d with
  | Finite x => x
  | Infinite _ => 0
  end.

(** The guard [vol <= 0 or time <= 0] of every pricing function. *)
Definition degenerate (vol time : R) : bool :=
  bool_decide (vol <= 0) || bool_decide (time <= 0).

(** Past the guard the code evaluates [np.log(spot / strike)]: the embedding
    stands for it at positive [spot] and [strike]. *)
Definition d1 (spot strike time rate div vol : R) : d_value :=
  if degenerate vol time then Infinite true
  else Finite ((ln (spot / strike) + (rate - div + 0.5 * vol * vol) * time)
               / (vol * sqrt time)).

Definition d2 (d1_value : d_value) (vol time : R) : d_value :=
  match d1_value with
  | Finite x => Finite (x - vol * sqrt time)
  | Infinite s => Infinite s
  end.

Definition binary_call (spot strike time rate div vol : R) : R :=
  if degenerate vol time then
    (if bool_decide (spot > strike) then 1 else 0)
  else
    let d1_val := d1 spot strike time rate div vol in
    let d2_val := d2 d1_val vol time in
    exp (- rate * time) * cdf d2_val.

Definition binary_put (spot strike time rate div vol : R) : R :=
  if degenerate vol time then
    (if bool_decide (spot < strike) then 1 else 0)
  else
    let d1_val := d1 spot strike time rate div vol in
    let d2_val := d2 d1_val vol time in
    exp (- rate * time) * cdf (d_neg d2_val).

Definition vanilla_call (spot strike time rate div vol : R) : R :=
  if degenerate vol time then Rmax 0 (spot - strike)
  else
    let d1_val := d1 spot strike time rate div vol in
    let d2_val := d2 d1_val vol time in
    spot * exp (- div * time) * cdf d1_val
    - strike * exp (- rate * time) * cdf d2_val.

Definition vanilla_put (spot strike time rate div vol : R) : R :=
  if degenerate vol time then Rmax 0 (strike - spot)
  else
    let d1_val := d1 spot strike time rate div vol in
    let d2_val := d2 d1_val vol time in
    strike * exp (- rate * time) * cdf (d_neg d2_val)
    - spot * exp (- div * time) * cdf (d_neg d1_val).

Definition delta_binary_call (spot strike time rate div vol : R) : R :=
  if degenerate vol time then 0
  else
    let d1_val := d1 spot strike time rate div vol in
    let d2_val := d2 d1_val vol time in
    exp (- rate * time) * pdf d2_val / (spot * vol * sqrt time).

Definition delta_binary_put (spot strike time rate div vol : R) : R :=
  - delta_binary_call spot strike time rate div vol.

Definition vega_binary_call (spot strike time rate div vol : R) : R :=
  if degenerate vol time then 0
  else
    let d1_val := d1 spot strike time rate div vol in
    let d2_val := d2 d1_val vol time in
    - exp (- rate * time) * pdf d2_val * d_real d2_val / vol.

Definition vega_binary_put (spot strike time rate div vol : R) : R :=
  - vega_binary_call spot strike time rate div vol.

Definition vega_vanilla_call (spot strike time rate div vol : R) : R :=
  if degenerate vol time then 0
  else
    let d1_val := d1 spot strike time rate div vol in
    spot * exp (- div * time) * sqrt time * pdf d1_val.

Definition vega_vanilla_put (spot strike time rate div vol : R) : R :=
  vega_vanilla_call spot strike time rate div vol.

Definition price_binary_option (contract_type : EnumMember)
    (spot strike time rate div vol : R) : result R :=
  if decide (contract_type = OfContractType CALL) then
    Ok (binary_call spot strike time rate div vol)
  else if decide (contract_type = OfContractType PUT) then
    Ok (binary_put spot strike time rate div vol)
  else
    Raise (ValueError ("Unsupported contract type: " +:+ enum_str contract_type)).

End black_scholes.

(** ** utils.py *)
Module utils.

(** A volatility surface: tenor in days, to the tables of that tenor
    ("smile", "rr", "bf", "vol_spread"), each from delta point to a number. *)
Abbreviation VolSurface := (gmap Z (gmap string (gmap Z R))).

(** [timedelta.total_seconds()] of a difference in microseconds. *)
Definition total_seconds (microseconds : Z) : R := IZR microseconds / 1000000.

(** [np.finfo(float).eps]. *)
Definition float_eps : R := / 2 ^ 52.

Definition calculate_time_to_expiry (start_date expiry_date : Z) : R :=
  let days := total_seconds (expiry_date - start_date) / (24 * 60 * 60) in
  let epsilon := float_eps in
  Rmin 730 (Rmax epsilon days) / 365.

(** The loop [for i in range(len(deltas) - 1)] of [get_volatility_from_surface],
    over the indices still to visit: [Ok (Some v)] when the body returns [v],
    [Ok None] when the loop runs out. *)
Fixpoint interpolation_loop (deltas : list Z) (vols : list R) (delta : R)
    (indices : list nat) : result (option R) :=
  match indices with
  | [] => Ok None
  | i :: rest =>
      lo ← list_item deltas i;
      hi ← list_item deltas (i + 1);
      if bool_decide (IZR lo <= delta) && bool_decide (delta <= IZR hi) then
        let w := (delta - IZR lo) / (IZR hi - IZR lo) in
        v_lo ← list_item vols i;
        v_hi ← list_item vols (i + 1);
        Ok (Some (v_lo * (1 - w) + v_hi * w))
      else interpolation_loop deltas vols delta rest
  end.

(** The coordinate [delta] comes from [np.log(strike / forward)]: the
    embedding stands for the code at positive [spot] and [strike]. *)
Definition get_volatility_from_surface (vol_surface : VolSurface)
    (spot strike time_to_expiry q_rate r_rate : R) : result R :=
  let tenors := sorted_keys vol_surface in
  tenor ← py_min_by (fun x => Rabs (IZR x - time_to_expiry * 365)) tenors;
  tenor_data ← getitem vol_surface tenor;
  smile_data ← getitem_str tenor_data "smile";
  let forward := spot * exp ((r_rate - q_rate) * time_to_expiry) in
  let moneyness := ln (strike / forward) in
  let deltas := sorted_keys smile_data in
  vols ← comprehension (getitem smile_data) deltas;
  let delta := 50 + (moneyness / (2 * PI)) * 100 in
  lowest ← py_min deltas;
  if bool_decide (delta <= IZR lowest) then list_item vols 0
  else
    highest ← py_max deltas;
    if bool_decide (delta >= IZR highest) then list_item vols (length vols - 1)
    else
      found ← interpolation_loop deltas vols delta (seq 0 (length deltas - 1));
      match found with
      | Some v => Ok v
      | None => getitem smile_data 50
      end.

(** [vol_surface[tenor].get("vol_spread", {}).get(50, 0.01)]. *)
Definition get_spread_from_surface (vol_surface : VolSurface) (tenor : Z) : result R :=
  tenor_data ← getitem vol_surface tenor;
  Ok (default 0.01 (default ∅ (tenor_data !! "vol_spread") !! 50%Z)).

Definition is_forward_starting (pricing_date start_date : Z) : bool :=
  bool_decide (total_seconds (start_date - pricing_date) > 5).

Definition is_intraday (time_to_expiry : R) : bool :=
  bool_decide (time_to_expiry <= 1 / 365).

End utils.

(** ** underlying_config.py *)
Module underlying_config.

Record UnderlyingConfig : Type := {
  market : string;
  submarket : string;
  pip_size : R;
  spot_spread_size : option R;
}.

(** [symbol.startswith(prefix)]. *)
Definition startswith (symbol prefix : string) : bool := String.prefix prefix symbol.

Definition by_symbol (symbol : string) : UnderlyingConfig :=
  if startswith symbol "frx" then
    {| market := "forex"; submarket := ""; pip_size := 0.0001;
       spot_spread_size := Some 50.0 |}
  else
    {| market := "indices"; submarket := ""; pip_size := 0.01;
       spot_spread_size := Some 50.0 |}.

End underlying_config.

(** ** risk_markup.py *)
Module risk_markup.
Import constants.

(** [s.lower()], on the ASCII letters. *)
Definition ascii_lower (c : ascii) : ascii :=
  let n := nat_of_ascii c in
  if (65 <=? n)%nat && (n <=? 90)%nat then ascii_of_nat (n + 32) else c.

Fixpoint lower (s : string) : string :=
  match s with
  | EmptyString => EmptyString
  | String c s' => String (ascii_lower c) (lower s')
  end.

(** [s.endswith(suffix)] and [s.endswith((suffix1, suffix2, ...))]. *)
Fixpoint endswith (s suffix : string) : bool :=
  if bool_decide (s = suffix) then true
  else match s with
       | EmptyString => false
       | String _ s' => endswith s' suffix
       end.

Definition endswith_any (s : string) (suffixes : list string) : bool :=
  existsb (endswith s) suffixes.

(** The dictionary [hour_end_markup_parameters]: its number-valued entries
    (such as "current_spot") and its table-valued entries (such as "high_low",
    with "low" and "high"). *)
Record HourEndParameters : Type := {
  numbers : gmap string R;
  tables : gmap string (gmap string R);
}.

(** Truth value of the dictionary: it has an entry. *)
Definition truthy (p : HourEndParameters) : bool :=
  negb (bool_decide (numbers p = ∅) && bool_decide (tables p = ∅)).

Record MarkupParameters : Type := {
  spot_spread_size : R;
  pip_size : R;
  vol_spread : R;
  equal_tie_amount : R;
  model_arbitrage_amount : R;
  smile_uncertainty_amount : R;
  hour_end_markup_parameters : option HourEndParameters;
}.

(** [MarkupParameters()], all fields at their defaults. *)
Definition default_MarkupParameters : MarkupParameters := {|
  spot_spread_size := 50.0;
  pip_size := 0.0001;
  vol_spread := 0.01;
  equal_tie_amount := 0.01;
  model_arbitrage_amount := 0.05;
  smile_uncertainty_amount := 0.05;
  hour_end_markup_parameters := None;
|}.

Record HourEndMarkup : Type := {
  hour_end_params : HourEndParameters;
  spot_min : R;
  spot_max : R;
}.

Definition HourEndMarkup_calculate_markup (self : HourEndMarkup) : R := 0.0.

Record EqualTieMarkup : Type := {
  equal_tie_underlying_symbol : string;
  equal_tie_time_to_expiry : R;
}.

Definition EqualTieMarkup_calculate_markup (self : EqualTieMarkup) : R := 0.01.

Definition ModelArbitrageMarkup_calculate_markup : R := 0.05.

Record RiskMarkup : Type := {
  is_atm : bool;
  is_forward_starting : bool;
  time_to_expiry : R;
  market_type : string;
  for_sale : bool;
  params : MarkupParameters;
  debug_info : gmap string R;
}.

(** [RiskMarkup.__init__]. *)
Definition RiskMarkup_init (is_atm is_forward_starting : bool) (time_to_expiry : R)
    (market_type : string) (for_sale : bool)
    (parameters : option MarkupParameters) : RiskMarkup := {|
  is_atm := is_atm;
  is_forward_starting := is_forward_starting;
  time_to_expiry := time_to_expiry;
  market_type := lower market_type;
  for_sale := for_sale;
  params := default default_MarkupParameters parameters;
  debug_info := ∅;
|}.

Definition _apply_traded_market_markup (self : RiskMarkup) : bool :=
  bool_decide (market_type self ∈ ["forex"; "commodities"; "indices"])
  || endswith_any (market_type self) ["_basket"; "forex_basket"; "commodity_basket"].

Definition _apply_smile_uncertainty_markup (self : RiskMarkup) : bool :=
  bool_decide (market_type self = "indices")
  && bool_decide (time_to_expiry self < 7 / 365)
  && negb (is_atm self).

Definition _apply_equal_tie_markup (self : RiskMarkup) : bool := true.

(** [params.get(key, 0)] and [params.get(key, {}).get(inner, 0)]. *)
Definition get_number (p : HourEndParameters) (key : string) : R :=
  default 0 (numbers p !! key).

Definition get_nested (p : HourEndParameters) (key inner : string) : R :=
  default 0 (default ∅ (tables p !! key) !! inner).

(** The branch of [calculate_total_markup] for traded markets: the running
    markup and the diagnostics after it. *)
Definition traded_market_markups (self : RiskMarkup) (delta vega : R)
    (markup : R) (debug_info : gmap string R) : R * gmap string R :=
  (* Hour end markup *)
  let '(markup, debug_info) :=
    match hour_end_markup_parameters (params self) with
    | Some params =>
        if truthy params then
          let current_spot := get_number params "current_spot" in
          let min_spot := Rmin current_spot (get_nested params "high_low" "low") in
          let max_spot := Rmax current_spot (get_nested params "high_low" "high") in
          let hour_end_markup :=
            HourEndMarkup_calculate_markup
              {| hour_end_params := params; spot_min := min_spot; spot_max := max_spot |} in
          (markup + hour_end_markup, <["hour_end_markup" := hour_end_markup]> debug_info)
        else (markup, debug_info)
    | None => (markup, debug_info)
    end in
  (* Skip most markups for forward starting contracts *)
  let '(markup, debug_info) :=
    if negb (is_forward_starting self && negb (_apply_equal_tie_markup self)) then
      (* Volatility spread markup for non-ATM contracts *)
      let '(markup, debug_info) :=
        if negb (is_atm self) then
          let vol_markup := Rmin (vol_spread (params self) * Rabs vega) 0.7 in
          (markup + vol_markup, <["vol_spread_markup" := vol_markup]> debug_info)
        else (markup, debug_info) in
      (* Spot spread markup for non-intraday trades *)
      let '(markup, debug_info) :=
        if negb (utils.is_intraday (time_to_expiry self)) then
          let spot_spread_base := spot_spread_size (params self) * pip_size (params self) in
          let spot_markup := Rmax 0 (Rmin (spot_spread_base * Rabs delta) 0.01) in
          (markup + spot_markup, <["spot_spread_markup" := spot_markup]> debug_info)
        else (markup, debug_info) in
      (* Smile uncertainty markup for short-term index options *)
      if _apply_smile_uncertainty_markup self then
        let smile_markup := smile_uncertainty_amount (params self) in
        (markup + smile_markup, <["smile_uncertainty_markup" := smile_markup]> debug_info)
      else (markup, debug_info)
    else (markup, debug_info) in
  (* Equal tie markup *)
  if _apply_equal_tie_markup self then
    let equal_tie_markup :=
      EqualTieMarkup_calculate_markup
        {| equal_tie_underlying_symbol := "";
           equal_tie_time_to_expiry := time_to_expiry self |} in
    (markup + equal_tie_markup, <["equal_tie_markup" := equal_tie_markup]> debug_info)
  else (markup, debug_info).

(** [calculate_total_markup]: the markup returned and the object after the
    call, its diagnostics updated. *)
Definition calculate_total_markup (self : RiskMarkup) (delta vega : R)
    : R * RiskMarkup :=
  let markup := 0.0 in
  let debug_info := debug_info self in
  (* Base markups for traded markets *)
  let '(markup, debug_info) :=
    if _apply_traded_market_markup self then
      traded_market_markups self delta vega markup debug_info
    else (markup, debug_info) in
  (* Model arbitrage markup for short duration contracts *)
  let '(markup, debug_info) :=
    if negb (for_sale self)
       && bool_decide (time_to_expiry self * 365 * 24 * 3600
                       <= POTENTIAL_ARBITRAGE_DURATION) then
      let model_arb_markup := ModelArbitrageMarkup_calculate_markup in
      (markup + model_arb_markup, <["model_arbitrage_markup" := model_arb_markup]> debug_info)
    else (markup, debug_info) in
  (* Risk markup divided equally on both sides *)
  let markup := markup / 2 in
  let debug_info := <["total_markup" := markup]> debug_info in
  (markup,
   {| is_atm := is_atm self;
      is_forward_starting := is_forward_starting self;
      time_to_expiry := time_to_expiry self;
      market_type := market_type self;
      for_sale := for_sale self;
      params := params self;
      debug_info := debug_info |}).

End risk_markup.

(** ** pricing_engine.py *)
Module pricing_engine.
Import constants.

Record PricingParameters : Type := {
  contract_type : EnumMember;
  spot : R;
  strikes : list R;
  date_start : Z;
  date_pricing : Z;
  date_expiry : Z;
  discount_rate : R;
  mu : R;
  vol_surface : utils.VolSurface;
  q_rate : R;
  r_rate : R;
  priced_with : EnumMember;
  underlying_symbol : string;
  market_type : string;
  is_atm : bool;
  for_sale : bool;
  markup_parameters : option risk_markup.MarkupParameters;
}.

(** The diagnostic trace [_calculate] builds. *)
Record PricingInputs : Type := {
  trace_spot : R;
  trace_strike : R;
  trace_time : R;
  trace_rate : R;
  trace_div : R;
  trace_vol : R;
}.

Record AmountTrace : Type := {
  amount : R;
  parameters : PricingInputs;
}.

Record SlopeTrace : Type := {
  slope_amount : R;
  slope_vanilla_vega : AmountTrace;
  slope : R;
}.

Record DebugInfo : Type := {
  bs_probability : AmountTrace;
  slope_adjustment : option SlopeTrace;
}.

Record EuropeanDigitalSlope : Type := {
  params : PricingParameters;
  time_to_expiry : R;
  risk_markup : risk_markup.RiskMarkup;
  debug_info : gmap EnumMember DebugInfo;
}.

Definition _validate_parameters (params : PricingParameters) : result unit :=
  if negb (in_ContractType (contract_type params)) then
    Raise (ValueError ("Unsupported contract type: " +:+ enum_str (contract_type params)))
  else if negb (in_PricingCurrency (priced_with params)) then
    Raise (ValueError ("Unsupported pricing currency: " +:+ enum_str (priced_with params)))
  else if negb (bool_decide (length (strikes params) ∈ [1; 2]%nat)) then
    Raise (ValueError "Must provide either 1 or 2 strike prices")
  else if bool_decide (date_expiry params <= date_start params)%Z then
    Raise (ValueError "Expiry date must be after start date")
  else Ok tt.

(** [EuropeanDigitalSlope.__init__]. *)
Definition EuropeanDigitalSlope_init (params : PricingParameters)
    : result EuropeanDigitalSlope :=
  _ ← _validate_parameters params;
  (* Calculate derived values *)
  let time_to_expiry :=
    utils.calculate_time_to_expiry (date_start params) (date_expiry params) in
  (* Initialize risk markup calculator *)
  let risk_markup :=
    risk_markup.RiskMarkup_init
      (is_atm params)
      (utils.is_forward_starting (date_pricing params) (date_start params))
      time_to_expiry
      (market_type params)
      (for_sale params)
      (markup_parameters params) in
  Ok {| params := params; time_to_expiry := time_to_expiry;
        risk_markup := risk_markup; debug_info := ∅ |}.

Definition _get_volatility_for_strike (self : EuropeanDigitalSlope) (strike : R)
    : result R :=
  utils.get_volatility_from_surface
    (vol_surface (params self)) (spot (params self)) strike
    (time_to_expiry self) (q_rate (params self)) (r_rate (params self)).

(** [_get_atm_volatility]; the argument dictionary it copies is not read. *)
Definition _get_atm_volatility (self : EuropeanDigitalSlope) : result R :=
  strike ← list_item (strikes (params self)) 0;
  utils.get_volatility_from_surface
    (vol_surface (params self)) (spot (params self)) strike
    (time_to_expiry self) (q_rate (params self)) (r_rate (params self)).

Definition _get_underlying_config (self : EuropeanDigitalSlope)
    : underlying_config.UnderlyingConfig :=
  underlying_config.by_symbol (underlying_symbol (params self)).

Definition _get_first_tenor_on_surface (self : EuropeanDigitalSlope) : result Z :=
  py_min (map_to_list (vol_surface (params self))).*1.

(** [max(-0.03, min(0.03, x))]. *)
Definition cap_slope_adjustment (x : R) : R := Rmax (-0.03) (Rmin 0.03 x).

Definition _calculate (self : EuropeanDigitalSlope) (contract_type : EnumMember)
    : result (R * DebugInfo) :=
  let p := params self in
  (* Get base probability *)
  strike ← list_item (strikes p) 0;
  vol ← utils.get_volatility_from_surface
           (vol_surface p) (spot p) strike (time_to_expiry self) (q_rate p) (r_rate p);
  bs_probability ← black_scholes.price_binary_option
                      contract_type (spot p) strike (time_to_expiry self)
                      (discount_rate p) (mu p) vol;
  let bs_trace :=
    {| amount := bs_probability;
       parameters := {| trace_spot := spot p; trace_strike := strike;
                        trace_time := time_to_expiry self;
                        trace_rate := discount_rate p; trace_div := mu p;
                        trace_vol := vol |} |} in
  (* Calculate slope adjustment if not forward starting *)
  if negb (utils.is_forward_starting (date_pricing p) (date_start p)) then
    (* Use ATM volatility for Greeks *)
    atm_vol ← _get_atm_volatility self;
    (* Calculate vanilla vega *)
    let vanilla_vega :=
      if decide (contract_type = OfContractType CALL) then
        black_scholes.vega_vanilla_call
          (spot p) strike (time_to_expiry self) (discount_rate p) (mu p) atm_vol
      else
        black_scholes.vega_vanilla_put
          (spot p) strike (time_to_expiry self) (discount_rate p) (mu p) atm_vol in
    (* Get volatility at strike +- pip using underlying config *)
    let underlying_config := _get_underlying_config self in
    let pip_size := underlying_config.pip_size underlying_config in
    vol_down ← utils.get_volatility_from_surface
                  (vol_surface p) (spot p) (strike - pip_size)
                  (time_to_expiry self) (q_rate p) (r_rate p);
    vol_up ← utils.get_volatility_from_surface
                (vol_surface p) (spot p) (strike + pip_size)
                (time_to_expiry self) (q_rate p) (r_rate p);
    (* Calculate slope *)
    let slope := (vol_up - vol_down) / (2 * pip_size) in
    (* Apply slope adjustment with correct sign *)
    let base_amount := if decide (contract_type = OfContractType CALL) then -1 else 1 in
    let slope_adjustment := base_amount * vanilla_vega * slope in
    (* Cap adjustment for short-term trades *)
    slope_adjustment ←
      (if bool_decide (time_to_expiry self <= 1 / 365) then
         first_tenor ← _get_first_tenor_on_surface self;
         if bool_decide (first_tenor > 7)%Z then Ok (cap_slope_adjustment slope_adjustment)
         else Ok slope_adjustment
       else Ok slope_adjustment);
    let slope_trace :=
      {| slope_amount := slope_adjustment;
         slope_vanilla_vega :=
           {| amount := vanilla_vega;
              parameters := {| trace_spot := spot p; trace_strike := strike;
                               trace_time := time_to_expiry self;
                               trace_rate := discount_rate p; trace_div := mu p;
                               trace_vol := atm_vol |} |};
         slope := slope |} in
    Ok (bs_probability + slope_adjustment,
        {| bs_probability := bs_trace; slope_adjustment := Some slope_trace |})
  else
    let slope_adjustment := 0.0 in
    Ok (bs_probability + slope_adjustment,
        {| bs_probability := bs_trace; slope_adjustment := None |}).

(** Replaces the diagnostics of the engine. *)
Definition set_debug_info (self : EuropeanDigitalSlope)
    (d : gmap EnumMember DebugInfo) : EuropeanDigitalSlope :=
  {| params := params self; time_to_expiry := time_to_expiry self;
     risk_markup := risk_markup self; debug_info := d |}.

(** Replaces the markup calculator of the engine. *)
Definition set_risk_markup (self : EuropeanDigitalSlope)
    (m : risk_markup.RiskMarkup) : EuropeanDigitalSlope :=
  {| params := params self; time_to_expiry := time_to_expiry self;
     risk_markup := m; debug_info := debug_info self |}.

(** The methods that price return the value and the engine after the call. *)
Definition _calculate_numeraire_probability (self : EuropeanDigitalSlope)
    : result (R * EuropeanDigitalSlope) :=
  '(prob, info) ← _calculate self (contract_type (params self));
  Ok (prob, set_debug_info self (<[contract_type (params self) := info]> (debug_info self))).

Definition _calculate_quanto_probability (self : EuropeanDigitalSlope) : result R :=
  let p := params self in
  (* For quanto, use r_rate - q_rate as drift *)
  let adjusted_mu := r_rate p - q_rate p in
  strike ← list_item (strikes p) 0;
  vol ← utils.get_volatility_from_surface
           (vol_surface p) (spot p) strike (time_to_expiry self) (q_rate p) (r_rate p);
  black_scholes.price_binary_option
    (contract_type p) (spot p) strike (time_to_expiry self)
    (discount_rate p) adjusted_mu vol.

Definition _calculate_vanilla_component (self : EuropeanDigitalSlope) : R := 0.0.

(** The result is a quotient by the spot: the embedding stands for the code
    at a positive spot. *)
Definition _calculate_base_probability_with_vanilla (self : EuropeanDigitalSlope)
    : result R :=
  let p := params self in
  strike ← list_item (strikes p) 0;
  vol ← utils.get_volatility_from_surface
           (vol_surface p) (spot p) strike (time_to_expiry self) (q_rate p) (r_rate p);
  numeraire_prob ← black_scholes.price_binary_option
                      (contract_type p) (spot p) strike (time_to_expiry self)
                      (r_rate p) (r_rate p - q_rate p) vol;
  let sign := if decide (contract_type p = OfContractType CALL) then 1 else -1 in
  Ok ((numeraire_prob * strike + sign * _calculate_vanilla_component self) / spot p).

Definition _calculate_expiry_miss_probability (self : EuropeanDigitalSlope)
    (low_strike high_strike : R) : result R :=
  let p := params self in
  (* Probability of being below low strike *)
  low_vol ← _get_volatility_for_strike self low_strike;
  low_prob ← black_scholes.price_binary_option
                (OfContractType PUT) (spot p) low_strike (time_to_expiry self)
                (discount_rate p) (mu p) low_vol;
  (* Probability of being above high strike *)
  high_vol ← _get_volatility_for_strike self high_strike;
  high_prob ← black_scholes.price_binary_option
                 (OfContractType CALL) (spot p) high_strike (time_to_expiry self)
                 (discount_rate p) (mu p) high_vol;
  Ok (low_prob + high_prob).

Definition _calculate_expiry_range_probability (self : EuropeanDigitalSlope)
    (low_strike high_strike : R) : result R :=
  let p := params self in
  (* EXPIRYRANGE is 1 - EXPIRYMISS with discounting *)
  let discount_factor := exp (- discount_rate p * time_to_expiry self) in
  expiry_miss_prob ← _calculate_expiry_miss_probability self low_strike high_strike;
  Ok (discount_factor * (1 - expiry_miss_prob)).

Definition _calculate_two_barrier_probability (self : EuropeanDigitalSlope)
    : result R :=
  match merge_sort Rle (strikes (params self)) with
  | [low_strike; high_strike] =>
      if decide (contract_type (params self) = OfContractType EXPIRYMISS) then
        _calculate_expiry_miss_probability self low_strike high_strike
      else
        _calculate_expiry_range_probability self low_strike high_strike
  | _ => Raise (ValueError "wrong number of values to unpack")
  end.

Definition _calculate_base_probability (self : EuropeanDigitalSlope)
    : result (R * EuropeanDigitalSlope) :=
  if decide (length (strikes (params self)) = 2%nat) then
    prob ← _calculate_two_barrier_probability self; Ok (prob, self)
  else if decide (priced_with (params self) = OfPricingCurrency NUMERAIRE) then
    _calculate_numeraire_probability self
  else if decide (priced_with (params self) = OfPricingCurrency QUANTO) then
    prob ← _calculate_quanto_probability self; Ok (prob, self)
  else
    prob ← _calculate_base_probability_with_vanilla self; Ok (prob, self).

Definition _calculate_delta (self : EuropeanDigitalSlope) : result R :=
  let p := params self in
  strike ← list_item (strikes p) 0;
  vol ← _get_volatility_for_strike self strike;
  if decide (contract_type p = OfContractType CALL) then
    Ok (black_scholes.delta_binary_call
          (spot p) strike (time_to_expiry self) (discount_rate p) (mu p) vol)
  else
    Ok (black_scholes.delta_binary_put
          (spot p) strike (time_to_expiry self) (discount_rate p) (mu p) vol).

Definition _calculate_vega (self : EuropeanDigitalSlope) : result R :=
  let p := params self in
  strike ← list_item (strikes p) 0;
  vol ← _get_volatility_for_strike self strike;
  if decide (contract_type p = OfContractType CALL) then
    Ok (black_scholes.vega_binary_call
          (spot p) strike (time_to_expiry self) (discount_rate p) (mu p) vol)
  else
    Ok (black_scholes.vega_binary_put
          (spot p) strike (time_to_expiry self) (discount_rate p) (mu p) vol).

Definition calculate_probability (self : EuropeanDigitalSlope)
    : result (R * EuropeanDigitalSlope) :=
  '(base_prob, self) ← _calculate_base_probability self;
  (* Calculate Greeks for markup *)
  delta ← _calculate_delta self;
  vega ← _calculate_vega self;
  (* Apply risk markup *)
  let '(markup, risk_markup) :=
    risk_markup.calculate_total_markup (risk_markup self) delta vega in
  let self := set_risk_markup self risk_markup in
  (* Combine and bound the result *)
  let final_prob := base_prob + markup in
  Ok (Rmax 0.0 (Rmin 1.0 final_prob), self).

End pricing_engine.

(** ** historical_vol_surface.py *)
Module historical_vol_surface.

(** The default parameters (EUR/USD like). *)
Definition default_params : gmap string R :=
  list_to_map
    [("smile_wings", 1.06); ("smile_body", 1.02); ("rr_25", -0.002);
     ("rr_10", -0.004); ("bf_25", 0.0015); ("bf_10", 0.0025);
     ("term_slope", 0.1); ("rr_term", 0.1); ("bf_term", 0.05)].

(** [{**default_params, key: value, ...}]: the listed entries override. *)
Definition overriding (entries : list (string * R)) (defaults : gmap string R)
    : gmap string R :=
  list_to_map entries ∪ defaults.

Definition get_market_parameters (market_type symbol : string) : gmap string R :=
  if bool_decide (market_type = "forex") then
    if bool_decide (symbol = "GBPUSD") then
      overriding [("smile_wings", 1.08); ("rr_25", -0.003); ("rr_10", -0.006)]
        default_params
    else if bool_decide (symbol = "JPYUSD") then
      overriding [("smile_wings", 1.04); ("smile_body", 1.01);
                  ("rr_25", -0.001); ("rr_10", -0.002)] default_params
    else default_params
  else if bool_decide (market_type = "commodities") then
    if bool_decide (symbol = "XAUUSD") then
      overriding [("smile_wings", 1.10); ("smile_body", 1.03); ("bf_25", 0.002);
                  ("bf_10", 0.003); ("term_slope", 0.15)] default_params
    else default_params
  else default_params.

(** The tables of the 1-day tenor. *)
Definition first_tenor_tables (base_vol : R) (params : gmap string R)
    : result (gmap string (gmap Z R)) :=
  wings_10 ← getitem_str params "smile_wings";
  body_25 ← getitem_str params "smile_body";
  body_75 ← getitem_str params "smile_body";
  wings_90 ← getitem_str params "smile_wings";
  rr_25 ← getitem_str params "rr_25";
  rr_10 ← getitem_str params "rr_10";
  bf_25 ← getitem_str params "bf_25";
  bf_10 ← getitem_str params "bf_10";
  Ok (list_to_map
        [("smile",
          list_to_map [(10%Z, base_vol * wings_10); (25%Z, base_vol * body_25);
                       (50%Z, base_vol); (75%Z, base_vol * body_75);
                       (90%Z, base_vol * wings_90)]);
         ("vol_spread", {[ 50%Z := 0.01 ]});
         ("rr", list_to_map [(25%Z, rr_25); (10%Z, rr_10)]);
         ("bf", list_to_map [(25%Z, bf_25); (10%Z, bf_10)])]).

(** The tables of a later tenor, scaled along the term structure. *)
Definition term_tenor_tables (base_vol : R) (params : gmap string R) (tenor : Z)
    : result (gmap string (gmap Z R)) :=
  term_slope ← getitem_str params "term_slope";
  let term_factor := 1.0 + term_slope * ln (IZR tenor / 365 + 1) in
  wings_10 ← getitem_str params "smile_wings";
  body_25 ← getitem_str params "smile_body";
  body_75 ← getitem_str params "smile_body";
  wings_90 ← getitem_str params "smile_wings";
  rr_25 ← getitem_str params "rr_25";
  rr_term_25 ← getitem_str params "rr_term";
  rr_10 ← getitem_str params "rr_10";
  rr_term_10 ← getitem_str params "rr_term";
  bf_25 ← getitem_str params "bf_25";
  bf_term_25 ← getitem_str params "bf_term";
  bf_10 ← getitem_str params "bf_10";
  bf_term_10 ← getitem_str params "bf_term";
  Ok (list_to_map
        [("smile",
          list_to_map [(10%Z, base_vol * term_factor * wings_10);
                       (25%Z, base_vol * term_factor * body_25);
                       (50%Z, base_vol * term_factor);
                       (75%Z, base_vol * term_factor * body_75);
                       (90%Z, base_vol * term_factor * wings_90)]);
         ("vol_spread", {[ 50%Z := 0.01 ]});
         ("rr", list_to_map [(25%Z, rr_25 * (1 + rr_term_25 * IZR tenor / 365));
                             (10%Z, rr_10 * (1 + rr_term_10 * IZR tenor / 365))]);
         ("bf", list_to_map [(25%Z, bf_25 * (1 + bf_term_25 * IZR tenor / 365));
                             (10%Z, bf_10 * (1 + bf_term_10 * IZR tenor / 365))])]).

(** The loop [for tenor in [7, 30, 90, 180, 365]]. *)
Fixpoint add_term_structure (base_vol : R) (params : gmap string R)
    (vol_surface : utils.VolSurface) (tenors : list Z) : result utils.VolSurface :=
  match tenors with
  | [] => Ok vol_surface
  | tenor :: rest =>
      tables ← term_tenor_tables base_vol params tenor;
      add_term_structure base_vol params (<[tenor := tables]> vol_surface) rest
  end.

(** [build_vol_surface] from the base volatility on: [base_vol] is what
    [calculate_historical_volatility] returned for the prices loaded from the
    files of the day; loading them and printing the report are not modelled. *)
Definition build_vol_surface (base_vol : R) (market_type symbol : string)
    : result utils.VolSurface :=
  let params := get_market_parameters market_type symbol in
  tables ← first_tenor_tables base_vol params;
  let vol_surface := {[ 1%Z := tables ]} in
  add_term_structure base_vol params vol_surface [7; 30; 90; 180; 365]%Z.

End historical_vol_surface.

(** * Vocabulary of the specification

    The notions the specification states its properties with, each a
    definition of its own next to the code it is compared with. *)

(** ** Risk markup *)
Section MarkupVocabulary.
Import risk_markup.

(** The market classes the rule stack is for, in the words of the
    specification: forex, commodities, indices, or any "_basket" class. *)
Definition traded_market_class (market : string) : Prop :=
  market ∈ ["forex"; "commodities"; "indices"]
  \/ exists prefix, market = prefix +:+ "_basket".

(** The contributions of the rule stack, in the words of the specification. *)
Definition hour_end_contribution : R := 0.

Definition vol_spread_contribution (self : RiskMarkup) (vega : R) : R :=
  if is_atm self then 0 else Rmin (vol_spread (params self) * Rabs vega) 0.7.

Definition spot_spread_contribution (self : RiskMarkup) (delta : R) : R :=
  if bool_decide (time_to_expiry self <= 1 / 365) then 0
  else Rmax 0 (Rmin (spot_spread_size (params self) * pip_size (params self) * Rabs delta) 0.01).

Definition smile_uncertainty_contribution (self : RiskMarkup) : R :=
  if bool_decide (market_type self = "indices" /\ time_to_expiry self < 7 / 365
                  /\ is_atm self = false)
  then smile_uncertainty_amount (params self) else 0.

Definition equal_tie_contribution : R := 0.01.

Definition model_arbitrage_applies (self : RiskMarkup) : Prop :=
  for_sale self = false /\ time_to_expiry self * 365 * 86400 <= 18060.

Definition model_arbitrage_contribution (self : RiskMarkup) : R :=
  if bool_decide (model_arbitrage_applies self) then 0.05 else 0.

(** The sum of the traded-market contributions, zero outside traded markets. *)
Definition traded_market_contribution (self : RiskMarkup) (delta vega : R) : R :=
  if _apply_traded_market_markup self
  then hour_end_contribution + vol_spread_contribution self vega
       + spot_spread_contribution self delta
       + smile_uncertainty_contribution self + equal_tie_contribution
  else 0.

(** The object with its diagnostics replaced. *)
Definition with_debug_info (self : RiskMarkup) (d : gmap string R) : RiskMarkup :=
  {| is_atm := is_atm self;
     is_forward_starting := is_forward_starting self;
     time_to_expiry := time_to_expiry self;
     market_type := market_type self;
     for_sale := for_sale self;
     params := params self;
     debug_info := d |}.

End MarkupVocabulary.

(** ** Validation *)
Section ValidationVocabulary.
Import constants pricing_engine.

(** The members of the two enumerations. *)
Definition contract_types : list EnumMember :=
  [OfContractType CALL; OfContractType PUT;
   OfContractType EXPIRYMISS; OfContractType EXPIRYRANGE].

Definition pricing_currencies : list EnumMember :=
  [OfPricingCurrency BASE; OfPricingCurrency NUMERAIRE; OfPricingCurrency QUANTO].

(** What [_validate_parameters] rejects. *)
Definition invalid_request (p : PricingParameters) : Prop :=
  contract_type p ∉ contract_types
  \/ priced_with p ∉ pricing_currencies
  \/ length (strikes p) ∉ [1; 2]%nat
  \/ (date_expiry p <= date_start p)%Z.

End ValidationVocabulary.

(** ** Volatility surfaces *)
Section SurfaceVocabulary.
Import utils.

(** The data contract of a surface: it has a tenor, and every tenor carries a
    smile with at least one point. *)
Definition well_formed_surface (surface : VolSurface) : Prop :=
  surface <> ∅
  /\ forall tenor tables, surface !! tenor = Some tables ->
       exists smile, tables !! "smile" = Some smile /\ smile <> ∅.

(** [tenor] is a tenor of the surface nearest to [days], the smallest of
    those at the same distance. *)
Definition nearest_tenor (surface : VolSurface) (days : R) (tenor : Z) : Prop :=
  is_Some (surface !! tenor)
  /\ forall t, is_Some (surface !! t) ->
       Rabs (IZR tenor - days) <= Rabs (IZR t - days)
       /\ (Rabs (IZR t - days) = Rabs (IZR tenor - days) -> (tenor <= t)%Z).

(** [tenor] is the smallest tenor of the surface. *)
Definition first_tenor (surface : VolSurface) (tenor : Z) : Prop :=
  is_Some (surface !! tenor)
  /\ forall t, is_Some (surface !! t) -> (tenor <= t)%Z.

(** The coordinate of a strike on the smile. *)
Definition delta_coordinate (spot strike time_to_expiry q_rate r_rate : R) : R :=
  let forward := spot * exp ((r_rate - q_rate) * time_to_expiry) in
  let moneyness := ln (strike / forward) in
  50 + (moneyness / (2 * PI)) * 100.

Definition least_key (smile : gmap Z R) (k : Z) : Prop :=
  is_Some (smile !! k) /\ forall k', is_Some (smile !! k') -> (k <= k')%Z.

Definition greatest_key (smile : gmap Z R) (k : Z) : Prop :=
  is_Some (smile !! k) /\ forall k', is_Some (smile !! k') -> (k' <= k)%Z.

(** Two keys of the smile with no key between them. *)
Definition adjacent_keys (smile : gmap Z R) (lo hi : Z) : Prop :=
  is_Some (smile !! lo) /\ is_Some (smile !! hi) /\ (lo < hi)%Z
  /\ forall k, is_Some (smile !! k) -> (k <= lo)%Z \/ (hi <= k)%Z.

Definition linear_interpolation (lo hi v_lo v_hi delta : R) : R :=
  let w := (delta - lo) / (hi - lo) in
  v_lo * (1 - w) + v_hi * w.

(** The volatility the smile gives at a coordinate. *)
Definition smile_volatility (smile : gmap Z R) (delta v : R) : Prop :=
  exists lowest highest,
    least_key smile lowest /\ greatest_key smile highest
    /\ (delta <= IZR lowest -> smile !! lowest = Some v)
    /\ (delta >= IZR highest -> smile !! highest = Some v)
    /\ (IZR lowest < delta < IZR highest ->
        exists lo hi v_lo v_hi,
          adjacent_keys smile lo hi /\ IZR lo <= delta <= IZR hi
          /\ smile !! lo = Some v_lo /\ smile !! hi = Some v_hi
          /\ v = linear_interpolation (IZR lo) (IZR hi) v_lo v_hi delta).

(** A flat surface: two tenors, every point of every smile at 0.08. *)
Definition flat_smile : gmap Z R :=
  list_to_map [(10%Z, 0.08); (25%Z, 0.08); (50%Z, 0.08); (75%Z, 0.08); (90%Z, 0.08)].

Definition flat_surface : utils.VolSurface :=
  {[ 30%Z := {[ "smile" := flat_smile ]}; 90%Z := {[ "smile" := flat_smile ]} ]}.

(** A surface with one tenor and a smile rising from 0.10 to 0.20. *)
Definition skewed_surface : utils.VolSurface :=
  {[ 30%Z := {[ "smile" := {[ 25%Z := 0.10; 75%Z := 0.20 ]} ]} ]}.

End SurfaceVocabulary.

(** ** The pricing engine *)
Section EngineVocabulary.
Import constants black_scholes utils underlying_config pricing_engine.

(** The surface answers every volatility query of the engine. *)
Definition surface_answers (self : EuropeanDigitalSlope) : Prop :=
  forall strike, returns (_get_volatility_for_strike self strike).

(** Two engines that differ in their diagnostics only. *)
Definition same_inputs (a b : EuropeanDigitalSlope) : Prop :=
  params a = params b /\ time_to_expiry a = time_to_expiry b
  /\ risk_markup a = risk_markup b.

(** The binary price of a CALL or a PUT. *)
Definition binary_price (ct : ContractType) (spot strike time rate div vol : R) : R :=
  match ct with
  | CALL => binary_call spot strike time rate div vol
  | _ => binary_put spot strike time rate div vol
  end.

(** The slope adjustment of the specification, before the cap; the vanilla
    vega of a call and of a put are the same number. *)
Definition slope_adjustment_formula (self : EuropeanDigitalSlope)
    (ct : ContractType) (strike vol vol_down vol_up : R) : R :=
  let p := params self in
  let pip := pip_size (by_symbol (underlying_symbol p)) in
  let sign := match ct with CALL => -1 | _ => 1 end in
  let vanilla_vega :=
    vega_vanilla_call (spot p) strike (time_to_expiry self) (discount_rate p) (mu p) vol in
  let slope := (vol_up - vol_down) / (2 * pip) in
  sign * vanilla_vega * slope.

(** The engine [EuropeanDigitalSlope(p)] holds once [p] is validated. *)
Definition engine_of (p : PricingParameters) : EuropeanDigitalSlope :=
  {| params := p;
     time_to_expiry := calculate_time_to_expiry (date_start p) (date_expiry p);
     risk_markup :=
       risk_markup.RiskMarkup_init (is_atm p)
         (is_forward_starting (date_pricing p) (date_start p))
         (calculate_time_to_expiry (date_start p) (date_expiry p))
         (market_type p) (for_sale p) (markup_parameters p);
     debug_info := ∅ |}.

(** A request on EUR/USD at spot 1 over the flat surface, priced at its
    start, expiring [days] days later. *)
Definition sample_request (contract_type : EnumMember) (strikes : list R)
    (priced_with : EnumMember) (days : Z) : PricingParameters :=
  {| contract_type := contract_type;
     spot := 1;
     strikes := strikes;
     date_start := 0;
     date_pricing := 0;
     date_expiry := days * 86400000000;
     discount_rate := 0.02;
     mu := 0.03;
     vol_surface := flat_surface;
     q_rate := 0.03;
     r_rate := 0.02;
     priced_with := priced_with;
     underlying_symbol := "frxEURUSD";
     market_type := "forex";
     is_atm := false;
     for_sale := true;
     markup_parameters := None |}.

(** The engine with other strikes. *)
Definition with_strikes (self : EuropeanDigitalSlope) (ks : list R) : EuropeanDigitalSlope :=
  let p := params self in
  {| params :=
       {| contract_type := contract_type p; spot := spot p; strikes := ks;
          date_start := date_start p; date_pricing := date_pricing p;
          date_expiry := date_expiry p; discount_rate := discount_rate p;
          mu := mu p; vol_surface := vol_surface p; q_rate := q_rate p;
          r_rate := r_rate p; priced_with := priced_with p;
          underlying_symbol := underlying_symbol p; market_type := market_type p;
          is_atm := is_atm p; for_sale := for_sale p;
          markup_parameters := markup_parameters p |};
     time_to_expiry := time_to_expiry self;
     risk_markup := risk_markup self;
     debug_info := debug_info self |}.

(** The request over another surface. *)
Definition with_surface (p : PricingParameters) (surface : VolSurface)
    : PricingParameters :=
  {| contract_type := contract_type p; spot := spot p; strikes := strikes p;
     date_start := date_start p; date_pricing := date_pricing p;
     date_expiry := date_expiry p; discount_rate := discount_rate p;
     mu := mu p; vol_surface := surface; q_rate := q_rate p;
     r_rate := r_rate p; priced_with := priced_with p;
     underlying_symbol := underlying_symbol p; market_type := market_type p;
     is_atm := is_atm p; for_sale := for_sale p;
     markup_parameters := markup_parameters p |}.

End EngineVocabulary.

(** ** Surfaces built from historical prices *)
Section BuiltVocabulary.
Import utils historical_vol_surface.

(** The tenors of a built surface. *)
Definition built_tenors : list Z := [1; 7; 30; 90; 180; 365]%Z.

(** The at-the-money level of a tenor of a built surface. *)
Definition built_level (base_vol term_slope : R) (tenor : Z) : R :=
  if decide (tenor = 1%Z) then base_vol
  else base_vol * (1.0 + term_slope * ln (IZR tenor / 365 + 1)).

(** The smile of a built surface around the level [level]. *)
Definition built_smile (level wings body : R) : gmap Z R :=
  list_to_map [(10%Z, level * wings); (25%Z, level * body); (50%Z, level);
               (75%Z, level * body); (90%Z, level * wings)].

(** The surface of a result, the empty one when it is an error. *)
Definition surface_of (r : result VolSurface) : VolSurface :=
  match r with Ok surface => surface | Raise _ => ∅ end.

(** The parameters of a market: all nine. *)
Record market_parameters (params : gmap string R)
    (wings body rr_25 rr_10 bf_25 bf_10 term_slope rr_term bf_term : R) : Prop := {
  mp_wings : params !! "smile_wings" = Some wings;
  mp_body : params !! "smile_body" = Some body;
  mp_rr_25 : params !! "rr_25" = Some rr_25;
  mp_rr_10 : params !! "rr_10" = Some rr_10;
  mp_bf_25 : params !! "bf_25" = Some bf_25;
  mp_bf_10 : params !! "bf_10" = Some bf_10;
  mp_term_slope : params !! "term_slope" = Some term_slope;
  mp_rr_term : params !! "rr_term" = Some rr_term;
  mp_bf_term : params !! "bf_term" = Some bf_term;
}.

End BuiltVocabulary.

(** * Properties *)

(** ** The normal distribution *)

Lemma norm_pdf_even x : norm_pdf (- x) = norm_pdf x.
Proof. unfold norm_pdf. do 2 f_equal. lra. Qed.

Lemma pdf_area_chasles a b c : pdf_area a b + pdf_area b c = pdf_area a c.
Proof. apply RiemannInt_P26. Qed.

(** On a symmetric interval the primitive of the density and its reflection
    [t => - P (- t)] are two antiderivatives of the density, so they differ
    by a constant. *)
Section Reflection.

Variable c : R.
Hypothesis c_nonneg : 0 <= c.

Lemma symmetric_interval : - c <= c.
Proof. lra. Qed.

Lemma continuous_on_interval :
  forall x : R, - c <= x <= c -> continuity_pt norm_pdf x.
Proof. intros; apply norm_pdf_continuous. Qed.

Local Abbreviation density_primitive :=
  (primitive symmetric_interval (FTC_P1 symmetric_interval continuous_on_interval)).

Lemma density_primitive_area t :
  - c <= t <= c -> density_primitive t = pdf_area (- c) t.
Proof.
  intros [H1 H2]. unfold primitive.
  destruct (Rle_dec (- c) t) as [?|?]; [|lra].
  destruct (Rle_dec t c) as [?|?]; [|lra].
  apply RiemannInt_P5.
Qed.

Lemma reflected_primitive :
  antiderivative norm_pdf (fun t => - density_primitive (- t)) (- c) c.
Proof.
  split; [|exact symmetric_interval]. intros t Ht.
  assert (Hd : derivable_pt_lim (fun t => - density_primitive (- t)) t (norm_pdf t)).
  { replace (norm_pdf t) with (- (norm_pdf (- t) * -1))
      by (rewrite norm_pdf_even; ring).
    apply (derivable_pt_lim_opp (fun t => density_primitive (- t))).
    apply (derivable_pt_lim_comp (fun t => - t) density_primitive).
    - apply (derivable_pt_lim_opp id), derivable_pt_lim_id.
    - apply RiemannInt_P28. lra. }
  exists (exist _ _ Hd). reflexivity.
Qed.

Lemma density_primitive_reflect t :
  - c <= t <= c ->
  density_primitive t + density_primitive (- t) = 2 * density_primitive 0.
Proof.
  intros Ht.
  destruct (antiderivative_Ucte _ _ _ _ _
              (RiemannInt_P29 symmetric_interval continuous_on_interval)
              reflected_primitive) as [k Hk].
  pose proof (Hk t Ht) as E1. pose proof (Hk 0 ltac:(lra)) as E0.
  simpl in E1, E0. rewrite Ropp_0 in E0. lra.
Qed.

End Reflection.

Lemma pdf_area_odd x : pdf_area 0 (- x) = - pdf_area 0 x.
Proof.
  set (c := Rabs x).
  assert (Hc : 0 <= c) by apply Rabs_pos.
  assert (Hx : - c <= x <= c).
  { unfold c. split; [|apply Rle_abs].
    pose proof (Rle_abs (- x)) as H. rewrite Rabs_Ropp in H. lra. }
  pose proof (density_primitive_reflect c Hc x Hx) as H.
  rewrite !density_primitive_area in H by lra.
  pose proof (pdf_area_chasles (- c) 0 x).
  pose proof (pdf_area_chasles (- c) 0 (- x)).
  lra.
Qed.

(** [norm.cdf(x) + norm.cdf(-x) = 1]. *)
Lemma norm_cdf_symmetry x : norm_cdf x + norm_cdf (- x) = 1.
Proof. unfold norm_cdf. rewrite pdf_area_odd. lra. Qed.

(** ** black_scholes.py *)
Section BlackScholes.
Import black_scholes.

Lemma degenerate_true vol time : vol <= 0 \/ time <= 0 -> degenerate vol time = true.
Proof.
  intros H. unfold degenerate. apply orb_true_iff.
  destruct H; [left|right]; apply bool_decide_eq_true; assumption.
Qed.

Lemma degenerate_false vol time : 0 < vol -> 0 < time -> degenerate vol time = false.
Proof.
  intros Hv Ht. unfold degenerate. apply orb_false_iff.
  split; apply bool_decide_eq_false; lra.
Qed.

(** Past the guard, [d1] is the finite Black-Scholes quantity. *)
Lemma d1_finite spot strike time rate div vol :
  0 < vol -> 0 < time ->
  d1 spot strike time rate div vol =
  Finite ((ln (spot / strike) + (rate - div + 0.5 * vol * vol) * time)
          / (vol * sqrt time)).
Proof. intros Hv Ht. unfold d1. rewrite degenerate_false by assumption. reflexivity. Qed.

(** C7. Put-call binary symmetry: for positive spot, strike, time and
    volatility and any rates, the binary call and the binary put at the same
    arguments add up to the discount factor [e^(-rT)]. *)
Theorem binary_call_put_symmetry (spot strike time rate div vol : R) :
  0 < spot -> 0 < strike -> 0 < time -> 0 < vol ->
  binary_call spot strike time rate div vol
  + binary_put spot strike time rate div vol
  = exp (- rate * time).
Proof.
  intros _ _ Ht Hv. unfold binary_call, binary_put.
  rewrite degenerate_false, d1_finite by assumption. simpl.
  rewrite <- Rmult_plus_distr_l, norm_cdf_symmetry. ring.
Qed.

Lemma binary_call_put_symmetry_witness :
  binary_call 1.10 1.1011 (1 / 365) 0.02 0.03 0.08
  + binary_put 1.10 1.1011 (1 / 365) 0.02 0.03 0.08
  = exp (- (0.02) * (1 / 365)).
Proof. apply binary_call_put_symmetry; lra. Defined.

(** C8. Degenerate case: whenever [vol <= 0] or [time <= 0], the binaries are
    the indicators of moneyness, the vanillas the intrinsic values, and the six
    Greeks are zero. *)
Theorem degenerate_limits (spot strike time rate div vol : R) :
  vol <= 0 \/ time <= 0 ->
  binary_call spot strike time rate div vol
    = (if bool_decide (spot > strike) then 1 else 0)
  /\ binary_put spot strike time rate div vol
    = (if bool_decide (spot < strike) then 1 else 0)
  /\ vanilla_call spot strike time rate div vol = Rmax 0 (spot - strike)
  /\ vanilla_put spot strike time rate div vol = Rmax 0 (strike - spot)
  /\ delta_binary_call spot strike time rate div vol = 0
  /\ delta_binary_put spot strike time rate div vol = 0
  /\ vega_binary_call spot strike time rate div vol = 0
  /\ vega_binary_put spot strike time rate div vol = 0
  /\ vega_vanilla_call spot strike time rate div vol = 0
  /\ vega_vanilla_put spot strike time rate div vol = 0.
Proof.
  intros H. apply degenerate_true in H.
  unfold delta_binary_put, vega_binary_put, vega_vanilla_put.
  unfold binary_call, binary_put, vanilla_call, vanilla_put,
    delta_binary_call, vega_binary_call, vega_vanilla_call.
  rewrite H. repeat split; try reflexivity; lra.
Qed.

Lemma degenerate_limits_witness :
  binary_call 2 1 0 0.02 0.03 0.08 = 1
  /\ binary_put 2 1 0 0.02 0.03 0.08 = 0
  /\ vanilla_call 2 1 0.5 0.02 0.03 0 = 1
  /\ vega_vanilla_put 2 1 0.5 0.02 0.03 0 = 0.
Proof.
  destruct (degenerate_limits 2 1 0 0.02 0.03 0.08 ltac:(right; lra))
    as (Hc & Hp & _).
  destruct (degenerate_limits 2 1 0.5 0.02 0.03 0 ltac:(left; lra))
    as (_ & _ & Hv & _ & _ & _ & _ & _ & _ & Hg).
  rewrite Hc, Hp, Hv, Hg.
  rewrite bool_decide_eq_true_2 by lra.
  rewrite bool_decide_eq_false_2 by lra.
  rewrite Rmax_right by lra.
  repeat split; lra.
Defined.

End BlackScholes.

(** ** risk_markup.py *)
Section RiskMarkup.
Import risk_markup.

Lemma append_empty_l (s : string) : "" +:+ s = s.
Proof. reflexivity. Qed.

Lemma append_String c (p s : string) : String c p +:+ s = String c (p +:+ s).
Proof. reflexivity. Qed.

Lemma append_assoc (p q s : string) : (p +:+ q) +:+ s = p +:+ (q +:+ s).
Proof.
  induction p as [|c p IH]; [reflexivity|]. rewrite !append_String. congruence.
Qed.

Lemma endswith_spec s suffix :
  endswith s suffix = true <-> exists prefix, s = prefix +:+ suffix.
Proof.
  induction s as [|c s IH]; simpl.
  - case_bool_decide as E.
    + split; [|reflexivity]. intros _. exists "". exact E.
    + split; [discriminate|]. intros [[|c p] Hp].
      * rewrite append_empty_l in Hp. congruence.
      * rewrite append_String in Hp. discriminate.
  - case_bool_decide as E.
    + split; [|reflexivity]. intros _. exists "". exact E.
    + rewrite IH. split.
      * intros [p Hp]. exists (String c p). rewrite append_String. congruence.
      * intros [[|c' p] Hp].
        -- rewrite append_empty_l in Hp. congruence.
        -- rewrite append_String in Hp. injection Hp as _ Hp. exists p. exact Hp.
Qed.

Lemma _apply_traded_market_markup_spec self :
  _apply_traded_market_markup self = true <-> traded_market_class (market_type self).
Proof.
  unfold _apply_traded_market_markup, traded_market_class, endswith_any. simpl.
  rewrite orb_true_iff, bool_decide_eq_true, !orb_true_iff, !endswith_spec.
  split; (intros [H|H]; [left; exact H|right]).
  - destruct H as [H|[[p H]|[[p H]|H]]]; [exact H| | |discriminate].
    + exists (p +:+ "forex"). rewrite H, append_assoc. reflexivity.
    + exists (p +:+ "commodity"). rewrite H, append_assoc. reflexivity.
  - left. exact H.
Qed.

(** The markup the traded-market branch adds to the running total. *)
Lemma traded_market_markups_total self delta vega markup dbg :
  fst (traded_market_markups self delta vega markup dbg)
  = markup + (hour_end_contribution + vol_spread_contribution self vega
              + spot_spread_contribution self delta
              + smile_uncertainty_contribution self + equal_tie_contribution).
Proof.
  unfold traded_market_markups, vol_spread_contribution, spot_spread_contribution,
    smile_uncertainty_contribution, _apply_smile_uncertainty_markup,
    _apply_equal_tie_markup, utils.is_intraday, hour_end_contribution,
    equal_tie_contribution, HourEndMarkup_calculate_markup,
    EqualTieMarkup_calculate_markup.
  rewrite andb_false_r. simpl negb.
  assert (Hsm : forall (P Q : Prop) `{Decision P, Decision Q} (b : bool),
             bool_decide P && bool_decide Q && negb b
             = bool_decide (P /\ Q /\ b = false)).
  { intros P Q ? ? b. destruct b; repeat case_bool_decide; simpl; try reflexivity;
      exfalso; intuition congruence. }
  rewrite Hsm. clear Hsm.
  destruct (hour_end_markup_parameters (params self)) as [he|];
    [destruct (truthy he)|];
    destruct (is_atm self); simpl;
    destruct (bool_decide (time_to_expiry self <= 1 / 365)); simpl;
    match goal with |- context [bool_decide ?P] => destruct (bool_decide P) end;
    simpl; lra.
Qed.

Lemma model_arbitrage_condition self :
  negb (for_sale self)
  && bool_decide (time_to_expiry self * 365 * 24 * 3600
                  <= constants.POTENTIAL_ARBITRAGE_DURATION)
  = bool_decide (model_arbitrage_applies self).
Proof.
  unfold model_arbitrage_applies, constants.POTENTIAL_ARBITRAGE_DURATION.
  destruct (for_sale self); repeat case_bool_decide; simpl; try reflexivity;
    exfalso; intuition (try congruence; try lra).
Qed.

(** The value [calculate_total_markup] returns, in closed form. *)
Lemma calculate_total_markup_value self delta vega :
  fst (calculate_total_markup self delta vega)
  = (traded_market_contribution self delta vega
     + model_arbitrage_contribution self) / 2.
Proof.
  unfold calculate_total_markup, model_arbitrage_contribution,
    traded_market_contribution, ModelArbitrageMarkup_calculate_markup.
  rewrite model_arbitrage_condition.
  destruct (_apply_traded_market_markup self).
  - pose proof (traded_market_markups_total self delta vega 0.0 (debug_info self)) as Ht.
    destruct (traded_market_markups self delta vega 0.0 (debug_info self)) as [m d].
    simpl in Ht. subst m.
    destruct (bool_decide (model_arbitrage_applies self)); simpl; lra.
  - destruct (bool_decide (model_arbitrage_applies self)); simpl; lra.
Qed.

(** C5. The traded-market contributions (hour-end, vol-spread, spot-spread,
    smile-uncertainty, equal-tie) enter the total only for the market classes
    forex, commodities, indices and those ending in "_basket"; for any other
    class none of them does; the model-arbitrage contribution enters whenever
    the contract is not for sale and its time to expiry is at most 18060
    seconds, whatever the class; and the markup returned is half the sum. *)
Theorem total_markup_rule_stack (self : RiskMarkup) (delta vega : R) :
  exists traded_part arbitrage_part : R,
    fst (calculate_total_markup self delta vega)
    = (traded_part + arbitrage_part) / 2
    /\ (traded_market_class (market_type self) ->
        traded_part = hour_end_contribution + vol_spread_contribution self vega
                      + spot_spread_contribution self delta
                      + smile_uncertainty_contribution self
                      + equal_tie_contribution)
    /\ (~ traded_market_class (market_type self) -> traded_part = 0)
    /\ (model_arbitrage_applies self -> arbitrage_part = 0.05)
    /\ (~ model_arbitrage_applies self -> arbitrage_part = 0).
Proof.
  pose proof (_apply_traded_market_markup_spec self) as Htr.
  exists (traded_market_contribution self delta vega),
    (model_arbitrage_contribution self).
  split; [apply calculate_total_markup_value|].
  unfold traded_market_contribution, model_arbitrage_contribution,
    ModelArbitrageMarkup_calculate_markup.
  repeat split.
  - intros H. apply Htr in H. rewrite H. reflexivity.
  - intros H. destruct (_apply_traded_market_markup self); [|reflexivity].
    exfalso. apply H, Htr. reflexivity.
  - intros H. rewrite bool_decide_eq_true_2 by exact H. reflexivity.
  - intros H. rewrite bool_decide_eq_false_2 by exact H. reflexivity.
Qed.

(** A crypto contract that is not for sale and expires within five hours
    carries the model-arbitrage markup alone. *)
Example crypto_short_not_for_sale :
  fst (calculate_total_markup
         (RiskMarkup_init false false (1 / 8760) "crypto" false None) 0.3 0.1)
  = 0.025.
Proof.
  rewrite calculate_total_markup_value.
  unfold traded_market_contribution, model_arbitrage_contribution.
  rewrite bool_decide_eq_true_2
    by (unfold model_arbitrage_applies; simpl; split; [reflexivity|lra]).
  replace (_apply_traded_market_markup _) with false by (vm_compute; reflexivity).
  lra.
Qed.

(** C9. Two markup calculators that agree on the ATM flag, the time to
    expiry, the market class, the for-sale flag and the parameters return the
    same markup for the same delta and vega, whatever their forward-starting
    flags are. *)
Theorem forward_starting_flag_is_ignored (a b : RiskMarkup) (delta vega : R) :
  is_atm a = is_atm b ->
  time_to_expiry a = time_to_expiry b ->
  market_type a = market_type b ->
  for_sale a = for_sale b ->
  params a = params b ->
  fst (calculate_total_markup a delta vega)
  = fst (calculate_total_markup b delta vega).
Proof.
  intros Hatm Ht Hm Hs Hp. rewrite !calculate_total_markup_value.
  unfold traded_market_contribution, model_arbitrage_contribution,
    model_arbitrage_applies, vol_spread_contribution, spot_spread_contribution,
    smile_uncertainty_contribution, _apply_traded_market_markup.
  rewrite Hatm, Ht, Hm, Hs, Hp. reflexivity.
Qed.

Lemma forward_starting_flag_is_ignored_witness :
  fst (calculate_total_markup
         (RiskMarkup_init false true (7 / 365) "forex" true None) 0.3 0.1)
  = fst (calculate_total_markup
           (RiskMarkup_init false false (7 / 365) "forex" true None) 0.3 0.1).
Proof. apply forward_starting_flag_is_ignored; reflexivity. Defined.

End RiskMarkup.

(** ** pricing_engine.py: construction *)
Section Construction.
Import constants pricing_engine.

Lemma in_ContractType_spec x : in_ContractType x = true <-> x ∈ contract_types.
Proof.
  unfold contract_types. split.
  - destruct x as [[]|]; [intros _; set_solver..|discriminate].
  - intros H. repeat (apply elem_of_cons in H as [->|H]); try reflexivity.
    inversion H.
Qed.

Lemma in_PricingCurrency_spec x :
  in_PricingCurrency x = true <-> x ∈ pricing_currencies.
Proof.
  unfold pricing_currencies. split.
  - destruct x as [|[]]; [discriminate|intros _; set_solver..].
  - intros H. repeat (apply elem_of_cons in H as [->|H]); try reflexivity.
    inversion H.
Qed.

Lemma _validate_parameters_raises p :
  raises (_validate_parameters p) <-> invalid_request p.
Proof.
  unfold _validate_parameters, invalid_request, raises.
  rewrite <- in_ContractType_spec, <- in_PricingCurrency_spec.
  destruct (in_ContractType (contract_type p)); simpl;
    [|split; [intros _; left; congruence|eauto]].
  destruct (in_PricingCurrency (priced_with p)); simpl;
    [|split; [intros _; right; left; congruence|eauto]].
  case_bool_decide as Hn; simpl;
    [|split; [intros _; right; right; left; exact Hn|eauto]].
  case_bool_decide as Hd; simpl;
    [split; [intros _; right; right; right; exact Hd|eauto]|].
  split; [intros [e He]; discriminate|].
  intros [H|[H|[H|H]]]; [congruence|congruence|contradiction|contradiction].
Qed.

Lemma _validate_parameters_error p e :
  _validate_parameters p = Raise e -> exists msg, e = ValueError msg.
Proof.
  unfold _validate_parameters.
  repeat match goal with
         | |- context [if ?b then _ else _] => destruct b
         end; intros H; inversion H; eauto.
Qed.

Lemma init_after_validation p :
  _validate_parameters p = Ok tt ->
  returns (EuropeanDigitalSlope_init p).
Proof.
  intros H. unfold EuropeanDigitalSlope_init. rewrite H. simpl. eexists; reflexivity.
Qed.

(** C6. Constructing the engine raises exactly when the contract type is not
    one of CALL, PUT, EXPIRYMISS, EXPIRYRANGE, or the pricing currency is not
    one of BASE, NUMERAIRE, QUANTO, or the number of strikes is not 1 or 2, or
    the expiry is not after the start.  The exception is the validation's own
    [ValueError], raised before anything is computed, and it reaches the
    caller unchanged. *)
Theorem construction_raises_iff_invalid (p : PricingParameters) :
  (raises (EuropeanDigitalSlope_init p) <-> invalid_request p)
  /\ (forall e, EuropeanDigitalSlope_init p = Raise e <->
                _validate_parameters p = Raise e)
  /\ (forall e, EuropeanDigitalSlope_init p = Raise e ->
                exists msg, e = ValueError msg).
Proof.
  assert (Hinit : forall e, EuropeanDigitalSlope_init p = Raise e <->
                            _validate_parameters p = Raise e).
  { intros e. unfold EuropeanDigitalSlope_init.
    destruct (_validate_parameters p) as [[]|e']; simpl.
    - split; discriminate.
    - split; intros H; injection H as ->; reflexivity. }
  split; [|split].
  - rewrite <- _validate_parameters_raises. unfold raises.
    split; intros [e He]; exists e; apply Hinit; exact He.
  - exact Hinit.
  - intros e He. apply Hinit in He. eapply _validate_parameters_error, He.
Qed.

(** A well-formed CALL request is accepted. *)
Example construction_accepts_sample :
  EuropeanDigitalSlope_init
    (sample_request (OfContractType CALL) [1] (OfPricingCurrency NUMERAIRE) 1)
  = Ok (engine_of (sample_request (OfContractType CALL) [1]
                     (OfPricingCurrency NUMERAIRE) 1)).
Proof. reflexivity. Qed.

(** A member of the other enumeration is no contract type. *)
Example construction_rejects_contract_type :
  EuropeanDigitalSlope_init
    (sample_request (OfPricingCurrency BASE) [1] (OfPricingCurrency NUMERAIRE) 1)
  = Raise (ValueError "Unsupported contract type: PricingCurrency.BASE").
Proof. reflexivity. Qed.

Example construction_rejects_three_strikes :
  EuropeanDigitalSlope_init
    (sample_request (OfContractType CALL) [1; 2; 3] (OfPricingCurrency NUMERAIRE) 1)
  = Raise (ValueError "Must provide either 1 or 2 strike prices").
Proof. reflexivity. Qed.

(** One day between start and expiry is 1/365 of a year. *)
Example one_day_to_expiry : utils.calculate_time_to_expiry 0 86400000000 = 1 / 365.
Proof.
  unfold utils.calculate_time_to_expiry, utils.total_seconds, utils.float_eps.
  assert (H : 1 <= 2 ^ 52) by (apply pow_R1_Rle; lra).
  assert (He : / 2 ^ 52 <= 1).
  { rewrite <- Rinv_1. apply Rinv_le_contravar; lra. }
  rewrite Z.sub_0_r.
  replace (86400000000 / 1000000 / (24 * 60 * 60)) with 1 by lra.
  rewrite Rmax_right by exact He. rewrite Rmin_right by lra. reflexivity.
Qed.

End Construction.

(** ** Python lists and dictionaries *)

Section SortedKeys.
Context {V : Type}.
Implicit Types (d : gmap Z V) (k : Z).

Lemma sorted_keys_Permutation d : sorted_keys d ≡ₚ (map_to_list d).*1.
Proof. apply merge_sort_Permutation. Qed.

Lemma elem_of_sorted_keys d k : k ∈ sorted_keys d <-> is_Some (d !! k).
Proof.
  rewrite sorted_keys_Permutation, list_elem_of_fmap. split.
  - intros [[k' v] [-> H]]. apply elem_of_map_to_list in H. eauto.
  - intros [v H]. exists (k, v). split; [reflexivity|]. apply elem_of_map_to_list, H.
Qed.

Lemma sorted_keys_NoDup d : NoDup (sorted_keys d).
Proof. rewrite sorted_keys_Permutation. apply NoDup_fst_map_to_list. Qed.

Lemma sorted_keys_sorted d : StronglySorted Z.le (sorted_keys d).
Proof. apply StronglySorted_merge_sort; apply _. Qed.

Lemma sorted_keys_nil d : sorted_keys d = [] <-> d = ∅.
Proof.
  rewrite <- map_to_list_empty_iff. split.
  - intros H. pose proof (sorted_keys_Permutation d) as P. rewrite H in P.
    apply Permutation_nil_l in P. destruct (map_to_list d); [reflexivity|discriminate].
  - intros H. pose proof (sorted_keys_Permutation d) as P. rewrite H in P.
    apply Permutation_nil_r in P. exact P.
Qed.

End SortedKeys.

(** Strictly increasing lists of integers. *)
Lemma sorted_NoDup_strict (l : list Z) :
  StronglySorted Z.le l -> NoDup l -> StronglySorted Z.lt l.
Proof.
  induction 1 as [|x l Hs IH Hall]; intros Hnd; constructor.
  - apply IH. apply NoDup_cons in Hnd as [_ Hnd]. exact Hnd.
  - apply NoDup_cons in Hnd as [Hx _].
    rewrite Forall_forall in Hall |- *. intros y Hy.
    specialize (Hall y Hy). assert (x <> y) by (intros ->; contradiction). lia.
Qed.

Lemma strict_sorted_lookup (l : list Z) i j x y :
  StronglySorted Z.lt l -> l !! i = Some x -> l !! j = Some y ->
  (i < j)%nat -> (x < y)%Z.
Proof.
  intros Hs. revert i j. induction Hs as [|a l Hs IH Hall]; intros i j Hi Hj Hij.
  - discriminate.
  - destruct j as [|j]; [lia|]. destruct i as [|i]; simpl in *.
    + injection Hi as <-. rewrite Forall_forall in Hall. apply Hall.
      eapply list_elem_of_lookup_2, Hj.
    + eapply IH; eauto. lia.
Qed.

Lemma strict_sorted_lookup_le (l : list Z) i j x y :
  StronglySorted Z.lt l -> l !! i = Some x -> l !! j = Some y ->
  (i <= j)%nat -> (x <= y)%Z.
Proof.
  intros Hs Hi Hj Hij. destruct (decide (i = j)) as [->|Hne].
  - rewrite Hi in Hj. injection Hj as ->. lia.
  - apply Z.lt_le_incl. eapply strict_sorted_lookup; eauto. lia.
Qed.

(** [min] and [max] of a list of integers. *)
Lemma foldl_min_spec (l : list Z) (x : Z) :
  let m := foldl (fun best y => if decide (y < best)%Z then y else best) x l in
  (m = x \/ m ∈ l) /\ (m <= x)%Z /\ forall y, y ∈ l -> (m <= y)%Z.
Proof.
  revert x. induction l as [|a l IH]; intros x; simpl.
  - split; [left; reflexivity|]. split; [lia|]. intros y Hy. inversion Hy.
  - destruct (IH (if decide (a < x)%Z then a else x)) as (Hin & Hle & Hall).
    case_decide.
    + split; [right; destruct Hin as [->|Hin]; [left|right; exact Hin]|].
      split; [lia|]. intros y Hy. apply elem_of_cons in Hy as [->|Hy]; [exact Hle|auto].
    + split; [destruct Hin as [->|Hin]; [left; reflexivity|right; right; exact Hin]|].
      split; [exact Hle|]. intros y Hy. apply elem_of_cons in Hy as [->|Hy]; [lia|auto].
Qed.

Lemma foldl_max_spec (l : list Z) (x : Z) :
  let m := foldl (fun best y => if decide (best < y)%Z then y else best) x l in
  (m = x \/ m ∈ l) /\ (x <= m)%Z /\ forall y, y ∈ l -> (y <= m)%Z.
Proof.
  revert x. induction l as [|a l IH]; intros x; simpl.
  - split; [left; reflexivity|]. split; [lia|]. intros y Hy. inversion Hy.
  - destruct (IH (if decide (x < a)%Z then a else x)) as (Hin & Hle & Hall).
    case_decide.
    + split; [right; destruct Hin as [->|Hin]; [left|right; exact Hin]|].
      split; [lia|]. intros y Hy. apply elem_of_cons in Hy as [->|Hy]; [exact Hle|auto].
    + split; [destruct Hin as [->|Hin]; [left; reflexivity|right; right; exact Hin]|].
      split; [exact Hle|]. intros y Hy. apply elem_of_cons in Hy as [->|Hy]; [lia|auto].
Qed.

Lemma py_min_spec (l : list Z) :
  l <> [] -> exists m, py_min l = Ok m /\ m ∈ l /\ forall y, y ∈ l -> (m <= y)%Z.
Proof.
  destruct l as [|x l]; [congruence|]. intros _. eexists. split; [reflexivity|].
  destruct (foldl_min_spec l x) as (Hin & Hle & Hall). split.
  - destruct Hin as [->|Hin]; [left|right; exact Hin].
  - intros y Hy. apply elem_of_cons in Hy as [->|Hy]; auto.
Qed.

Lemma py_max_spec (l : list Z) :
  l <> [] -> exists m, py_max l = Ok m /\ m ∈ l /\ forall y, y ∈ l -> (y <= m)%Z.
Proof.
  destruct l as [|x l]; [congruence|]. intros _. eexists. split; [reflexivity|].
  destruct (foldl_max_spec l x) as (Hin & Hle & Hall). split.
  - destruct Hin as [->|Hin]; [left|right; exact Hin].
  - intros y Hy. apply elem_of_cons in Hy as [->|Hy]; auto.
Qed.

(** [min(xs, key=...)]. *)
Lemma min_by_from_spec {A} (key : A -> R) (xs : list A) (best : A) :
  let r := min_by_from key best xs in
  (r = best \/ r ∈ xs) /\ key r <= key best /\ forall y, y ∈ xs -> key r <= key y.
Proof.
  revert best. induction xs as [|x xs IH]; intros best; simpl.
  - split; [left; reflexivity|]. split; [lra|]. intros y Hy. inversion Hy.
  - case_bool_decide as Hlt.
    + destruct (IH x) as (Hin & Hle & Hall).
      split; [right; destruct Hin as [->|Hin]; [left|right; exact Hin]|].
      split; [lra|]. intros y Hy. apply elem_of_cons in Hy as [->|Hy]; [exact Hle|auto].
    + destruct (IH best) as (Hin & Hle & Hall).
      split; [destruct Hin as [->|Hin]; [left; reflexivity|right; right; exact Hin]|].
      split; [exact Hle|]. intros y Hy. apply elem_of_cons in Hy as [->|Hy]; [lra|auto].
Qed.

Lemma py_min_by_spec {A} (key : A -> R) (xs : list A) :
  xs <> [] ->
  exists r, py_min_by key xs = Ok r /\ r ∈ xs /\ forall y, y ∈ xs -> key r <= key y.
Proof.
  destruct xs as [|x xs]; [congruence|]. intros _. eexists. split; [reflexivity|].
  destruct (min_by_from_spec key xs x) as (Hin & Hle & Hall). split.
  - destruct Hin as [->|Hin]; [left|right; exact Hin].
  - intros y Hy. apply elem_of_cons in Hy as [->|Hy]; auto.
Qed.

Lemma bind_Ok {A B} (a : A) (f : A -> result B) : Ok a ≫= f = f a.
Proof. reflexivity. Qed.

Lemma bind_Raise {A B} (e : PyError) (f : A -> result B) : Raise e ≫= f = Raise e.
Proof. reflexivity. Qed.

Lemma getitem_Some {V} (m : gmap Z V) k v : m !! k = Some v -> getitem m k = Ok v.
Proof. intros H. unfold getitem. rewrite H. reflexivity. Qed.

Lemma getitem_str_Some {V} (m : gmap string V) k v :
  m !! k = Some v -> getitem_str m k = Ok v.
Proof. intros H. unfold getitem_str. rewrite H. reflexivity. Qed.

Lemma list_item_Some {A} (l : list A) i x : l !! i = Some x -> list_item l i = Ok x.
Proof. intros H. unfold list_item. rewrite H. reflexivity. Qed.

(** The list comprehension over the keys of a dictionary. *)
Lemma comprehension_getitem {V} (m : gmap Z V) (ks : list Z) :
  (forall k, k ∈ ks -> is_Some (m !! k)) ->
  exists vs, comprehension (getitem m) ks = Ok vs
             /\ length vs = length ks
             /\ forall i k, ks !! i = Some k -> vs !! i = m !! k.
Proof.
  induction ks as [|k ks IH]; intros Hks; simpl.
  - exists []. repeat split. intros i k H. discriminate.
  - destruct (Hks k) as [v Hv]; [left|].
    destruct IH as (vs & Hvs & Hlen & Hlook); [intros; apply Hks; right; assumption|].
    exists (v :: vs). rewrite (getitem_Some _ _ _ Hv), bind_Ok, Hvs, bind_Ok.
    repeat split; [simpl; lia|].
    intros [|i] k' Hi; simpl in *; [congruence|auto].
Qed.

Lemma min_by_from_strict {A} (key : A -> R) (xs : list A) (best : A) :
  let r := min_by_from key best xs in
  r = best \/ (r ∈ xs /\ key r < key best).
Proof.
  revert best. induction xs as [|x xs IH]; intros best; simpl; [left; reflexivity|].
  case_bool_decide as Hlt.
  - right. destruct (IH x) as [->|[Hin Hk]]; (split; [|lra]); [left|right; exact Hin].
  - destruct (IH best) as [->|[Hin Hk]]; [left; reflexivity|right].
    split; [right; exact Hin|exact Hk].
Qed.

Lemma min_by_from_first (key : Z -> R) (xs : list Z) (best : Z) :
  StronglySorted Z.lt (best :: xs) ->
  let r := min_by_from key best xs in
  forall y, y ∈ best :: xs -> key y = key r -> (r <= y)%Z.
Proof.
  revert best. induction xs as [|x xs IH]; intros best Hs; simpl.
  - intros y Hy _. apply elem_of_cons in Hy as [->|Hy]; [lia|inversion Hy].
  - apply StronglySorted_inv in Hs as [Hs Hall].
    case_bool_decide as Hlt.
    + intros y Hy Hk. apply elem_of_cons in Hy as [->|Hy]; [|apply IH; assumption].
      exfalso. destruct (min_by_from_strict key xs x) as [E|[_ E]];
        simpl in E; [rewrite E in Hk|]; lra.
    + assert (Hs' : StronglySorted Z.lt (best :: xs)).
      { apply StronglySorted_inv in Hs as [Hs Hx]. constructor; [exact Hs|].
        apply Forall_cons in Hall as [_ Hall]. exact Hall. }
      intros y Hy Hk.
      apply elem_of_cons in Hy as [->|Hy]; [apply IH; [exact Hs'|left|exact Hk]|].
      apply elem_of_cons in Hy as [->|Hy]; [|apply IH; [exact Hs'|right; exact Hy|exact Hk]].
      destruct (min_by_from_strict key xs best) as [E|[Hin E]]; simpl in E.
      * rewrite E. apply Forall_cons in Hall as [Hb _]. lia.
      * exfalso. lra.
Qed.

(** ** utils.py: the surface query *)
Section SurfaceQuery.
Import utils.

(** The loop finds a bracket once the coordinate lies between the key at the
    first index still to visit and the last key. *)
Lemma interpolation_loop_finds (deltas : list Z) (vols : list R) (delta : R) :
  length vols = length deltas ->
  forall n s d_s d_last,
    (s + n = length deltas - 1)%nat ->
    deltas !! s = Some d_s -> IZR d_s <= delta ->
    deltas !! (length deltas - 1)%nat = Some d_last -> delta < IZR d_last ->
    exists i lo hi v_lo v_hi,
      deltas !! i = Some lo /\ deltas !! (i + 1)%nat = Some hi
      /\ vols !! i = Some v_lo /\ vols !! (i + 1)%nat = Some v_hi
      /\ IZR lo <= delta <= IZR hi
      /\ interpolation_loop deltas vols delta (seq s n)
         = Ok (Some (v_lo * (1 - (delta - IZR lo) / (IZR hi - IZR lo))
                     + v_hi * ((delta - IZR lo) / (IZR hi - IZR lo)))).
Proof.
  intros Hlen n. induction n as [|n IH]; intros s d_s d_last Hn Hs Hle Hlast Hlt.
  - replace (length deltas - 1)%nat with s in Hlast by lia.
    rewrite Hs in Hlast. injection Hlast as ->. lra.
  - assert (Hs1 : is_Some (deltas !! (s + 1)%nat)) by (apply lookup_lt_is_Some; lia).
    destruct Hs1 as [hi Hhi].
    simpl. rewrite (list_item_Some _ _ _ Hs), bind_Ok, (list_item_Some _ _ _ Hhi), bind_Ok.
    rewrite (bool_decide_eq_true_2 _ Hle). simpl.
    case_bool_decide as Hd.
    + assert (Hv : is_Some (vols !! s)) by (apply lookup_lt_is_Some; lia).
      assert (Hv1 : is_Some (vols !! (s + 1)%nat)) by (apply lookup_lt_is_Some; lia).
      destruct Hv as [v_lo Hv], Hv1 as [v_hi Hv1].
      exists s, d_s, hi, v_lo, v_hi.
      rewrite (list_item_Some _ _ _ Hv), bind_Ok, (list_item_Some _ _ _ Hv1), bind_Ok.
      repeat split; auto.
    + replace (S s) with (s + 1)%nat by lia.
      apply (IH (s + 1)%nat hi d_last); auto; [lia|lra].
Qed.

Lemma sorted_keys_strict {V} (d : gmap Z V) : StronglySorted Z.lt (sorted_keys d).
Proof. apply sorted_NoDup_strict; [apply sorted_keys_sorted|apply sorted_keys_NoDup]. Qed.

Lemma tenor_selection (surface : VolSurface) (days : R) :
  surface <> ∅ ->
  exists tenor,
    py_min_by (fun x => Rabs (IZR x - days)) (sorted_keys surface) = Ok tenor
    /\ nearest_tenor surface days tenor.
Proof.
  intros Hne.
  destruct (sorted_keys surface) as [|t0 ts] eqn:Hk;
    [apply sorted_keys_nil in Hk; contradiction|].
  pose proof (sorted_keys_strict surface) as Hs. rewrite Hk in Hs.
  exists (min_by_from (fun x => Rabs (IZR x - days)) t0 ts).
  split; [reflexivity|].
  destruct (min_by_from_spec (fun x => Rabs (IZR x - days)) ts t0) as (Hin & Hle & Hall).
  pose proof (min_by_from_first (fun x => Rabs (IZR x - days)) ts t0 Hs) as Hfirst.
  simpl in Hin, Hle, Hall, Hfirst.
  split.
  - apply elem_of_sorted_keys. rewrite Hk.
    destruct Hin as [->|Hin]; [left|right; exact Hin].
  - intros t Ht. apply elem_of_sorted_keys in Ht. rewrite Hk in Ht. split.
    + apply elem_of_cons in Ht as [->|Ht]; auto.
    + intros E. apply Hfirst; assumption.
Qed.

(** The branches of the smile lookup, from the sorted coordinates on. *)
Lemma smile_lookup (smile : gmap Z R) (delta : R) :
  smile <> ∅ ->
  exists vols lowest highest v,
    comprehension (getitem smile) (sorted_keys smile) = Ok vols
    /\ py_min (sorted_keys smile) = Ok lowest
    /\ py_max (sorted_keys smile) = Ok highest
    /\ (if bool_decide (delta <= IZR lowest) then list_item vols 0
        else if bool_decide (delta >= IZR highest)
             then list_item vols (length vols - 1)
             else found ← interpolation_loop (sorted_keys smile) vols delta
                            (seq 0 (length (sorted_keys smile) - 1));
                  match found with
                  | Some v => Ok v
                  | None => getitem smile 50
                  end) = Ok v
    /\ smile_volatility smile delta v.
Proof.
  intros Hne.
  pose proof (sorted_keys_strict smile) as Hs.
  assert (Hnil : sorted_keys smile <> []) by (rewrite sorted_keys_nil; exact Hne).
  destruct (comprehension_getitem smile (sorted_keys smile)) as (vols & Hvols & Hlen & Hlook);
    [intros k Hk; apply elem_of_sorted_keys, Hk|].
  destruct (py_min_spec _ Hnil) as (lowest & Hmin & Hmin_in & Hmin_le).
  destruct (py_max_spec _ Hnil) as (highest & Hmax & Hmax_in & Hmax_le).
  assert (Hleast : least_key smile lowest).
  { split; [apply elem_of_sorted_keys, Hmin_in|].
    intros k Hk. apply Hmin_le, elem_of_sorted_keys, Hk. }
  assert (Hgreatest : greatest_key smile highest).
  { split; [apply elem_of_sorted_keys, Hmax_in|].
    intros k Hk. apply Hmax_le, elem_of_sorted_keys, Hk. }
  (* the first and the last sorted key *)
  assert (Hlen_pos : (0 < length (sorted_keys smile))%nat).
  { destruct (sorted_keys smile); [congruence|simpl; lia]. }
  destruct (lookup_lt_is_Some_2 (sorted_keys smile) 0 Hlen_pos) as [k0 Hk0].
  destruct (lookup_lt_is_Some_2 (sorted_keys smile) (length (sorted_keys smile) - 1)
              ltac:(lia)) as [kn Hkn].
  assert (Ek0 : k0 = lowest).
  { apply list_elem_of_lookup in Hmin_in as [i Hi].
    pose proof (strict_sorted_lookup_le _ 0 i _ _ Hs Hk0 Hi ltac:(lia)).
    pose proof (Hmin_le k0 (list_elem_of_lookup_2 _ _ _ Hk0)). lia. }
  assert (Ekn : kn = highest).
  { apply list_elem_of_lookup in Hmax_in as [i Hi].
    pose proof (lookup_lt_Some _ _ _ Hi).
    pose proof (strict_sorted_lookup_le _ i (length (sorted_keys smile) - 1) _ _ Hs Hi Hkn
                  ltac:(lia)).
    pose proof (Hmax_le kn (list_elem_of_lookup_2 _ _ _ Hkn)). lia. }
  subst k0 kn.
  destruct Hleast as [[v_lowest Hv_lowest] Hleast'].
  destruct Hgreatest as [[v_highest Hv_highest] Hgreatest'].
  pose proof (Hlook _ _ Hk0) as Hvol0. rewrite Hv_lowest in Hvol0.
  pose proof (Hlook _ _ Hkn) as Hvoln. rewrite Hv_highest, <- Hlen in Hvoln.
  exists vols, lowest, highest.
  case_bool_decide as Hlow; [|case_bool_decide as Hhigh].
  - (* at or below the lowest coordinate *)
    exists v_lowest. rewrite (list_item_Some _ _ _ Hvol0).
    repeat split; [assumption..|]. exists lowest, highest.
    split; [split; eauto|]. split; [split; eauto|].
    split; [auto|]. split; [|lra].
    intros Hge. assert (highest = lowest) as ->; [|assumption].
    assert (lowest <= highest)%Z by (apply Hleast'; eauto).
    assert (IZR lowest <= IZR highest) by (apply IZR_le; assumption).
    apply eq_IZR. lra.
  - (* at or above the highest coordinate *)
    exists v_highest. rewrite (list_item_Some _ _ _ Hvoln).
    repeat split; [assumption..|]. exists lowest, highest.
    split; [split; eauto|]. split; [split; eauto|].
    split; [lra|]. split; [auto|lra].
  - (* strictly inside: the loop finds a bracket *)
    destruct (interpolation_loop_finds (sorted_keys smile) vols delta Hlen
                (length (sorted_keys smile) - 1) 0 lowest highest)
      as (i & lo & hi & v_lo & v_hi & Hlo & Hhi & Hvlo & Hvhi & Hbr & Hloop);
      [lia|assumption|lra|assumption|lra|].
    exists (v_lo * (1 - (delta - IZR lo) / (IZR hi - IZR lo))
            + v_hi * ((delta - IZR lo) / (IZR hi - IZR lo))).
    rewrite Hloop, bind_Ok.
    repeat split; [assumption..|]. exists lowest, highest.
    split; [split; eauto|]. split; [split; eauto|].
    split; [lra|]. split; [lra|]. intros _.
    rewrite (Hlook _ _ Hlo) in Hvlo. rewrite (Hlook _ _ Hhi) in Hvhi.
    exists lo, hi, v_lo, v_hi. repeat split; eauto; try lra.
    + eapply strict_sorted_lookup; eauto. lia.
    + intros k Hk. apply elem_of_sorted_keys, list_elem_of_lookup in Hk as [j Hj].
      destruct (le_lt_dec j i) as [Hji|Hji].
      * left. eapply strict_sorted_lookup_le; eauto.
      * right. eapply (strict_sorted_lookup_le _ (i + 1) j); eauto. lia.
Qed.

(** What [get_volatility_from_surface] returns on a well-formed surface. *)
Lemma get_volatility_from_surface_spec (surface : VolSurface)
    (spot strike time_to_expiry q_rate r_rate : R) :
  well_formed_surface surface ->
  exists tenor tables smile v,
    nearest_tenor surface (time_to_expiry * 365) tenor
    /\ surface !! tenor = Some tables
    /\ tables !! "smile" = Some smile
    /\ get_volatility_from_surface surface spot strike time_to_expiry q_rate r_rate = Ok v
    /\ smile_volatility smile
         (delta_coordinate spot strike time_to_expiry q_rate r_rate) v.
Proof.
  intros [Hne Hwf].
  destruct (tenor_selection surface (time_to_expiry * 365) Hne) as (tenor & Hpick & Hnear).
  destruct Hnear as [[tables Htables] Hnear].
  destruct (Hwf _ _ Htables) as (smile & Hsmile & Hsmile_ne).
  destruct (smile_lookup smile (delta_coordinate spot strike time_to_expiry q_rate r_rate)
              Hsmile_ne) as (vols & lowest & highest & v & Hvols & Hmin & Hmax & Hv & Hspec).
  exists tenor, tables, smile, v.
  split; [split; eauto|]. split; [assumption|]. split; [assumption|].
  split; [|assumption].
  unfold get_volatility_from_surface.
  rewrite Hpick, bind_Ok, (getitem_Some _ _ _ Htables), bind_Ok,
    (getitem_str_Some _ _ _ Hsmile), bind_Ok, Hvols, bind_Ok, Hmin, bind_Ok.
  unfold delta_coordinate in Hv. cbv zeta in Hv |- *.
  destruct (bool_decide (_ <= IZR lowest)); [exact Hv|].
  rewrite Hmax, bind_Ok. exact Hv.
Qed.

End SurfaceQuery.

Section Engine.
Import constants black_scholes utils underlying_config pricing_engine.

Lemma flat_smile_value k v : flat_smile !! k = Some v -> v = 0.08.
Proof.
  unfold flat_smile. simpl.
  repeat (rewrite lookup_insert_Some; intros [[_ <-]|[_ H]]; [reflexivity|revert H]).
  rewrite lookup_empty. discriminate.
Qed.

Lemma flat_surface_tables tenor tables :
  flat_surface !! tenor = Some tables -> tables = {[ "smile" := flat_smile ]}.
Proof.
  unfold flat_surface. intros H.
  apply lookup_insert_Some in H as [[_ <-]|[_ H]]; [reflexivity|].
  apply lookup_singleton_Some in H as [_ <-]. reflexivity.
Qed.

Lemma flat_surface_well_formed : well_formed_surface flat_surface.
Proof.
  split.
  - intros H. apply (f_equal (fun m => m !! 30%Z)) in H. discriminate.
  - intros tenor tables H. apply flat_surface_tables in H as ->.
    exists flat_smile. split; [reflexivity|].
    intros H. apply (f_equal (fun m => m !! 50%Z)) in H. discriminate.
Qed.

Lemma flat_surface_query spot strike time_to_expiry q_rate r_rate :
  get_volatility_from_surface flat_surface spot strike time_to_expiry q_rate r_rate
  = Ok 0.08.
Proof.
  destruct (get_volatility_from_surface_spec flat_surface spot strike time_to_expiry
              q_rate r_rate flat_surface_well_formed)
    as (tenor & tables & smile & v & _ & Htab & Hsm & -> & Hv).
  f_equal.
  assert (smile = flat_smile) as ->.
  { apply flat_surface_tables in Htab as ->.
    rewrite lookup_singleton_eq in Hsm. congruence. }
  destruct Hv as (lowest & highest & _ & _ & Hlow & Hhigh & Hmid).
  set (delta := delta_coordinate spot strike time_to_expiry q_rate r_rate) in *.
  destruct (Rle_dec delta (IZR lowest)) as [H1|H1];
    [eapply flat_smile_value; eauto|].
  destruct (Rge_dec delta (IZR highest)) as [H2|H2];
    [eapply flat_smile_value; eauto|].
  destruct Hmid as (lo & hi & v_lo & v_hi & (_ & _ & Hlt & _) & _ & Hlo & Hhi & ->);
    [lra|].
  apply flat_smile_value in Hlo, Hhi. subst. unfold linear_interpolation.
  apply IZR_lt in Hlt. field. lra.
Qed.

(** C4 (amended). For every surface that has a tenor and whose tenors each
    carry a non-empty smile, and positive spot and strike,
    [get_volatility_from_surface] picks the tenor nearest to
    time-to-expiry * 365 (the smallest of those equally near), maps the
    log-moneyness [m = ln (strike / (spot e^((r - q) T)))] to the coordinate
    [50 + m / (2 pi) * 100], and returns the volatility at the lowest point of
    the smile when the coordinate is at or below it, at the highest point when
    the coordinate is at or above it, and otherwise the linear interpolation
    between two neighbouring points that bracket the coordinate. *)
Theorem surface_query (surface : VolSurface)
    (spot strike time_to_expiry q_rate r_rate : R) :
  0 < spot -> 0 < strike -> well_formed_surface surface ->
  exists tenor tables smile v,
    nearest_tenor surface (time_to_expiry * 365) tenor
    /\ surface !! tenor = Some tables
    /\ tables !! "smile" = Some smile
    /\ get_volatility_from_surface surface spot strike time_to_expiry q_rate r_rate
       = Ok v
    /\ smile_volatility smile
         (delta_coordinate spot strike time_to_expiry q_rate r_rate) v.
Proof.
  intros _ _ Hwf. apply get_volatility_from_surface_spec. exact Hwf.
Qed.

Lemma surface_query_witness :
  exists tenor tables smile v,
    nearest_tenor flat_surface (7 / 365 * 365) tenor
    /\ flat_surface !! tenor = Some tables
    /\ tables !! "smile" = Some smile
    /\ get_volatility_from_surface flat_surface 1 1.1 (7 / 365) 0.03 0.02 = Ok v
    /\ smile_volatility smile (delta_coordinate 1 1.1 (7 / 365) 0.03 0.02) v.
Proof.
  apply (surface_query flat_surface 1 1.1 (7 / 365) 0.03 0.02);
    [lra|lra|apply flat_surface_well_formed].
Defined.

(** C4 as stated, for every surface, fails on the surface without tenors:
    [min] of the empty list of tenors raises. *)
Lemma surface_query_empty_surface :
  get_volatility_from_surface ∅ 1 1.1 (7 / 365) 0.03 0.02
  = Raise (ValueError "min() arg is an empty sequence").
Proof. reflexivity. Qed.

(** A tenor without a "smile" table raises [KeyError]. *)
Example surface_query_missing_smile :
  get_volatility_from_surface {[ 30%Z := ∅ ]} 1 1.1 (7 / 365) 0.03 0.02
  = Raise (KeyError (StrKey "smile")).
Proof. reflexivity. Qed.

(** A tenor with an empty smile raises [ValueError]. *)
Example surface_query_empty_smile :
  get_volatility_from_surface {[ 30%Z := {[ "smile" := ∅ ]} ]} 1 1.1 (7 / 365) 0.03 0.02
  = Raise (ValueError "min() arg is an empty sequence").
Proof. reflexivity. Qed.

(** At the money and with equal rates the coordinate is 50, half way between
    the two points of the skewed smile. *)
Example at_the_money_midpoint :
  get_volatility_from_surface skewed_surface 1 1 (30 / 365) 0.02 0.02 = Ok 0.15.
Proof.
  unfold get_volatility_from_surface.
  replace (sorted_keys skewed_surface) with [30%Z] by (vm_compute; reflexivity).
  cbn [py_min_by min_by_from]. rewrite bind_Ok.
  rewrite (getitem_Some skewed_surface 30 {[ "smile" := {[ 25%Z := 0.10; 75%Z := 0.20 ]} ]})
    by reflexivity.
  rewrite bind_Ok.
  rewrite (getitem_str_Some _ "smile" {[ 25%Z := 0.10; 75%Z := 0.20 ]}) by reflexivity.
  rewrite bind_Ok.
  replace (sorted_keys ({[ 25%Z := 0.10; 75%Z := 0.20 ]} : gmap Z R)) with [25%Z; 75%Z]
    by (vm_compute; reflexivity).
  assert (Hdelta : 50 + ln (1 / (1 * exp ((0.02 - 0.02) * (30 / 365)))) / (2 * PI) * 100 = 50).
  { replace ((0.02 - 0.02) * (30 / 365)) with 0 by lra.
    rewrite exp_0. replace (1 / (1 * 1)) with 1 by lra. rewrite ln_1. lra. }
  rewrite Hdelta.
  change (comprehension _ [25%Z; 75%Z]) with (Ok [0.10; 0.20] : result (list R)).
  rewrite bind_Ok.
  change (py_min [25%Z; 75%Z]) with (Ok 25%Z). rewrite bind_Ok.
  rewrite bool_decide_eq_false_2 by lra.
  change (py_max [25%Z; 75%Z]) with (Ok 75%Z). rewrite bind_Ok.
  rewrite bool_decide_eq_false_2 by lra.
  cbn [length seq Nat.sub interpolation_loop].
  change (list_item [25%Z; 75%Z] 0) with (Ok 25%Z).
  change (list_item [25%Z; 75%Z] (0 + 1)) with (Ok 75%Z).
  rewrite !bind_Ok.
  rewrite !bool_decide_eq_true_2 by lra. cbn [andb].
  change (list_item [0.10; 0.20] 0) with (Ok 0.10).
  change (list_item [0.10; 0.20] (0 + 1)) with (Ok 0.20).
  rewrite !bind_Ok. f_equal. lra.
Qed.

Lemma sorted_pair (a b : R) : merge_sort Rle [a; b] = [Rmin a b; Rmax a b].
Proof.
  unfold merge_sort. simpl. case_decide; rewrite list_merge_nil_r.
  - rewrite Rmin_left, Rmax_right by lra. reflexivity.
  - rewrite Rmin_right, Rmax_left by lra. reflexivity.
Qed.

Lemma price_binary_option_CALL spot strike time rate div vol :
  price_binary_option (OfContractType CALL) spot strike time rate div vol
  = Ok (binary_call spot strike time rate div vol).
Proof. reflexivity. Qed.

Lemma price_binary_option_PUT spot strike time rate div vol :
  price_binary_option (OfContractType PUT) spot strike time rate div vol
  = Ok (binary_put spot strike time rate div vol).
Proof. reflexivity. Qed.

Lemma price_binary_option_unsupported x spot strike time rate div vol :
  x <> OfContractType CALL -> x <> OfContractType PUT ->
  price_binary_option x spot strike time rate div vol
  = Raise (ValueError ("Unsupported contract type: " +:+ enum_str x)).
Proof.
  intros H1 H2. unfold price_binary_option.
  rewrite !decide_False by assumption. reflexivity.
Qed.

Lemma _calculate_expiry_miss_probability_value self low high v_low v_high :
  _get_volatility_for_strike self low = Ok v_low ->
  _get_volatility_for_strike self high = Ok v_high ->
  _calculate_expiry_miss_probability self low high
  = Ok (binary_put (spot (params self)) low (time_to_expiry self)
          (discount_rate (params self)) (mu (params self)) v_low
        + binary_call (spot (params self)) high (time_to_expiry self)
            (discount_rate (params self)) (mu (params self)) v_high).
Proof.
  intros Hl Hh. unfold _calculate_expiry_miss_probability.
  cbv zeta. rewrite Hl, bind_Ok, price_binary_option_PUT, bind_Ok,
    Hh, bind_Ok, price_binary_option_CALL, bind_Ok. reflexivity.
Qed.

(** C2. With exactly two strikes [a] and [b], [L = min a b] and
    [H = max a b], and the volatilities interpolated at [L] and at [H], at a
    positive spot and positive strikes the
    base probability of an EXPIRYMISS request is
    [binary_put(spot, L, T, discount_rate, mu, vol(L))
     + binary_call(spot, H, T, discount_rate, mu, vol(H))],
    and that of an EXPIRYRANGE request is
    [e^(-discount_rate T) * (1 - that EXPIRYMISS probability)]. *)
Theorem two_strike_base_probability (self : EuropeanDigitalSlope)
    (a b v_low v_high : R) :
  strikes (params self) = [a; b] ->
  0 < spot (params self) -> 0 < a -> 0 < b ->
  _get_volatility_for_strike self (Rmin a b) = Ok v_low ->
  _get_volatility_for_strike self (Rmax a b) = Ok v_high ->
  (contract_type (params self) = OfContractType EXPIRYMISS ->
   _calculate_base_probability self
   = Ok (binary_put (spot (params self)) (Rmin a b) (time_to_expiry self)
           (discount_rate (params self)) (mu (params self)) v_low
         + binary_call (spot (params self)) (Rmax a b) (time_to_expiry self)
             (discount_rate (params self)) (mu (params self)) v_high,
         self))
  /\ (contract_type (params self) = OfContractType EXPIRYRANGE ->
      _calculate_base_probability self
      = Ok (exp (- discount_rate (params self) * time_to_expiry self)
            * (1 - (binary_put (spot (params self)) (Rmin a b) (time_to_expiry self)
                      (discount_rate (params self)) (mu (params self)) v_low
                    + binary_call (spot (params self)) (Rmax a b)
                        (time_to_expiry self) (discount_rate (params self))
                        (mu (params self)) v_high)),
            self)).
Proof.
  intros Hs _ _ _ Hl Hh.
  pose proof (_calculate_expiry_miss_probability_value self _ _ _ _ Hl Hh) as Hmiss.
  unfold _calculate_base_probability, _calculate_two_barrier_probability,
    _calculate_expiry_range_probability.
  rewrite Hs, sorted_pair. simpl length. rewrite decide_True by reflexivity.
  split; intros Hct; rewrite Hct.
  - rewrite decide_True by reflexivity. rewrite Hmiss, bind_Ok. reflexivity.
  - rewrite decide_False by discriminate. cbv zeta.
    rewrite Hmiss, !bind_Ok. reflexivity.
Qed.

Lemma two_strike_base_probability_witness :
  _calculate_base_probability
    (engine_of (sample_request (OfContractType EXPIRYMISS) [1.1; 0.9]
                  (OfPricingCurrency NUMERAIRE) 7))
  = Ok (binary_put 1 (Rmin 1.1 0.9)
          (calculate_time_to_expiry 0 (7 * 86400000000)) 0.02 0.03 0.08
        + binary_call 1 (Rmax 1.1 0.9)
            (calculate_time_to_expiry 0 (7 * 86400000000)) 0.02 0.03 0.08,
        engine_of (sample_request (OfContractType EXPIRYMISS) [1.1; 0.9]
                     (OfPricingCurrency NUMERAIRE) 7)).
Proof.
  apply (two_strike_base_probability
           (engine_of (sample_request (OfContractType EXPIRYMISS) [1.1; 0.9]
                         (OfPricingCurrency NUMERAIRE) 7))
           1.1 0.9 0.08 0.08);
    [reflexivity|simpl; lra|lra|lra
    |apply flat_surface_query|apply flat_surface_query|reflexivity].
Defined.

Lemma query_returns_nonempty surface spot strike time_to_expiry q_rate r_rate v :
  get_volatility_from_surface surface spot strike time_to_expiry q_rate r_rate = Ok v ->
  surface <> ∅.
Proof.
  intros H ->. revert H. unfold get_volatility_from_surface.
  replace (sorted_keys (∅ : VolSurface)) with (@nil Z)
    by (symmetry; apply sorted_keys_nil; reflexivity).
  discriminate.
Qed.

Lemma _get_first_tenor_on_surface_spec self :
  vol_surface (params self) <> ∅ ->
  exists tenor, _get_first_tenor_on_surface self = Ok tenor
                /\ first_tenor (vol_surface (params self)) tenor.
Proof.
  intros Hne. unfold _get_first_tenor_on_surface.
  assert (Hiff : forall k, k ∈ (map_to_list (vol_surface (params self))).*1
                           <-> is_Some (vol_surface (params self) !! k)).
  { intros k. rewrite <- sorted_keys_Permutation. apply elem_of_sorted_keys. }
  destruct (py_min_spec (map_to_list (vol_surface (params self))).*1)
    as (m & Hm & Hin & Hle).
  { intros H. apply Hne, map_to_list_empty_iff.
    destruct (map_to_list (vol_surface (params self))); [reflexivity|discriminate]. }
  exists m. split; [exact Hm|]. split; [apply Hiff, Hin|].
  intros t Ht. apply Hle, Hiff, Ht.
Qed.

(** The pip size of every underlying is positive. *)
Lemma pip_size_positive symbol : 0 < pip_size (by_symbol symbol).
Proof. unfold by_symbol. destruct (startswith symbol "frx"); simpl; lra. Qed.

(** C3. NUMERAIRE pricing of a CALL or PUT with one strike, at a positive
    spot and a strike above the pip size (the strike and both neighbouring
    strikes are then positive): the probability
    the numeraire path returns is the binary price plus the slope adjustment
    [sign * vanilla_vega * slope], with [sign = -1] for CALL and [+1] for PUT
    and [slope = (vol_up - vol_down) / (2 pip)] from the surface queries at
    strike + pip and strike - pip; the adjustment is clamped into
    [-0.03, 0.03] exactly when the time to expiry is at most 1/365 and the
    first tenor of the surface exceeds 7 days; for a forward-starting request
    the adjustment is 0. *)
Theorem numeraire_slope_adjustment (self : EuropeanDigitalSlope)
    (ct : ContractType) (strike vol vol_down vol_up : R) :
  let p := params self in
  let pip := pip_size (by_symbol (underlying_symbol p)) in
  strikes p = [strike] ->
  0 < spot p -> pip < strike ->
  contract_type p = OfContractType ct ->
  ct = CALL \/ ct = PUT ->
  _get_volatility_for_strike self strike = Ok vol ->
  _get_volatility_for_strike self (strike - pip) = Ok vol_down ->
  _get_volatility_for_strike self (strike + pip) = Ok vol_up ->
  exists tenor,
    first_tenor (vol_surface p) tenor
    /\ exists self', _calculate_numeraire_probability self
       = Ok (binary_price ct (spot p) strike (time_to_expiry self)
               (discount_rate p) (mu p) vol
             + (if is_forward_starting (date_pricing p) (date_start p) then 0
                else if bool_decide (time_to_expiry self <= 1 / 365 /\ (tenor > 7)%Z)
                     then Rmax (-0.03)
                            (Rmin 0.03
                               (slope_adjustment_formula self ct strike vol vol_down vol_up))
                     else slope_adjustment_formula self ct strike vol vol_down vol_up),
             self').
Proof.
  intros p pip Hs _ _ Hct Hcp Hv Hd Hu.
  destruct (_get_first_tenor_on_surface_spec self) as (tenor & Hft & Hfirst).
  { eapply query_returns_nonempty, Hv. }
  assert (Hprice :
            price_binary_option (contract_type p) (spot p) strike (time_to_expiry self)
              (discount_rate p) (mu p) vol
            = Ok (binary_price ct (spot p) strike (time_to_expiry self)
                    (discount_rate p) (mu p) vol)).
  { rewrite Hct. destruct Hcp as [-> | ->]; reflexivity. }
  exists tenor. split; [exact Hfirst|].
  unfold _calculate_numeraire_probability, _calculate, _get_atm_volatility.
  fold p. cbv zeta. unfold _get_volatility_for_strike in Hv, Hd, Hu. fold p in Hv, Hd, Hu.
  rewrite Hs. change (list_item [strike] 0) with (Ok strike).
  rewrite !bind_Ok, Hv, !bind_Ok, Hprice, bind_Ok.
  destruct (is_forward_starting (date_pricing p) (date_start p)); simpl negb; cbv iota.
  - rewrite bind_Ok. eexists. do 2 f_equal. lra.
  - rewrite ?bind_Ok. unfold _get_underlying_config. fold p. fold pip.
    rewrite Hd, bind_Ok, Hu, bind_Ok.
    assert (Hvega : (if decide (contract_type p = OfContractType CALL)
                     then vega_vanilla_call (spot p) strike (time_to_expiry self)
                            (discount_rate p) (mu p) vol
                     else vega_vanilla_put (spot p) strike (time_to_expiry self)
                            (discount_rate p) (mu p) vol)
                    = vega_vanilla_call (spot p) strike (time_to_expiry self)
                        (discount_rate p) (mu p) vol).
    { destruct (decide _); reflexivity. }
    assert (Hsign : (if decide (contract_type p = OfContractType CALL) then -1 else 1)
                    = match ct with CALL => -1 | _ => 1 end).
    { rewrite Hct. destruct Hcp as [-> | ->]; reflexivity. }
    rewrite Hvega, Hsign.
    change (match ct with CALL => -1 | _ => 1 end
            * vega_vanilla_call (spot p) strike (time_to_expiry self)
                (discount_rate p) (mu p) vol
            * ((vol_up - vol_down) / (2 * pip)))
      with (slope_adjustment_formula self ct strike vol vol_down vol_up).
    case_bool_decide as Hshort.
    + rewrite Hft, bind_Ok. case_bool_decide as Htenor.
      * rewrite bool_decide_eq_true_2 by (split; assumption). rewrite bind_Ok.
        eexists. reflexivity.
      * rewrite bool_decide_eq_false_2 by (intros [_ ?]; contradiction).
        rewrite bind_Ok. eexists. reflexivity.
    + rewrite bool_decide_eq_false_2 by (intros [? _]; contradiction).
      rewrite bind_Ok. eexists. reflexivity.
Qed.

(** What a constructed engine holds. *)
Lemma numeraire_slope_adjustment_witness :
  exists tenor,
    first_tenor flat_surface tenor
    /\ exists self',
         _calculate_numeraire_probability
           (engine_of (sample_request (OfContractType CALL) [1]
                         (OfPricingCurrency NUMERAIRE) 1))
         = Ok (binary_price CALL 1 1
                 (calculate_time_to_expiry 0 (1 * 86400000000)) 0.02 0.03 0.08
               + (if is_forward_starting 0 0 then 0
                  else if bool_decide
                            (calculate_time_to_expiry 0 (1 * 86400000000) <= 1 / 365
                             /\ (tenor > 7)%Z)
                       then Rmax (-0.03)
                              (Rmin 0.03
                                 (slope_adjustment_formula
                                    (engine_of (sample_request (OfContractType CALL) [1]
                                                  (OfPricingCurrency NUMERAIRE) 1))
                                    CALL 1 0.08 0.08 0.08))
                       else slope_adjustment_formula
                              (engine_of (sample_request (OfContractType CALL) [1]
                                            (OfPricingCurrency NUMERAIRE) 1))
                              CALL 1 0.08 0.08 0.08),
               self').
Proof.
  apply (numeraire_slope_adjustment
           (engine_of (sample_request (OfContractType CALL) [1]
                         (OfPricingCurrency NUMERAIRE) 1))
           CALL 1 0.08 0.08 0.08);
    [reflexivity|simpl; lra|simpl; lra|reflexivity|left; reflexivity
    |apply flat_surface_query|apply flat_surface_query|apply flat_surface_query].
Defined.

Lemma init_Ok p self :
  EuropeanDigitalSlope_init p = Ok self ->
  _validate_parameters p = Ok tt
  /\ params self = p
  /\ time_to_expiry self = calculate_time_to_expiry (date_start p) (date_expiry p)
  /\ risk_markup self
     = risk_markup.RiskMarkup_init (is_atm p)
         (is_forward_starting (date_pricing p) (date_start p))
         (calculate_time_to_expiry (date_start p) (date_expiry p))
         (market_type p) (for_sale p) (markup_parameters p)
  /\ debug_info self = ∅.
Proof.
  unfold EuropeanDigitalSlope_init.
  destruct (_validate_parameters p) as [[]|e]; [|discriminate].
  rewrite bind_Ok. intros H. injection H as <-. repeat split.
Qed.

Lemma validated_strike_count p :
  _validate_parameters p = Ok tt ->
  length (strikes p) = 1%nat \/ length (strikes p) = 2%nat.
Proof.
  unfold _validate_parameters.
  destruct (negb (in_ContractType _)); [discriminate|].
  destruct (negb (in_PricingCurrency _)); [discriminate|].
  case_bool_decide as Hn; simpl; [|discriminate]. intros _.
  apply elem_of_cons in Hn as [Hn|Hn]; [left; exact Hn|].
  apply elem_of_cons in Hn as [Hn|Hn]; [right; exact Hn|inversion Hn].
Qed.

Lemma price_binary_option_returns x spot strike time rate div vol :
  x = OfContractType CALL \/ x = OfContractType PUT ->
  returns (price_binary_option x spot strike time rate div vol).
Proof. intros [-> | ->]; eexists; reflexivity. Qed.

Ltac answer H K :=
  let v := fresh "v" in let Hv := fresh "Hv" in
  destruct (H K) as [v Hv]; unfold _get_volatility_for_strike in Hv;
  rewrite Hv, ?bind_Ok.

Lemma two_barrier_returns self :
  length (strikes (params self)) = 2%nat -> surface_answers self ->
  returns (_calculate_two_barrier_probability self).
Proof.
  intros Hlen Hans. unfold _calculate_two_barrier_probability.
  destruct (strikes (params self)) as [|a [|b [|c l]]] eqn:Hs; try discriminate.
  rewrite sorted_pair.
  assert (Hmiss : returns (_calculate_expiry_miss_probability self (Rmin a b) (Rmax a b))).
  { unfold _calculate_expiry_miss_probability. cbv zeta.
    unfold _get_volatility_for_strike.
    answer Hans (Rmin a b). rewrite price_binary_option_PUT, bind_Ok.
    answer Hans (Rmax a b). rewrite price_binary_option_CALL, bind_Ok.
    eexists; reflexivity. }
  destruct (decide _); [exact Hmiss|].
  unfold _calculate_expiry_range_probability. cbv zeta.
  destruct Hmiss as [m ->]. rewrite bind_Ok. eexists; reflexivity.
Qed.

Lemma single_strike_returns self strike :
  strikes (params self) = [strike] ->
  contract_type (params self) = OfContractType CALL
  \/ contract_type (params self) = OfContractType PUT ->
  surface_answers self ->
  exists base self1,
    _calculate_base_probability self = Ok (base, self1) /\ same_inputs self1 self.
Proof.
  intros Hs Hct Hans. unfold _calculate_base_probability.
  rewrite Hs. simpl length. rewrite decide_False by discriminate.
  destruct (decide _) as [Hnum|Hnum]; [|destruct (decide _) as [Hq|Hq]].
  - (* NUMERAIRE *)
    unfold _calculate_numeraire_probability, _calculate, _get_atm_volatility.
    cbv zeta. rewrite Hs. change (list_item [strike] 0) with (Ok strike).
    rewrite !bind_Ok.
    destruct (Hans strike) as [vol Hvol]. unfold _get_volatility_for_strike in Hvol.
    rewrite Hvol, !bind_Ok.
    destruct (price_binary_option_returns _ (spot (params self)) strike
                (time_to_expiry self) (discount_rate (params self))
                (mu (params self)) vol Hct) as [price ->].
    rewrite bind_Ok.
    destruct (_get_first_tenor_on_surface_spec self) as (tenor & Hft & _).
    { eapply query_returns_nonempty, Hvol. }
    destruct (negb _); [|rewrite bind_Ok; do 2 eexists; split;
                          [reflexivity|repeat split]].
    answer Hans (strike - pip_size (_get_underlying_config self)).
    answer Hans (strike + pip_size (_get_underlying_config self)).
    rewrite Hft.
    destruct (bool_decide (time_to_expiry self <= _)); rewrite ?bind_Ok;
      [destruct (bool_decide (tenor > 7)%Z)|]; rewrite ?bind_Ok;
      do 2 eexists; (split; [reflexivity|repeat split]).
  - (* QUANTO *)
    unfold _calculate_quanto_probability. cbv zeta. rewrite Hs.
    change (list_item [strike] 0) with (Ok strike). rewrite bind_Ok.
    answer Hans strike.
    destruct (price_binary_option_returns _ (spot (params self)) strike
                (time_to_expiry self) (discount_rate (params self))
                (r_rate (params self) - q_rate (params self)) v Hct) as [price ->].
    rewrite bind_Ok. do 2 eexists. split; [reflexivity|repeat split].
  - (* BASE *)
    unfold _calculate_base_probability_with_vanilla. cbv zeta. rewrite Hs.
    change (list_item [strike] 0) with (Ok strike). rewrite bind_Ok.
    answer Hans strike.
    destruct (price_binary_option_returns _ (spot (params self)) strike
                (time_to_expiry self) (r_rate (params self))
                (r_rate (params self) - q_rate (params self)) v Hct) as [price ->].
    rewrite !bind_Ok. do 2 eexists. split; [reflexivity|repeat split].
Qed.

Lemma greeks_return self :
  (0 < length (strikes (params self)))%nat -> surface_answers self ->
  returns (_calculate_delta self) /\ returns (_calculate_vega self).
Proof.
  intros Hlen Hans.
  destruct (strikes (params self)) as [|strike rest] eqn:Hs; [simpl in Hlen; lia|].
  unfold _calculate_delta, _calculate_vega. cbv zeta. rewrite Hs.
  change (list_item (strike :: rest) 0) with (Ok strike). rewrite !bind_Ok.
  destruct (Hans strike) as [vol ->]. rewrite !bind_Ok.
  destruct (decide _); split; eexists; reflexivity.
Qed.

Lemma same_inputs_answers a b :
  same_inputs a b -> surface_answers b -> surface_answers a.
Proof.
  intros (Hp & Ht & _) Hans strike. unfold _get_volatility_for_strike.
  rewrite Hp, Ht. apply Hans.
Qed.

Lemma clamp_unit_interval x : 0 <= Rmax 0.0 (Rmin 1.0 x) <= 1.
Proof.
  split.
  - apply Rle_trans with 0.0; [lra|apply Rmax_l].
  - apply Rmax_lub; [lra|]. apply Rle_trans with 1.0; [apply Rmin_l|lra].
Qed.

(** C1 (amended). For every request that passes validation, has a positive
    spot and strikes above the pip size of its underlying (every strike the
    engine prices or queries is then positive), has two strikes or is a CALL
    or a PUT, and whose surface is well formed,
    [calculate_probability] returns [max(0, min(1, base + markup))], where
    [base] is the base probability and [markup] the total markup at the
    contract's delta and vega; the value lies in [0, 1]. *)
Theorem probability_is_clamped_sum (p : PricingParameters)
    (self : EuropeanDigitalSlope) :
  EuropeanDigitalSlope_init p = Ok self ->
  0 < spot p ->
  Forall (fun strike => pip_size (by_symbol (underlying_symbol p)) < strike)
    (strikes p) ->
  length (strikes p) = 2%nat
  \/ contract_type p = OfContractType CALL
  \/ contract_type p = OfContractType PUT ->
  well_formed_surface (vol_surface p) ->
  exists base self1 delta vega self2,
    _calculate_base_probability self = Ok (base, self1)
    /\ _calculate_delta self1 = Ok delta
    /\ _calculate_vega self1 = Ok vega
    /\ calculate_probability self
       = Ok (Rmax 0.0 (Rmin 1.0
               (base + fst (risk_markup.calculate_total_markup
                              (risk_markup self1) delta vega))),
             self2)
    /\ 0 <= Rmax 0.0 (Rmin 1.0
               (base + fst (risk_markup.calculate_total_markup
                              (risk_markup self1) delta vega))) <= 1.
Proof.
  intros Hinit _ _ Hkind Hwf.
  destruct (init_Ok _ _ Hinit) as (Hvalid & Hp & _).
  assert (Hans : surface_answers self).
  { intros strike. unfold _get_volatility_for_strike. rewrite Hp.
    destruct (get_volatility_from_surface_spec (vol_surface p) (spot p) strike
                (time_to_expiry self) (q_rate p) (r_rate p) Hwf)
      as (tenor & tables & smile & v & _ & _ & _ & Hv & _).
    exists v. exact Hv. }
  pose proof (validated_strike_count _ Hvalid) as Hcount. rewrite <- Hp in Hcount, Hkind.
  assert (Hbase : exists base self1,
             _calculate_base_probability self = Ok (base, self1)
             /\ same_inputs self1 self).
  { destruct (decide (length (strikes (params self)) = 2%nat)) as [H2|H2].
    - destruct (two_barrier_returns self H2 Hans) as [base Hb].
      exists base, self. unfold _calculate_base_probability.
      rewrite decide_True by exact H2. rewrite Hb, bind_Ok.
      split; [reflexivity|repeat split].
    - destruct Hcount as [H1|?]; [|contradiction].
      destruct Hkind as [?|Hct]; [contradiction|].
      destruct (strikes (params self)) as [|strike [|? ?]] eqn:Hs; try discriminate.
      eapply single_strike_returns; eauto. }
  destruct Hbase as (base & self1 & Hb & Hsame).
  pose proof (same_inputs_answers _ _ Hsame Hans) as Hans1.
  assert (Hlen : (0 < length (strikes (params self1)))%nat).
  { destruct Hsame as (-> & _). destruct Hcount as [-> | ->]; lia. }
  destruct (greeks_return self1 Hlen Hans1) as [[delta Hd] [vega Hv]].
  exists base, self1, delta, vega.
  unfold calculate_probability. rewrite Hb, bind_Ok. cbv beta iota.
  rewrite Hd, bind_Ok, Hv, bind_Ok.
  destruct (risk_markup.calculate_total_markup (risk_markup self1) delta vega)
    as [markup rm] eqn:Hm.
  eexists. repeat split; try reflexivity; apply clamp_unit_interval.
Qed.

Lemma init_engine_of p :
  _validate_parameters p = Ok tt -> EuropeanDigitalSlope_init p = Ok (engine_of p).
Proof.
  intros H. unfold EuropeanDigitalSlope_init. rewrite H, bind_Ok. reflexivity.
Qed.

Lemma probability_is_clamped_sum_witness :
  exists base self1 delta vega self2,
    _calculate_base_probability
      (engine_of (sample_request (OfContractType CALL) [1]
                    (OfPricingCurrency NUMERAIRE) 1))
    = Ok (base, self1)
    /\ _calculate_delta self1 = Ok delta
    /\ _calculate_vega self1 = Ok vega
    /\ calculate_probability
         (engine_of (sample_request (OfContractType CALL) [1]
                       (OfPricingCurrency NUMERAIRE) 1))
       = Ok (Rmax 0.0 (Rmin 1.0
               (base + fst (risk_markup.calculate_total_markup
                              (risk_markup self1) delta vega))),
             self2)
    /\ 0 <= Rmax 0.0 (Rmin 1.0
               (base + fst (risk_markup.calculate_total_markup
                              (risk_markup self1) delta vega))) <= 1.
Proof.
  apply (probability_is_clamped_sum
           (sample_request (OfContractType CALL) [1] (OfPricingCurrency NUMERAIRE) 1)).
  - apply init_engine_of. reflexivity.
  - simpl. lra.
  - repeat constructor. simpl. lra.
  - right. left. reflexivity.
  - apply flat_surface_well_formed.
Defined.

(** With one strike and a contract type other than CALL and PUT, every
    pricing path queries the surface at the strike and then fails in
    [price_binary_option]. *)
Lemma single_strike_unsupported self strike :
  strikes (params self) = [strike] ->
  contract_type (params self) <> OfContractType CALL ->
  contract_type (params self) <> OfContractType PUT ->
  calculate_probability self
  = vol ← _get_volatility_for_strike self strike;
    Raise (ValueError ("Unsupported contract type: "
                       +:+ enum_str (contract_type (params self)))).
Proof.
  intros Hs Hne1 Hne2.
  unfold calculate_probability, _calculate_base_probability.
  rewrite Hs. simpl length. rewrite decide_False by discriminate.
  unfold _calculate_numeraire_probability, _calculate,
    _calculate_quanto_probability, _calculate_base_probability_with_vanilla,
    _get_volatility_for_strike.
  cbv zeta. rewrite Hs. change (list_item [strike] 0) with (Ok strike).
  rewrite !bind_Ok.
  destruct (get_volatility_from_surface (vol_surface (params self))
              (spot (params self)) strike (time_to_expiry self)
              (q_rate (params self)) (r_rate (params self))) as [vol|e];
    destruct (decide (priced_with (params self) = OfPricingCurrency NUMERAIRE));
    try destruct (decide (priced_with (params self) = OfPricingCurrency QUANTO));
    rewrite ?bind_Ok, ?bind_Raise;
    rewrite ?price_binary_option_unsupported by assumption;
    rewrite ?bind_Raise; reflexivity.
Qed.

(** C1 as stated, for every request that passes validation, fails on an
    EXPIRYMISS request with a single strike: it is accepted at construction
    and [calculate_probability] raises. *)
Lemma valid_request_without_probability :
  EuropeanDigitalSlope_init
    (sample_request (OfContractType EXPIRYMISS) [1] (OfPricingCurrency NUMERAIRE) 1)
  = Ok (engine_of (sample_request (OfContractType EXPIRYMISS) [1]
                     (OfPricingCurrency NUMERAIRE) 1))
  /\ calculate_probability
       (engine_of (sample_request (OfContractType EXPIRYMISS) [1]
                     (OfPricingCurrency NUMERAIRE) 1))
     = Raise (ValueError "Unsupported contract type: ContractType.EXPIRYMISS").
Proof.
  split; [apply init_engine_of; reflexivity|].
  rewrite (single_strike_unsupported _ 1) by (reflexivity || discriminate).
  unfold _get_volatility_for_strike. rewrite flat_surface_query. reflexivity.
Qed.

(** C10 (amended). For every request with contract type EXPIRYMISS or
    EXPIRYRANGE, exactly one strike, any of the three pricing currencies and
    an expiry after its start, construction succeeds and
    [calculate_probability] raises without returning a probability; whenever
    the volatility query at the strike returns, the exception is the
    [ValueError] "Unsupported contract type" of [price_binary_option]. *)
Theorem single_strike_range_contract_raises (p : PricingParameters) (strike : R) :
  contract_type p = OfContractType EXPIRYMISS
  \/ contract_type p = OfContractType EXPIRYRANGE ->
  strikes p = [strike] ->
  priced_with p ∈ pricing_currencies ->
  (date_start p < date_expiry p)%Z ->
  exists self,
    EuropeanDigitalSlope_init p = Ok self
    /\ raises (calculate_probability self)
    /\ (returns (_get_volatility_for_strike self strike) ->
        calculate_probability self
        = Raise (ValueError ("Unsupported contract type: "
                             +:+ enum_str (contract_type p)))).
Proof.
  intros Hct Hs Hcur Hdates.
  assert (Hvalid : _validate_parameters p = Ok tt).
  { unfold _validate_parameters.
    replace (in_ContractType (contract_type p)) with true
      by (destruct Hct as [-> | ->]; reflexivity).
    apply in_PricingCurrency_spec in Hcur. rewrite Hcur, Hs. simpl.
    rewrite bool_decide_eq_false_2 by lia. reflexivity. }
  exists (engine_of p). split; [apply init_engine_of, Hvalid|].
  rewrite (single_strike_unsupported (engine_of p) strike);
    [|exact Hs|simpl; destruct Hct as [H|H]; rewrite H; discriminate..].
  split.
  - destruct (_get_volatility_for_strike (engine_of p) strike); eexists; reflexivity.
  - intros [vol ->]. reflexivity.
Qed.

Lemma single_strike_range_contract_raises_witness :
  exists self,
    EuropeanDigitalSlope_init
      (sample_request (OfContractType EXPIRYRANGE) [1] (OfPricingCurrency QUANTO) 1)
    = Ok self
    /\ raises (calculate_probability self)
    /\ (returns (_get_volatility_for_strike self 1) ->
        calculate_probability self
        = Raise (ValueError ("Unsupported contract type: "
                             +:+ enum_str (OfContractType EXPIRYRANGE)))).
Proof.
  apply (single_strike_range_contract_raises
           (sample_request (OfContractType EXPIRYRANGE) [1] (OfPricingCurrency QUANTO) 1)
           1).
  - right. reflexivity.
  - reflexivity.
  - apply in_PricingCurrency_spec. reflexivity.
  - reflexivity.
Defined.

(** C10 as stated, for every such request, fails when the expiry is not
    after the start: construction raises.  It also fails to name the
    exception when the surface has no tenor: the query raises first. *)
Lemma single_strike_range_contract_counterexample :
  (contract_type (sample_request (OfContractType EXPIRYMISS) [1]
                    (OfPricingCurrency NUMERAIRE) 0)
   = OfContractType EXPIRYMISS
   /\ strikes (sample_request (OfContractType EXPIRYMISS) [1]
                 (OfPricingCurrency NUMERAIRE) 0) = [1]
   /\ priced_with (sample_request (OfContractType EXPIRYMISS) [1]
                     (OfPricingCurrency NUMERAIRE) 0)
      = OfPricingCurrency NUMERAIRE)
  /\ EuropeanDigitalSlope_init
       (sample_request (OfContractType EXPIRYMISS) [1] (OfPricingCurrency NUMERAIRE) 0)
     = Raise (ValueError "Expiry date must be after start date").
Proof. repeat split. Qed.

End Engine.

(** * Further properties of the code *)

(** ** The normal distribution: positivity and monotonicity *)
Lemma norm_pdf_pos x : 0 < norm_pdf x.
Proof.
  unfold norm_pdf. apply Rdiv_lt_0_compat; [apply exp_pos|].
  apply sqrt_lt_R0. pose proof PI_RGT_0. lra.
Qed.

Lemma pdf_area_nonneg a b : a <= b -> 0 <= pdf_area a b.
Proof.
  intros Hab. unfold pdf_area.
  rewrite <- (Rmult_0_l (b - a)), <- (RiemannInt_P15 (RiemannInt_P14 a b 0)).
  apply RiemannInt_P19; [exact Hab|].
  intros x _. unfold fct_cte. left. apply norm_pdf_pos.
Qed.

Lemma norm_cdf_monotone x y : x <= y -> norm_cdf x <= norm_cdf y.
Proof.
  intros Hxy. unfold norm_cdf.
  pose proof (pdf_area_chasles 0 x y). pose proof (pdf_area_nonneg x y Hxy). lra.
Qed.

(** ** black_scholes.py: parity, limits, monotonicity and signs *)
Section BlackScholesFurther.
Import black_scholes.

(** X1. Put-call parity: for a positive spot, strike, time and volatility,
    [vanilla_call - vanilla_put = spot e^(-div time) - strike e^(-rate time)]. *)
Theorem vanilla_put_call_parity (spot strike time rate div vol : R) :
  0 < spot -> 0 < strike -> 0 < time -> 0 < vol ->
  vanilla_call spot strike time rate div vol
  - vanilla_put spot strike time rate div vol
  = spot * exp (- div * time) - strike * exp (- rate * time).
Proof.
  intros _ _ Ht Hv. unfold vanilla_call, vanilla_put.
  rewrite degenerate_false, d1_finite by assumption.
  set (x := (ln (spot / strike) + (rate - div + 0.5 * vol * vol) * time)
            / (vol * sqrt time)).
  simpl.
  assert (E1 : norm_cdf (- x) = 1 - norm_cdf x)
    by (pose proof (norm_cdf_symmetry x); lra).
  assert (E2 : norm_cdf (- (x - vol * sqrt time)) = 1 - norm_cdf (x - vol * sqrt time))
    by (pose proof (norm_cdf_symmetry (x - vol * sqrt time)); lra).
  rewrite E1, E2. ring.
Qed.

Lemma vanilla_put_call_parity_witness :
  vanilla_call 100 105 0.5 0.02 0.01 0.2 - vanilla_put 100 105 0.5 0.02 0.01 0.2
  = 100 * exp (- (0.01) * 0.5) - 105 * exp (- (0.02) * 0.5).
Proof. apply (vanilla_put_call_parity 100 105 0.5 0.02 0.01 0.2); lra. Defined.

(** X2. With [vol <= 0] or [time <= 0]: at [spot = strike] the binary call
    and the binary put are both 0, so that they do not sum to 1; at any
    other spot they sum to 1; and the vanilla call minus the vanilla put is
    [spot - strike]. *)
Theorem degenerate_binaries_sum (spot strike time rate div vol : R) :
  vol <= 0 \/ time <= 0 ->
  (spot = strike ->
   binary_call spot strike time rate div vol = 0
   /\ binary_put spot strike time rate div vol = 0)
  /\ (spot <> strike ->
      binary_call spot strike time rate div vol
      + binary_put spot strike time rate div vol = 1)
  /\ vanilla_call spot strike time rate div vol - vanilla_put spot strike time rate div vol
     = spot - strike.
Proof.
  intros H. unfold binary_call, binary_put, vanilla_call, vanilla_put.
  rewrite (degenerate_true _ _ H). split; [|split].
  - intros ->. rewrite !bool_decide_eq_false_2 by lra. split; reflexivity.
  - intros Hne. repeat case_bool_decide; lra.
  - unfold Rmax. repeat destruct (Rle_dec _ _); lra.
Qed.

Lemma degenerate_binaries_sum_witness :
  (100 = 105 ->
   binary_call 100 105 0.5 0.02 0.01 0 = 0 /\ binary_put 100 105 0.5 0.02 0.01 0 = 0)
  /\ (100 <> 105 ->
      binary_call 100 105 0.5 0.02 0.01 0 + binary_put 100 105 0.5 0.02 0.01 0 = 1)
  /\ vanilla_call 100 105 0.5 0.02 0.01 0 - vanilla_put 100 105 0.5 0.02 0.01 0
     = 100 - 105.
Proof. apply (degenerate_binaries_sum 100 105 0.5 0.02 0.01 0). left. lra. Defined.

Lemma d2_monotone_in_spot s1 s2 strike time rate div vol :
  0 < s1 -> s1 <= s2 -> 0 < strike -> 0 < time -> 0 < vol ->
  (ln (s1 / strike) + (rate - div + 0.5 * vol * vol) * time) / (vol * sqrt time)
  - vol * sqrt time
  <= (ln (s2 / strike) + (rate - div + 0.5 * vol * vol) * time) / (vol * sqrt time)
     - vol * sqrt time.
Proof.
  intros H1 H12 Hk Ht Hv.
  assert (Hden : 0 < vol * sqrt time)
    by (apply Rmult_lt_0_compat; [assumption|apply sqrt_lt_R0; assumption]).
  assert (Hln : ln (s1 / strike) <= ln (s2 / strike)).
  { destruct H12 as [Hlt| ->]; [|lra]. left. apply ln_increasing.
    - apply Rdiv_lt_0_compat; assumption.
    - unfold Rdiv. apply Rmult_lt_compat_r; [apply Rinv_0_lt_compat; assumption|exact Hlt]. }
  apply Rplus_le_compat_r. unfold Rdiv.
  apply Rmult_le_compat_r; [left; apply Rinv_0_lt_compat; exact Hden|lra].
Qed.

(** X3. For a positive strike, time and volatility, the binary call does
    not decrease and the binary put does not increase when the (positive)
    spot rises. *)
Theorem binary_prices_monotone_in_spot (s1 s2 strike time rate div vol : R) :
  0 < s1 -> s1 <= s2 -> 0 < strike -> 0 < time -> 0 < vol ->
  binary_call s1 strike time rate div vol <= binary_call s2 strike time rate div vol
  /\ binary_put s2 strike time rate div vol <= binary_put s1 strike time rate div vol.
Proof.
  intros H1 H12 Hk Ht Hv.
  pose proof (d2_monotone_in_spot s1 s2 strike time rate div vol H1 H12 Hk Ht Hv) as Hd.
  unfold binary_call, binary_put.
  rewrite degenerate_false, !d1_finite by assumption. simpl.
  pose proof (exp_pos (- rate * time)).
  split; apply Rmult_le_compat_l; try lra; apply norm_cdf_monotone; lra.
Qed.

Lemma binary_prices_monotone_in_spot_witness :
  binary_call 100 105 0.5 0.02 0.01 0.2 <= binary_call 110 105 0.5 0.02 0.01 0.2
  /\ binary_put 110 105 0.5 0.02 0.01 0.2 <= binary_put 100 105 0.5 0.02 0.01 0.2.
Proof. apply (binary_prices_monotone_in_spot 100 110 105 0.5 0.02 0.01 0.2); lra. Defined.

(** X4. For a positive spot, strike, time and volatility, the delta of the binary
    call is positive and that of the binary put negative; the vanilla vega
    is positive, and the same for a put as for a call. *)
Theorem greeks_signs (spot strike time rate div vol : R) :
  0 < spot -> 0 < strike -> 0 < time -> 0 < vol ->
  0 < delta_binary_call spot strike time rate div vol
  /\ delta_binary_put spot strike time rate div vol < 0
  /\ 0 < vega_vanilla_call spot strike time rate div vol
  /\ vega_vanilla_put spot strike time rate div vol
     = vega_vanilla_call spot strike time rate div vol.
Proof.
  intros Hs _ Ht Hv.
  unfold delta_binary_put, vega_vanilla_put, delta_binary_call, vega_vanilla_call.
  rewrite degenerate_false, !d1_finite by assumption. simpl.
  pose proof (exp_pos (- rate * time)). pose proof (exp_pos (- div * time)).
  pose proof (sqrt_lt_R0 time Ht).
  assert (0 < exp (- rate * time)
              * norm_pdf ((ln (spot / strike) + (rate - div + 0.5 * vol * vol) * time)
                          / (vol * sqrt time) - vol * sqrt time)
              / (spot * vol * sqrt time)).
  { apply Rdiv_lt_0_compat; [apply Rmult_lt_0_compat; [assumption|apply norm_pdf_pos]|].
    repeat apply Rmult_lt_0_compat; assumption. }
  repeat split; try lra.
  apply Rmult_lt_0_compat; [|apply norm_pdf_pos].
  repeat apply Rmult_lt_0_compat; assumption.
Qed.

Lemma greeks_signs_witness :
  0 < delta_binary_call 100 105 0.5 0.02 0.01 0.2
  /\ delta_binary_put 100 105 0.5 0.02 0.01 0.2 < 0
  /\ 0 < vega_vanilla_call 100 105 0.5 0.02 0.01 0.2
  /\ vega_vanilla_put 100 105 0.5 0.02 0.01 0.2
     = vega_vanilla_call 100 105 0.5 0.02 0.01 0.2.
Proof. apply (greeks_signs 100 105 0.5 0.02 0.01 0.2); lra. Defined.

End BlackScholesFurther.

(** ** utils.py: the time to expiry *)
Section TimeToExpiry.
Import utils.

Lemma float_eps_value : float_eps = / 4503599627370496.
Proof. unfold float_eps. f_equal. simpl. lra. Qed.

Lemma float_eps_bounds : 0 < float_eps <= / 86400000000.
Proof.
  rewrite float_eps_value. split.
  - apply Rinv_0_lt_compat. lra.
  - apply Rinv_le_contravar; lra.
Qed.

(** The time to expiry is clamped on both sides. *)
Lemma calculate_time_to_expiry_range (start_date expiry_date : Z) :
  0 < float_eps / 365 <= calculate_time_to_expiry start_date expiry_date
  /\ calculate_time_to_expiry start_date expiry_date <= 2.
Proof.
  pose proof float_eps_bounds as [Hpos _].
  unfold calculate_time_to_expiry. cbv zeta.
  set (days := total_seconds (expiry_date - start_date) / (24 * 60 * 60)).
  assert (H1 : float_eps <= Rmin 730 (Rmax float_eps days)).
  { apply Rmin_glb; [|apply Rmax_l]. pose proof float_eps_bounds. 
    assert (/ 86400000000 <= 1) by (rewrite <- Rinv_1; apply Rinv_le_contravar; lra). lra. }
  assert (H2 : Rmin 730 (Rmax float_eps days) <= 730) by apply Rmin_l.
  repeat split; lra.
Qed.

(** With the start before the expiry, the lower clamp is not reached. *)
Lemma calculate_time_to_expiry_value (start_date expiry_date : Z) :
  (start_date < expiry_date)%Z ->
  calculate_time_to_expiry start_date expiry_date
  = Rmin 730 (IZR (expiry_date - start_date) / 86400000000) / 365
  /\ (is_intraday (calculate_time_to_expiry start_date expiry_date) = true
      <-> (expiry_date - start_date <= 86400000000)%Z).
Proof.
  intros Hlt.
  assert (Hone : 1 <= IZR (expiry_date - start_date)) by (apply IZR_le; lia).
  pose proof float_eps_bounds as [Hpos Hle].
  assert (E : calculate_time_to_expiry start_date expiry_date
              = Rmin 730 (IZR (expiry_date - start_date) / 86400000000) / 365).
  { unfold calculate_time_to_expiry, total_seconds. cbv zeta.
    replace (IZR (expiry_date - start_date) / 1000000 / (24 * 60 * 60))
      with (IZR (expiry_date - start_date) / 86400000000) by (field; lra).
    rewrite Rmax_right; [reflexivity|].
    unfold Rdiv. 
    apply Rle_trans with (1 * / 86400000000); [lra|].
    apply Rmult_le_compat_r; [|exact Hone].
    left. apply Rinv_0_lt_compat. lra. }
  split; [exact E|].
  rewrite E. unfold is_intraday. rewrite bool_decide_eq_true.
  split.
  - intros H. apply le_IZR.
    unfold Rmin in H. destruct (Rle_dec _ _) as [H730|H730]; lra.
  - intros H. apply IZR_le in H.
    assert (Rmin 730 (IZR (expiry_date - start_date) / 86400000000)
            <= IZR (expiry_date - start_date) / 86400000000) by apply Rmin_r.
    lra.
Qed.

(** X5. Whatever the two dates, also with the expiry before the start,
    [calculate_time_to_expiry] is at least [eps / 365], which is positive,
    and at most 2 (years). *)
Theorem time_to_expiry_bounds (start_date expiry_date : Z) :
  0 < float_eps / 365 <= calculate_time_to_expiry start_date expiry_date
  /\ calculate_time_to_expiry start_date expiry_date <= 2.
Proof. exact (calculate_time_to_expiry_range start_date expiry_date). Qed.

(** X6. With the start before the expiry (dates in microseconds),
    [calculate_time_to_expiry] is the number of days between them, capped at
    730, over 365; and [is_intraday] holds of it exactly when the two dates
    are at most one day apart. *)
Theorem time_to_expiry_of_valid_dates (start_date expiry_date : Z) :
  (start_date < expiry_date)%Z ->
  calculate_time_to_expiry start_date expiry_date
  = Rmin 730 (IZR (expiry_date - start_date) / 86400000000) / 365
  /\ (is_intraday (calculate_time_to_expiry start_date expiry_date) = true
      <-> (expiry_date - start_date <= 86400000000)%Z).
Proof. exact (calculate_time_to_expiry_value start_date expiry_date). Qed.

Lemma time_to_expiry_of_valid_dates_witness :
  calculate_time_to_expiry 0 3600000000
  = Rmin 730 (IZR (3600000000 - 0) / 86400000000) / 365
  /\ (is_intraday (calculate_time_to_expiry 0 3600000000) = true
      <-> (3600000000 - 0 <= 86400000000)%Z).
Proof. apply (time_to_expiry_of_valid_dates 0 3600000000). lia. Defined.

End TimeToExpiry.

(** ** utils.py: errors, bounds and invariances of the surface query *)
Section SurfaceQueryFurther.
Import utils.

Lemma nearest_tenor_unique surface days t1 t2 :
  nearest_tenor surface days t1 -> nearest_tenor surface days t2 -> t1 = t2.
Proof.
  intros [H1 N1] [H2 N2].
  destruct (N1 t2 H2) as [L1 T1]. destruct (N2 t1 H1) as [L2 T2].
  assert (E : Rabs (IZR t1 - days) = Rabs (IZR t2 - days)) by lra.
  specialize (T1 (eq_sym E)). specialize (T2 E). lia.
Qed.

(** The query reads the surface through the smile of the nearest tenor only. *)
Lemma get_volatility_from_surface_at_tenor (surface : VolSurface)
    (spot strike time_to_expiry q_rate r_rate : R) tenor tables :
  nearest_tenor surface (time_to_expiry * 365) tenor ->
  surface !! tenor = Some tables ->
  (tables !! "smile" = None ->
   get_volatility_from_surface surface spot strike time_to_expiry q_rate r_rate
   = Raise (KeyError (StrKey "smile")))
  /\ (tables !! "smile" = Some ∅ ->
      get_volatility_from_surface surface spot strike time_to_expiry q_rate r_rate
      = Raise (ValueError "min() arg is an empty sequence"))
  /\ (forall smile, tables !! "smile" = Some smile -> smile <> ∅ ->
      exists v,
        get_volatility_from_surface surface spot strike time_to_expiry q_rate r_rate
        = Ok v
        /\ smile_volatility smile
             (delta_coordinate spot strike time_to_expiry q_rate r_rate) v).
Proof.
  intros Hnear Htables.
  assert (Hne : surface <> ∅).
  { intros ->. rewrite lookup_empty in Htables. discriminate. }
  destruct (tenor_selection surface (time_to_expiry * 365) Hne) as (t & Hpick & Hnear').
  assert (t = tenor) as -> by (eapply nearest_tenor_unique; eauto).
  unfold get_volatility_from_surface.
  rewrite Hpick, bind_Ok, (getitem_Some _ _ _ Htables), bind_Ok.
  split; [|split].
  - intros Hs. unfold getitem_str. rewrite Hs. reflexivity.
  - intros Hs. rewrite (getitem_str_Some _ _ _ Hs), bind_Ok.
    replace (sorted_keys (∅ : gmap Z R)) with (@nil Z)
      by (symmetry; apply sorted_keys_nil; reflexivity).
    reflexivity.
  - intros smile Hs Hsne. rewrite (getitem_str_Some _ _ _ Hs), bind_Ok.
    destruct (smile_lookup smile (delta_coordinate spot strike time_to_expiry q_rate r_rate)
                Hsne) as (vols & lowest & highest & v & Hvols & Hmin & Hmax & Hv & Hspec).
    exists v. split; [|exact Hspec].
    rewrite Hvols, bind_Ok, Hmin, bind_Ok.
    unfold delta_coordinate in Hv. cbv zeta in Hv |- *.
    destruct (bool_decide (_ <= IZR lowest)); [exact Hv|].
    rewrite Hmax, bind_Ok. exact Hv.
Qed.

(** X7. The errors of [get_volatility_from_surface]: on the empty surface
    it raises the [ValueError] of [min]; when the nearest tenor has no smile
    it raises [KeyError("smile")]; when that smile is empty it raises the
    [ValueError] of [min]; when that smile has a point it returns for a
    positive spot and strike, whatever the other tenors hold. *)
Theorem surface_query_errors (surface : VolSurface)
    (spot strike time_to_expiry q_rate r_rate : R) :
  (surface = ∅ ->
   get_volatility_from_surface surface spot strike time_to_expiry q_rate r_rate
   = Raise (ValueError "min() arg is an empty sequence"))
  /\ (forall tenor tables,
        nearest_tenor surface (time_to_expiry * 365) tenor ->
        surface !! tenor = Some tables ->
        (tables !! "smile" = None ->
         get_volatility_from_surface surface spot strike time_to_expiry q_rate r_rate
         = Raise (KeyError (StrKey "smile")))
        /\ (tables !! "smile" = Some ∅ ->
            get_volatility_from_surface surface spot strike time_to_expiry q_rate r_rate
            = Raise (ValueError "min() arg is an empty sequence"))
        /\ (forall smile, tables !! "smile" = Some smile -> smile <> ∅ ->
            0 < spot -> 0 < strike ->
            returns (get_volatility_from_surface surface spot strike time_to_expiry
                       q_rate r_rate))).
Proof.
  split.
  - intros ->. unfold get_volatility_from_surface.
    replace (sorted_keys (∅ : VolSurface)) with (@nil Z)
      by (symmetry; apply sorted_keys_nil; reflexivity).
    reflexivity.
  - intros tenor tables Hnear Htables.
    destruct (get_volatility_from_surface_at_tenor surface spot strike time_to_expiry
                q_rate r_rate tenor tables Hnear Htables) as (H1 & H2 & H3).
    split; [exact H1|]. split; [exact H2|].
    intros smile Hs Hne _ _.
    destruct (H3 smile Hs Hne) as (v & Hv & _). exists v. exact Hv.
Qed.

Lemma smile_volatility_envelope smile delta v a b :
  (forall k x, smile !! k = Some x -> a <= x <= b) ->
  smile_volatility smile delta v -> a <= v <= b.
Proof.
  intros Henv (lowest & highest & _ & _ & Hlow & Hhigh & Hmid).
  destruct (Rle_dec delta (IZR lowest)) as [H1|H1]; [eapply Henv; eauto|].
  destruct (Rge_dec delta (IZR highest)) as [H2|H2]; [eapply Henv; eauto|].
  destruct Hmid as (lo & hi & v_lo & v_hi & (_ & _ & Hlt & _) & [Hl Hh] & Hlo & Hhi & ->);
    [lra|].
  apply Henv in Hlo, Hhi. apply IZR_lt in Hlt.
  unfold linear_interpolation. cbv zeta.
  set (w := (delta - IZR lo) / (IZR hi - IZR lo)).
  assert (Hw : 0 <= w <= 1).
  { unfold w. split.
    - apply Rmult_le_pos; [lra|]. left. apply Rinv_0_lt_compat. lra.
    - apply Rmult_le_reg_r with (IZR hi - IZR lo); [lra|].
      unfold Rdiv. rewrite Rmult_assoc, Rinv_l by lra. lra. }
  split; nra.
Qed.

(** X8. On a well-formed surface all of whose smile volatilities lie in
    [[a, b]], for a positive spot and strike, [get_volatility_from_surface]
    returns a volatility in [[a, b]]: the interpolation does not leave the
    range of the smile. *)
Theorem surface_query_within_smile (surface : VolSurface)
    (spot strike time_to_expiry q_rate r_rate a b : R) :
  0 < spot -> 0 < strike ->
  well_formed_surface surface ->
  (forall tenor tables smile k x,
     surface !! tenor = Some tables -> tables !! "smile" = Some smile ->
     smile !! k = Some x -> a <= x <= b) ->
  exists v,
    get_volatility_from_surface surface spot strike time_to_expiry q_rate r_rate = Ok v
    /\ a <= v <= b.
Proof.
  intros _ _ Hwf Henv.
  destruct (get_volatility_from_surface_spec surface spot strike time_to_expiry
              q_rate r_rate Hwf) as (tenor & tables & smile & v & _ & Ht & Hs & Hv & Hsv).
  exists v. split; [exact Hv|].
  eapply smile_volatility_envelope; [|exact Hsv].
  intros k x Hk. eapply Henv; eauto.
Qed.

Lemma surface_query_within_smile_witness :
  exists v,
    get_volatility_from_surface flat_surface 1 1.1 (30 / 365) 0.03 0.02 = Ok v
    /\ 0.08 <= v <= 0.08.
Proof.
  apply (surface_query_within_smile flat_surface 1 1.1 (30 / 365) 0.03 0.02 0.08 0.08).
  - lra.
  - lra.
  - apply flat_surface_well_formed.
  - intros tenor tables smile k x Ht Hs Hk.
    rewrite (flat_surface_tables _ _ Ht) in Hs. injection Hs as <-.
    rewrite (flat_smile_value _ _ Hk). lra.
Defined.

Lemma smile_volatility_at_key smile k x v :
  smile !! k = Some x -> smile_volatility smile (IZR k) v -> v = x.
Proof.
  intros Hk (lowest & highest & [_ Hleast] & [_ Hgreatest] & Hlow & Hhigh & Hmid).
  assert (Hk' : is_Some (smile !! k)) by eauto.
  pose proof (Hleast k Hk') as L. pose proof (Hgreatest k Hk') as G.
  destruct (decide (k = lowest)) as [->|Hnl].
  { specialize (Hlow ltac:(lra)). congruence. }
  destruct (decide (k = highest)) as [->|Hnh].
  { specialize (Hhigh ltac:(lra)). congruence. }
  destruct Hmid as (lo & hi & v_lo & v_hi & (_ & _ & Hlt & Hadj) & [Hl Hh] & Hlo & Hhi & ->).
  { split; apply IZR_lt; lia. }
  apply le_IZR in Hl, Hh. apply IZR_lt in Hlt.
  unfold linear_interpolation. cbv zeta.
  destruct (Hadj k Hk') as [H|H].
  - assert (k = lo) as -> by lia. rewrite Hk in Hlo. injection Hlo as <-.
    field. lra.
  - assert (k = hi) as -> by lia. rewrite Hk in Hhi. injection Hhi as <-.
    field. lra.
Qed.

(** At the money, with equal rates, the delta coordinate is 50. *)
Lemma delta_coordinate_at_the_money t r : delta_coordinate 1 1 t r r = 50.
Proof.
  unfold delta_coordinate. cbv zeta.
  replace ((r - r) * t) with 0 by ring. rewrite exp_0.
  replace (1 / (1 * 1)) with 1 by lra. rewrite ln_1.
  unfold Rdiv. ring.
Qed.

(** X9. For a positive spot and strike, when the delta coordinate of the
    strike is a key of the smile of the nearest tenor,
    [get_volatility_from_surface] returns the volatility stored at that
    key. *)
Theorem surface_query_at_smile_point (surface : VolSurface)
    (spot strike time_to_expiry q_rate r_rate : R) tenor tables smile k x :
  0 < spot -> 0 < strike ->
  nearest_tenor surface (time_to_expiry * 365) tenor ->
  surface !! tenor = Some tables ->
  tables !! "smile" = Some smile ->
  smile !! k = Some x ->
  delta_coordinate spot strike time_to_expiry q_rate r_rate = IZR k ->
  get_volatility_from_surface surface spot strike time_to_expiry q_rate r_rate = Ok x.
Proof.
  intros _ _ Hnear Ht Hs Hk Hd.
  destruct (get_volatility_from_surface_at_tenor surface spot strike time_to_expiry
              q_rate r_rate tenor tables Hnear Ht) as (_ & _ & H3).
  destruct (H3 smile Hs) as (v & Hv & Hsv).
  { intros ->. rewrite lookup_empty in Hk. discriminate. }
  rewrite Hd in Hsv. rewrite Hv. f_equal. eapply smile_volatility_at_key; eauto.
Qed.

Lemma surface_query_at_smile_point_witness :
  get_volatility_from_surface flat_surface 1 1 (30 / 365) 0.02 0.02 = Ok 0.08.
Proof.
  apply (surface_query_at_smile_point flat_surface 1 1 (30 / 365) 0.02 0.02
           30%Z {[ "smile" := flat_smile ]} flat_smile 50%Z 0.08).
  - lra.
  - lra.
  - split; [eexists; reflexivity|].
    intros t [x Ht]. replace (30 / 365 * 365) with 30 by lra.
    unfold flat_surface in Ht.
    apply lookup_insert_Some in Ht as [[<- _]|[_ Ht]]; [split; [lra|lia]|].
    apply lookup_singleton_Some in Ht as [<- _].
    replace (30 - 30) with 0 by lra. replace (90 - 30) with 60 by lra.
    rewrite Rabs_R0, (Rabs_pos_eq 60) by lra. split; [lra|lia].
  - reflexivity.
  - reflexivity.
  - reflexivity.
  - apply delta_coordinate_at_the_money.
Defined.

(** X10. [get_volatility_from_surface] depends on spot and strike through
    their ratio only: scaling both by a positive factor changes nothing, be
    it the value or the error. *)
Theorem surface_query_scale_invariant (surface : VolSurface)
    (spot strike time_to_expiry q_rate r_rate c : R) :
  0 < c -> 0 < spot ->
  get_volatility_from_surface surface (c * spot) (c * strike) time_to_expiry q_rate r_rate
  = get_volatility_from_surface surface spot strike time_to_expiry q_rate r_rate.
Proof.
  intros Hc Hs. unfold get_volatility_from_surface. cbv zeta.
  pose proof (exp_pos ((r_rate - q_rate) * time_to_expiry)).
  replace (c * strike / (c * spot * exp ((r_rate - q_rate) * time_to_expiry)))
    with (strike / (spot * exp ((r_rate - q_rate) * time_to_expiry)))
    by (field; lra).
  reflexivity.
Qed.

Lemma surface_query_scale_invariant_witness :
  get_volatility_from_surface skewed_surface (100 * 1) (100 * 1.1) (30 / 365) 0.03 0.02
  = get_volatility_from_surface skewed_surface 1 1.1 (30 / 365) 0.03 0.02.
Proof.
  apply (surface_query_scale_invariant skewed_surface 1 1.1 (30 / 365) 0.03 0.02 100); lra.
Defined.

End SurfaceQueryFurther.

(** ** risk_markup.py: bounds, blind spots and diagnostics *)
Section RiskMarkupFurther.
Import risk_markup.

(** X11. With a non-negative volatility spread and a non-negative smile
    uncertainty amount, the total markup lies between 0 and
    [(0.77 + smile_uncertainty_amount) / 2], whatever delta and vega. *)
Theorem total_markup_bounds (self : RiskMarkup) (delta vega : R) :
  0 <= vol_spread (params self) ->
  0 <= smile_uncertainty_amount (params self) ->
  0 <= fst (calculate_total_markup self delta vega)
       <= (0.77 + smile_uncertainty_amount (params self)) / 2.
Proof.
  intros Hv Hs. rewrite calculate_total_markup_value.
  unfold traded_market_contribution, model_arbitrage_contribution,
    hour_end_contribution, vol_spread_contribution, spot_spread_contribution,
    smile_uncertainty_contribution, equal_tie_contribution.
  assert (Hvol : 0 <= Rmin (vol_spread (params self) * Rabs vega) 0.7 <= 0.7).
  { split; [|apply Rmin_r]. apply Rmin_glb; [|lra].
    apply Rmult_le_pos; [exact Hv|apply Rabs_pos]. }
  assert (Hspot : 0 <= Rmax 0 (Rmin (spot_spread_size (params self)
                                     * pip_size (params self) * Rabs delta) 0.01)
                  <= 0.01).
  { split; [apply Rmax_l|]. apply Rmax_lub; [lra|apply Rmin_r]. }
  destruct (_apply_traded_market_markup self), (is_atm self);
    repeat match goal with |- context [bool_decide ?P] => destruct (bool_decide P) end;
    lra.
Qed.

Lemma total_markup_bounds_witness :
  0 <= fst (risk_markup.calculate_total_markup
              (risk_markup.RiskMarkup_init false false (30 / 365) "indices" true None)
              0.3 0.1)
    <= (0.77 + risk_markup.smile_uncertainty_amount
                 (risk_markup.params
                    (risk_markup.RiskMarkup_init false false (30 / 365) "indices" true None)))
       / 2.
Proof.
  apply (total_markup_bounds
           (risk_markup.RiskMarkup_init false false (30 / 365) "indices" true None)
           0.3 0.1); simpl; lra.
Defined.

(** X12. The total markup reads delta and vega through their absolute
    values only; for an at-the-money contract it does not depend on vega,
    and for an intraday one ([time_to_expiry <= 1/365]) it does not depend
    on delta. *)
Theorem total_markup_blind_spots (self : RiskMarkup) (delta delta' vega vega' : R) :
  (Rabs delta = Rabs delta' -> Rabs vega = Rabs vega' ->
   fst (calculate_total_markup self delta vega)
   = fst (calculate_total_markup self delta' vega'))
  /\ (is_atm self = true ->
      fst (calculate_total_markup self delta vega)
      = fst (calculate_total_markup self delta vega'))
  /\ (time_to_expiry self <= 1 / 365 ->
      fst (calculate_total_markup self delta vega)
      = fst (calculate_total_markup self delta' vega)).
Proof.
  rewrite !calculate_total_markup_value.
  unfold traded_market_contribution, vol_spread_contribution, spot_spread_contribution.
  split; [|split].
  - intros -> ->. reflexivity.
  - intros ->. reflexivity.
  - intros H. rewrite !bool_decide_eq_true_2 by exact H. reflexivity.
Qed.

(** X13. For a market type that is neither forex, commodities or indices
    nor ends in [_basket], the total markup is 0, or 0.025 when the model
    arbitrage markup applies: no other markup is charged. *)
Theorem untraded_market_markup (self : RiskMarkup) (delta vega : R) :
  ~ traded_market_class (market_type self) ->
  fst (calculate_total_markup self delta vega) = 0
  \/ fst (calculate_total_markup self delta vega) = 0.025.
Proof.
  intros H. rewrite calculate_total_markup_value.
  unfold traded_market_contribution, model_arbitrage_contribution.
  destruct (_apply_traded_market_markup self) eqn:E.
  - exfalso. apply H, _apply_traded_market_markup_spec, E.
  - destruct (bool_decide _); [right|left]; lra.
Qed.

Lemma untraded_market_markup_witness :
  fst (risk_markup.calculate_total_markup
         (risk_markup.RiskMarkup_init false false (30 / 365) "Crypto" true None) 0.3 0.1)
  = 0
  \/ fst (risk_markup.calculate_total_markup
            (risk_markup.RiskMarkup_init false false (30 / 365) "Crypto" true None) 0.3 0.1)
     = 0.025.
Proof.
  apply (untraded_market_markup
           (risk_markup.RiskMarkup_init false false (30 / 365) "Crypto" true None)
           0.3 0.1).
  intros H. apply _apply_traded_market_markup_spec in H. discriminate H.
Defined.

(** X14. [calculate_total_markup] records the returned markup under
    ["total_markup"] in the diagnostics, keeps every key the diagnostics
    had, and changes no other field of the object. *)
Theorem total_markup_recorded (self : RiskMarkup) (delta vega : R) :
  let after := snd (calculate_total_markup self delta vega) in
  debug_info after !! "total_markup" = Some (fst (calculate_total_markup self delta vega))
  /\ is_atm after = is_atm self
  /\ is_forward_starting after = is_forward_starting self
  /\ time_to_expiry after = time_to_expiry self
  /\ market_type after = market_type self
  /\ for_sale after = for_sale self
  /\ params after = params self
  /\ (forall key, is_Some (debug_info self !! key) -> is_Some (debug_info after !! key)).
Proof.
  unfold calculate_total_markup.
  destruct (if _apply_traded_market_markup self then _ else _) as [m1 d1] eqn:E1.
  destruct (if negb (for_sale self) && _ then _ else _) as [m2 d2] eqn:E2.
  simpl. split; [apply lookup_insert_eq|]. repeat split.
  intros key Hkey.
  assert (H1 : is_Some (d1 !! key)).
  { destruct (_apply_traded_market_markup self); [|injection E1 as _ <-; exact Hkey].
    revert E1. unfold traded_market_markups.
    repeat match goal with
           | |- context [match ?o with Some _ => _ | None => _ end] => destruct o
           | |- context [if ?b then _ else _] => destruct b
           end;
      intros E; injection E as _ <-;
      repeat (apply lookup_insert_is_Some'; right); exact Hkey. }
  assert (H2 : is_Some (d2 !! key)).
  { destruct (negb (for_sale self) && _); injection E2 as _ <-;
      [apply lookup_insert_is_Some'; right|]; exact H1. }
  apply lookup_insert_is_Some'. right. exact H2.
Qed.

(** The entries one call records, laid over the diagnostics it found. *)
Lemma calculate_total_markup_records self delta vega :
  exists recorded : gmap string R,
    forall d,
      calculate_total_markup (with_debug_info self d) delta vega
      = (fst (calculate_total_markup self delta vega),
         with_debug_info self (recorded ∪ d)).
Proof.
  exists (debug_info (snd (calculate_total_markup (with_debug_info self ∅) delta vega))).
  intros d.
  unfold calculate_total_markup, traded_market_markups, with_debug_info,
    _apply_traded_market_markup, _apply_smile_uncertainty_markup,
    _apply_equal_tie_markup.
  destruct self as [atm fs tte mkt sale prm dbg]. cbn [is_atm is_forward_starting
    time_to_expiry market_type for_sale params debug_info].
  rewrite andb_false_r. cbn [negb].
  destruct (bool_decide (mkt ∈ _) || _);
    [destruct (hour_end_markup_parameters prm) as [he|]; [destruct (truthy he)|];
     destruct atm; cbn [negb];
     destruct (utils.is_intraday tte); cbn [negb];
     destruct (bool_decide (mkt = "indices") && bool_decide (tte < 7 / 365));
     cbn [andb negb]|];
    destruct (negb sale && _); cbn [fst snd debug_info];
    f_equal; f_equal;
    rewrite <- ?insert_union_l, (left_id_L ∅ (∪)); reflexivity.
Qed.

(** X15. Calling [calculate_total_markup] again with the same delta and
    vega on the object the first call left returns the same markup and
    leaves the object as it is. *)
Theorem total_markup_idempotent (self : RiskMarkup) (delta vega : R) :
  calculate_total_markup (snd (calculate_total_markup self delta vega)) delta vega
  = calculate_total_markup self delta vega.
Proof.
  destruct (calculate_total_markup_records self delta vega) as [recorded Hrec].
  assert (Hself : self = with_debug_info self (debug_info self)) by (destruct self; reflexivity).
  pose proof (Hrec (debug_info self)) as H1. rewrite <- Hself in H1.
  rewrite H1. cbn [snd].
  assert (Hw : with_debug_info self (recorded ∪ debug_info self)
               = with_debug_info (with_debug_info self (recorded ∪ debug_info self))
                   (recorded ∪ debug_info self)) by reflexivity.
  pose proof (Hrec (recorded ∪ debug_info self)) as H2.
  rewrite H2. f_equal. unfold with_debug_info. f_equal.
  rewrite (assoc_L (∪)), (idemp_L (∪)). reflexivity.
Qed.

End RiskMarkupFurther.

(** ** pricing_engine.py: construction, pricing paths, errors and state *)
Section EngineFurther.
Import constants black_scholes utils underlying_config pricing_engine.

(** X18. A constructed engine holds the request as given; its time to
    expiry is positive, at most 2, and the number of days from start to
    expiry capped at 730, over 365; its markup calculator has the same time
    to expiry and the market type in lower case; both diagnostics are
    empty. *)
Theorem constructed_engine_invariants (p : PricingParameters) (self : EuropeanDigitalSlope) :
  EuropeanDigitalSlope_init p = Ok self ->
  params self = p
  /\ 0 < time_to_expiry self <= 2
  /\ time_to_expiry self
     = Rmin 730 (IZR (date_expiry p - date_start p) / 86400000000) / 365
  /\ risk_markup.time_to_expiry (risk_markup self) = time_to_expiry self
  /\ risk_markup.market_type (risk_markup self) = risk_markup.lower (market_type p)
  /\ risk_markup.debug_info (risk_markup self) = ∅
  /\ debug_info self = ∅.
Proof.
  intros Hinit. destruct (init_Ok _ _ Hinit) as (Hvalid & Hp & Ht & Hr & Hd).
  assert (Hdates : (date_start p < date_expiry p)%Z).
  { revert Hvalid. unfold _validate_parameters.
    repeat (destruct (negb _); [discriminate|]).
    case_bool_decide; [discriminate|]. intros _. lia. }
  destruct (calculate_time_to_expiry_range (date_start p) (date_expiry p)) as [[H0 H1] H2].
  destruct (calculate_time_to_expiry_value _ _ Hdates) as [E _].
  rewrite Ht, Hr. repeat split; try assumption; lra.
Qed.

Lemma constructed_engine_invariants_witness :
  let p := sample_request (OfContractType CALL) [1] (OfPricingCurrency NUMERAIRE) 30 in
  params (engine_of p) = p
  /\ 0 < time_to_expiry (engine_of p) <= 2
  /\ time_to_expiry (engine_of p)
     = Rmin 730 (IZR (date_expiry p - date_start p) / 86400000000) / 365
  /\ risk_markup.time_to_expiry (risk_markup (engine_of p)) = time_to_expiry (engine_of p)
  /\ risk_markup.market_type (risk_markup (engine_of p))
     = risk_markup.lower (market_type p)
  /\ risk_markup.debug_info (risk_markup (engine_of p)) = ∅
  /\ debug_info (engine_of p) = ∅.
Proof.
  apply (constructed_engine_invariants
           (sample_request (OfContractType CALL) [1] (OfPricingCurrency NUMERAIRE) 30)).
  reflexivity.
Defined.

(** X19. With one strike, a CALL or a PUT, at a positive spot and a
    positive strike: priced in QUANTO the base
    probability is the binary price at drift [r_rate - q_rate], discounted
    at [discount_rate]; priced in BASE it is the binary price at drift
    [r_rate - q_rate], discounted at [r_rate], times [strike / spot]. The
    engine is left as it is. *)
Theorem single_strike_quanto_and_base (self : EuropeanDigitalSlope)
    (ct : ContractType) (strike vol : R) :
  let p := params self in
  strikes p = [strike] ->
  0 < spot p -> 0 < strike ->
  contract_type p = OfContractType ct ->
  ct = CALL \/ ct = PUT ->
  _get_volatility_for_strike self strike = Ok vol ->
  (priced_with p = OfPricingCurrency QUANTO ->
   _calculate_base_probability self
   = Ok (binary_price ct (spot p) strike (time_to_expiry self)
           (discount_rate p) (r_rate p - q_rate p) vol, self))
  /\ (priced_with p = OfPricingCurrency BASE ->
      _calculate_base_probability self
      = Ok (binary_price ct (spot p) strike (time_to_expiry self)
              (r_rate p) (r_rate p - q_rate p) vol * strike / spot p, self)).
Proof.
  intros p Hs _ _ Hct Hcp Hv. unfold _get_volatility_for_strike in Hv. fold p in Hv.
  assert (Hprice : forall rate div,
             price_binary_option (contract_type p) (spot p) strike
               (time_to_expiry self) rate div vol
             = Ok (binary_price ct (spot p) strike (time_to_expiry self) rate div vol)).
  { intros. rewrite Hct. destruct Hcp as [-> | ->]; reflexivity. }
  unfold _calculate_base_probability, _calculate_quanto_probability,
    _calculate_base_probability_with_vanilla, _calculate_vanilla_component.
  fold p. cbv zeta. rewrite Hs. simpl length. rewrite decide_False by discriminate.
  change (list_item [strike] 0) with (Ok strike).
  split; intros Hpw; rewrite Hpw.
  - rewrite decide_False by discriminate. rewrite decide_True by reflexivity.
    rewrite !bind_Ok, Hv, bind_Ok, Hprice, bind_Ok. reflexivity.
  - rewrite !decide_False by discriminate.
    rewrite !bind_Ok, Hv, bind_Ok, Hprice, !bind_Ok. do 2 f_equal.
    destruct (decide _); lra.
Qed.

Lemma single_strike_quanto_and_base_witness :
  let self := engine_of (sample_request (OfContractType PUT) [1.1]
                           (OfPricingCurrency QUANTO) 30) in
  (priced_with (params self) = OfPricingCurrency QUANTO ->
   _calculate_base_probability self
   = Ok (binary_price PUT 1 1.1 (time_to_expiry self) 0.02 (0.02 - 0.03) 0.08, self))
  /\ (priced_with (params self) = OfPricingCurrency BASE ->
      _calculate_base_probability self
      = Ok (binary_price PUT 1 1.1 (time_to_expiry self) 0.02 (0.02 - 0.03) 0.08
            * 1.1 / 1, self)).
Proof.
  apply (single_strike_quanto_and_base
           (engine_of (sample_request (OfContractType PUT) [1.1]
                         (OfPricingCurrency QUANTO) 30)) PUT 1.1 0.08);
    [reflexivity|simpl; lra|lra|reflexivity|right; reflexivity
    |apply flat_surface_query].
Defined.

(** X20. With two positive strikes and a positive spot, every contract type
    other than EXPIRYMISS, also CALL and PUT, is priced as an EXPIRYRANGE. *)
Theorem two_strikes_default_to_range (self : EuropeanDigitalSlope)
    (a b v_low v_high : R) :
  strikes (params self) = [a; b] ->
  0 < spot (params self) -> 0 < a -> 0 < b ->
  contract_type (params self) <> OfContractType EXPIRYMISS ->
  _get_volatility_for_strike self (Rmin a b) = Ok v_low ->
  _get_volatility_for_strike self (Rmax a b) = Ok v_high ->
  _calculate_base_probability self
  = Ok (exp (- discount_rate (params self) * time_to_expiry self)
        * (1 - (binary_put (spot (params self)) (Rmin a b) (time_to_expiry self)
                  (discount_rate (params self)) (mu (params self)) v_low
                + binary_call (spot (params self)) (Rmax a b) (time_to_expiry self)
                    (discount_rate (params self)) (mu (params self)) v_high)),
        self).
Proof.
  intros Hs _ _ _ Hct Hl Hh.
  pose proof (_calculate_expiry_miss_probability_value self _ _ _ _ Hl Hh) as Hmiss.
  unfold _calculate_base_probability, _calculate_two_barrier_probability,
    _calculate_expiry_range_probability.
  rewrite Hs, sorted_pair. simpl length. rewrite decide_True by reflexivity.
  rewrite decide_False by exact Hct. cbv zeta. rewrite Hmiss, !bind_Ok. reflexivity.
Qed.

Lemma two_strikes_default_to_range_witness :
  let self := engine_of (sample_request (OfContractType CALL) [1.1; 0.9]
                           (OfPricingCurrency NUMERAIRE) 30) in
  _calculate_base_probability self
  = Ok (exp (- (0.02) * time_to_expiry self)
        * (1 - (binary_put 1 (Rmin 1.1 0.9) (time_to_expiry self) 0.02 0.03 0.08
                + binary_call 1 (Rmax 1.1 0.9) (time_to_expiry self) 0.02 0.03 0.08)),
        self).
Proof.
  apply (two_strikes_default_to_range
           (engine_of (sample_request (OfContractType CALL) [1.1; 0.9]
                         (OfPricingCurrency NUMERAIRE) 30)) 1.1 0.9 0.08 0.08);
    [reflexivity|simpl; lra|lra|lra|discriminate
    |apply flat_surface_query|apply flat_surface_query].
Defined.

(** The engine with the strikes of its request replaced. *)

(** X21. The two-barrier probability does not depend on the order in
    which the two strikes are given. *)
Theorem two_barrier_strike_order (self : EuropeanDigitalSlope) (a b : R) :
  _calculate_two_barrier_probability (with_strikes self [a; b])
  = _calculate_two_barrier_probability (with_strikes self [b; a]).
Proof.
  unfold _calculate_two_barrier_probability. simpl strikes.
  rewrite !sorted_pair, (Rmin_comm b a), (Rmax_comm b a). reflexivity.
Qed.

(** The value of the numeraire path, as the code computes it. *)
Lemma _calculate_numeraire_probability_value self strike vol price :
  let p := params self in
  let pip := pip_size (by_symbol (underlying_symbol p)) in
  strikes p = [strike] ->
  _get_volatility_for_strike self strike = Ok vol ->
  price_binary_option (contract_type p) (spot p) strike (time_to_expiry self)
    (discount_rate p) (mu p) vol = Ok price ->
  (is_forward_starting (date_pricing p) (date_start p) = true ->
   exists self', _calculate_numeraire_probability self = Ok (price + 0, self'))
  /\ (is_forward_starting (date_pricing p) (date_start p) = false ->
      forall vol_down vol_up,
        _get_volatility_for_strike self (strike - pip) = Ok vol_down ->
        _get_volatility_for_strike self (strike + pip) = Ok vol_up ->
        exists tenor self',
          first_tenor (vol_surface p) tenor
          /\ _calculate_numeraire_probability self
             = Ok (price
                   + (let raw :=
                        (if decide (contract_type p = OfContractType CALL) then -1 else 1)
                        * vega_vanilla_call (spot p) strike (time_to_expiry self)
                            (discount_rate p) (mu p) vol
                        * ((vol_up - vol_down) / (2 * pip)) in
                      if bool_decide (time_to_expiry self <= 1 / 365 /\ (tenor > 7)%Z)
                      then Rmax (-0.03) (Rmin 0.03 raw) else raw),
                   self')).
Proof.
  intros p pip Hs Hv Hprice.
  destruct (_get_first_tenor_on_surface_spec self) as (tenor & Hft & Hfirst).
  { eapply query_returns_nonempty, Hv. }
  unfold _calculate_numeraire_probability, _calculate, _get_atm_volatility.
  fold p. cbv zeta. unfold _get_volatility_for_strike in *. fold p in Hv |- *.
  rewrite Hs. change (list_item [strike] 0) with (Ok strike).
  rewrite !bind_Ok, Hv, !bind_Ok, Hprice, bind_Ok.
  split; intros Hfs; rewrite Hfs; simpl negb; cbv iota.
  - rewrite bind_Ok. eexists. do 2 f_equal. lra.
  - intros vol_down vol_up Hd Hu. exists tenor.
    rewrite ?bind_Ok. unfold _get_underlying_config. fold p. fold pip.
    rewrite Hd, bind_Ok, Hu, bind_Ok.
    replace (if decide (contract_type p = OfContractType CALL)
             then vega_vanilla_call (spot p) strike (time_to_expiry self)
                    (discount_rate p) (mu p) vol
             else vega_vanilla_put (spot p) strike (time_to_expiry self)
                    (discount_rate p) (mu p) vol)
      with (vega_vanilla_call (spot p) strike (time_to_expiry self)
              (discount_rate p) (mu p) vol)
      by (destruct (decide _); reflexivity).
    case_bool_decide as Hshort.
    + rewrite Hft, bind_Ok. case_bool_decide as Htenor.
      * rewrite bool_decide_eq_true_2 by (split; assumption). rewrite bind_Ok.
        eexists. split; [exact Hfirst|reflexivity].
      * rewrite bool_decide_eq_false_2 by (intros [_ ?]; contradiction).
        rewrite bind_Ok. eexists. split; [exact Hfirst|reflexivity].
    + rewrite bool_decide_eq_false_2 by (intros [? _]; contradiction).
      rewrite bind_Ok. eexists. split; [exact Hfirst|reflexivity].
Qed.

(** X22. At a positive spot and a strike above the pip size, when the smile
    gives the same volatility one pip below and one
    pip above the strike, the numeraire probability of a CALL or a PUT is
    the binary price: there is no slope adjustment, forward starting or
    not. *)
Theorem flat_slope_leaves_binary_price (self : EuropeanDigitalSlope)
    (ct : ContractType) (strike vol vol_side : R) :
  let p := params self in
  let pip := pip_size (by_symbol (underlying_symbol p)) in
  strikes p = [strike] ->
  0 < spot p -> pip < strike ->
  contract_type p = OfContractType ct ->
  ct = CALL \/ ct = PUT ->
  _get_volatility_for_strike self strike = Ok vol ->
  _get_volatility_for_strike self (strike - pip) = Ok vol_side ->
  _get_volatility_for_strike self (strike + pip) = Ok vol_side ->
  exists self',
    _calculate_numeraire_probability self
    = Ok (binary_price ct (spot p) strike (time_to_expiry self)
            (discount_rate p) (mu p) vol, self').
Proof.
  intros p pip Hs _ _ Hct Hcp Hv Hd Hu.
  assert (Hprice : price_binary_option (contract_type p) (spot p) strike
                     (time_to_expiry self) (discount_rate p) (mu p) vol
                   = Ok (binary_price ct (spot p) strike (time_to_expiry self)
                           (discount_rate p) (mu p) vol)).
  { rewrite Hct. destruct Hcp as [-> | ->]; reflexivity. }
  destruct (_calculate_numeraire_probability_value self strike vol _ Hs Hv Hprice)
    as [Hfwd Hspot].
  subst pip p.
  destruct (is_forward_starting (date_pricing (params self)) (date_start (params self)))
    eqn:Hfs.
  - destruct (Hfwd eq_refl) as [self' ->]. exists self'. do 2 f_equal. lra.
  - destruct (Hspot eq_refl vol_side vol_side Hd Hu) as (tenor & self' & _ & ->).
    exists self'. do 2 f_equal. cbv zeta.
    match goal with
    | |- context [?s * ?v * ((vol_side - vol_side) / ?d)] =>
        replace (s * v * ((vol_side - vol_side) / d)) with 0 by (unfold Rdiv; ring)
    end.
    destruct (bool_decide _); [|lra].
    rewrite Rmin_right by lra. rewrite Rmax_right by lra. lra.
Qed.

Lemma flat_slope_leaves_binary_price_witness :
  let self := engine_of (sample_request (OfContractType CALL) [1.1]
                           (OfPricingCurrency NUMERAIRE) 30) in
  exists self',
    _calculate_numeraire_probability self
    = Ok (binary_price CALL 1 1.1 (time_to_expiry self) 0.02 0.03 0.08, self').
Proof.
  apply (flat_slope_leaves_binary_price
           (engine_of (sample_request (OfContractType CALL) [1.1]
                         (OfPricingCurrency NUMERAIRE) 30)) CALL 1.1 0.08 0.08);
    [reflexivity|simpl; lra|simpl; lra|reflexivity|left; reflexivity
    |apply flat_surface_query|apply flat_surface_query|apply flat_surface_query].
Defined.

(** X23. For a contract of at most one day on a surface whose tenors are
    all beyond 7 days, the numeraire probability is within 0.03 of the
    binary price. *)
Theorem short_dated_slope_adjustment_is_capped (self : EuropeanDigitalSlope)
    (strike vol vol_down vol_up price : R) :
  let p := params self in
  let pip := pip_size (by_symbol (underlying_symbol p)) in
  strikes p = [strike] ->
  _get_volatility_for_strike self strike = Ok vol ->
  _get_volatility_for_strike self (strike - pip) = Ok vol_down ->
  _get_volatility_for_strike self (strike + pip) = Ok vol_up ->
  price_binary_option (contract_type p) (spot p) strike (time_to_expiry self)
    (discount_rate p) (mu p) vol = Ok price ->
  time_to_expiry self <= 1 / 365 ->
  (forall t, is_Some (vol_surface p !! t) -> (7 < t)%Z) ->
  exists prob self',
    _calculate_numeraire_probability self = Ok (prob, self')
    /\ price - 0.03 <= prob <= price + 0.03.
Proof.
  intros p pip Hs Hv Hd Hu Hprice Hshort Htenors.
  destruct (_calculate_numeraire_probability_value self strike vol _ Hs Hv Hprice)
    as [Hfwd Hspot].
  subst pip p.
  destruct (is_forward_starting (date_pricing (params self)) (date_start (params self)))
    eqn:Hfs.
  - destruct (Hfwd eq_refl) as [self' ->]. do 2 eexists. split; [reflexivity|lra].
  - destruct (Hspot eq_refl vol_down vol_up Hd Hu) as (tenor & self' & [Ht _] & ->).
    do 2 eexists. split; [reflexivity|]. cbv zeta.
    rewrite bool_decide_eq_true_2 by (split; [exact Hshort|apply Htenors in Ht; lia]).
    match goal with |- context [Rmax (-0.03) (Rmin 0.03 ?x)] => set (raw := x) end.
    assert (-0.03 <= Rmax (-0.03) (Rmin 0.03 raw)) by apply Rmax_l.
    assert (Rmax (-0.03) (Rmin 0.03 raw) <= 0.03)
      by (apply Rmax_lub; [lra|apply Rmin_l]).
    lra.
Qed.

Lemma short_dated_slope_adjustment_is_capped_witness :
  let self := engine_of (sample_request (OfContractType CALL) [1.1]
                           (OfPricingCurrency NUMERAIRE) 1) in
  exists prob self',
    _calculate_numeraire_probability self = Ok (prob, self')
    /\ binary_call 1 1.1 (time_to_expiry self) 0.02 0.03 0.08 - 0.03 <= prob
       <= binary_call 1 1.1 (time_to_expiry self) 0.02 0.03 0.08 + 0.03.
Proof.
  apply (short_dated_slope_adjustment_is_capped
           (engine_of (sample_request (OfContractType CALL) [1.1]
                         (OfPricingCurrency NUMERAIRE) 1)) 1.1 0.08 0.08 0.08
           (binary_call 1 1.1
              (time_to_expiry
                 (engine_of (sample_request (OfContractType CALL) [1.1]
                               (OfPricingCurrency NUMERAIRE) 1))) 0.02 0.03 0.08)).
  - reflexivity.
  - apply flat_surface_query.
  - apply flat_surface_query.
  - apply flat_surface_query.
  - reflexivity.
  - simpl. rewrite Z.mul_1_l, one_day_to_expiry. lra.
  - intros t [x Ht]. simpl in Ht. apply flat_surface_tables in Ht as Hx.
    unfold flat_surface in Ht.
    apply lookup_insert_Some in Ht as [[<- _]|[_ Ht]]; [lia|].
    apply lookup_singleton_Some in Ht as [<- _]. lia.
Defined.

Lemma get_volatility_from_surface_empty spot strike time_to_expiry q_rate r_rate :
  get_volatility_from_surface ∅ spot strike time_to_expiry q_rate r_rate
  = Raise (ValueError "min() arg is an empty sequence").
Proof.
  unfold get_volatility_from_surface.
  replace (sorted_keys (∅ : VolSurface)) with (@nil Z)
    by (symmetry; apply sorted_keys_nil; reflexivity).
  reflexivity.
Qed.

(** X24. [calculate_probability] raises [IndexError] on a request without
    strikes, and on a request with strikes over an empty surface the
    [ValueError] of [min], whatever the contract type and the currency. *)
Theorem calculate_probability_errors (self : EuropeanDigitalSlope) :
  (strikes (params self) = [] ->
   calculate_probability self = Raise (IndexError "list index out of range"))
  /\ (strikes (params self) <> [] -> vol_surface (params self) = ∅ ->
      calculate_probability self
      = Raise (ValueError "min() arg is an empty sequence")).
Proof.
  split.
  - intros Hs. unfold calculate_probability, _calculate_base_probability,
      _calculate_numeraire_probability, _calculate, _calculate_quanto_probability,
      _calculate_base_probability_with_vanilla.
    rewrite Hs. simpl length. rewrite decide_False by discriminate.
    repeat destruct (decide _); reflexivity.
  - intros Hs He.
    assert (Hq : forall k, _get_volatility_for_strike self k
                           = Raise (ValueError "min() arg is an empty sequence")).
    { intros k. unfold _get_volatility_for_strike. rewrite He.
      apply get_volatility_from_surface_empty. }
    unfold calculate_probability, _calculate_base_probability.
    destruct (decide (length (strikes (params self)) = 2%nat)) as [H2|H2].
    + unfold _calculate_two_barrier_probability.
      destruct (strikes (params self)) as [|a [|b [|c l]]] eqn:E; try discriminate.
      rewrite sorted_pair.
      unfold _calculate_expiry_range_probability, _calculate_expiry_miss_probability.
      cbv zeta. rewrite !Hq. destruct (decide _); reflexivity.
    + destruct (strikes (params self)) as [|strike rest] eqn:E; [contradiction|].
      unfold _calculate_numeraire_probability, _calculate, _calculate_quanto_probability,
        _calculate_base_probability_with_vanilla.
      cbv zeta. rewrite E, He.
      change (list_item (strike :: rest) 0) with (Ok strike).
      rewrite !bind_Ok, !get_volatility_from_surface_empty.
      repeat destruct (decide _); reflexivity.
Qed.

(** Pricing leaves the request, the time to expiry and the markup calculator
    of the engine as they are. *)
Lemma _calculate_base_probability_frame self v self1 :
  _calculate_base_probability self = Ok (v, self1) -> same_inputs self1 self.
Proof.
  unfold _calculate_base_probability, _calculate_numeraire_probability.
  repeat destruct (decide _).
  - destruct (_calculate_two_barrier_probability self); [|discriminate].
    rewrite bind_Ok. intros H. injection H as _ <-. repeat split.
  - destruct (_calculate self _) as [[prob info]|err]; [|discriminate].
    rewrite bind_Ok. intros H. injection H as _ <-. repeat split.
  - destruct (_calculate_quanto_probability self); [|discriminate].
    rewrite bind_Ok. intros H. injection H as _ <-. repeat split.
  - destruct (_calculate_base_probability_with_vanilla self); [|discriminate].
    rewrite bind_Ok. intros H. injection H as _ <-. repeat split.
Qed.

(** The value of the base probability is a function of the request and the
    time to expiry. *)
Lemma _calculate_base_probability_inputs a b v a1 :
  params a = params b -> time_to_expiry a = time_to_expiry b ->
  _calculate_base_probability a = Ok (v, a1) ->
  exists b1, _calculate_base_probability b = Ok (v, b1).
Proof.
  intros Hp Ht.
  assert (Hm : forall lo hi, _calculate_expiry_miss_probability a lo hi
                             = _calculate_expiry_miss_probability b lo hi).
  { intros lo hi. unfold _calculate_expiry_miss_probability, _get_volatility_for_strike.
    rewrite Hp, Ht. reflexivity. }
  assert (Hg : forall lo hi, _calculate_expiry_range_probability a lo hi
                             = _calculate_expiry_range_probability b lo hi).
  { intros lo hi. unfold _calculate_expiry_range_probability.
    rewrite Hm, Hp, Ht. reflexivity. }
  assert (H2 : _calculate_two_barrier_probability a = _calculate_two_barrier_probability b).
  { unfold _calculate_two_barrier_probability. rewrite Hp.
    destruct (merge_sort Rle (strikes (params b))) as [|lo [|hi [|? ?]]]; try reflexivity.
    rewrite Hm, Hg. reflexivity. }
  assert (Hc : forall ct, _calculate a ct = _calculate b ct).
  { intros ct. unfold _calculate, _get_atm_volatility, _get_underlying_config,
      _get_first_tenor_on_surface. rewrite Hp, Ht. reflexivity. }
  assert (Hq : _calculate_quanto_probability a = _calculate_quanto_probability b).
  { unfold _calculate_quanto_probability. rewrite Hp, Ht. reflexivity. }
  assert (Hb : _calculate_base_probability_with_vanilla a
               = _calculate_base_probability_with_vanilla b).
  { unfold _calculate_base_probability_with_vanilla, _calculate_vanilla_component.
    rewrite Hp, Ht. reflexivity. }
  unfold _calculate_base_probability, _calculate_numeraire_probability.
  rewrite H2, Hc, Hq, Hb, Hp.
  repeat destruct (decide _).
  - destruct (_calculate_two_barrier_probability b); [|discriminate].
    rewrite !bind_Ok. intros H. injection H as <- _. eexists; reflexivity.
  - destruct (_calculate b _) as [[prob info]|err]; [|discriminate].
    rewrite !bind_Ok. intros H. injection H as <- _. eexists; reflexivity.
  - destruct (_calculate_quanto_probability b); [|discriminate].
    rewrite !bind_Ok. intros H. injection H as <- _. eexists; reflexivity.
  - destruct (_calculate_base_probability_with_vanilla b); [|discriminate].
    rewrite !bind_Ok. intros H. injection H as <- _. eexists; reflexivity.
Qed.

Lemma greeks_inputs a b :
  params a = params b -> time_to_expiry a = time_to_expiry b ->
  _calculate_delta a = _calculate_delta b /\ _calculate_vega a = _calculate_vega b.
Proof.
  intros Hp Ht. unfold _calculate_delta, _calculate_vega, _get_volatility_for_strike.
  rewrite Hp, Ht. split; reflexivity.
Qed.

Lemma total_markup_ignores_diagnostics rm d delta vega :
  fst (risk_markup.calculate_total_markup (with_debug_info rm d) delta vega)
  = fst (risk_markup.calculate_total_markup rm delta vega).
Proof. rewrite !calculate_total_markup_value. reflexivity. Qed.

(** What a successful pricing call leaves of the engine. *)
Lemma calculate_probability_keeps_inputs (self self' : EuropeanDigitalSlope) (prob : R) :
  calculate_probability self = Ok (prob, self') ->
  params self' = params self
  /\ time_to_expiry self' = time_to_expiry self
  /\ (exists d, risk_markup self' = with_debug_info (risk_markup self) d)
  /\ 0 <= prob <= 1.
Proof.
  unfold calculate_probability.
  destruct (_calculate_base_probability self) as [[base self1]|err] eqn:Hb; [|discriminate].
  rewrite bind_Ok. cbv beta iota.
  destruct (_calculate_base_probability_frame _ _ _ Hb) as (Hp & Ht & Hr).
  destruct (_calculate_delta self1) as [delta|err]; [|discriminate]. rewrite bind_Ok.
  destruct (_calculate_vega self1) as [vega|err]; [|discriminate]. rewrite bind_Ok.
  destruct (calculate_total_markup_records (risk_markup self1) delta vega) as [rec Hrec].
  pose proof (Hrec (risk_markup.debug_info (risk_markup self1))) as H1.
  replace (with_debug_info (risk_markup self1) (risk_markup.debug_info (risk_markup self1)))
    with (risk_markup self1) in H1 by (destruct (risk_markup self1); reflexivity).
  rewrite H1. intros H. injection H as <- <-. simpl.
  repeat split; try assumption.
  - eexists. rewrite <- Hr. reflexivity.
  - apply clamp_unit_interval.
  - apply clamp_unit_interval.
Qed.

(** A CALL or a PUT with one strike is priced when the surface answers. *)
Lemma calculate_probability_returns self strike :
  strikes (params self) = [strike] ->
  contract_type (params self) = OfContractType CALL
  \/ contract_type (params self) = OfContractType PUT ->
  surface_answers self ->
  exists prob self', calculate_probability self = Ok (prob, self').
Proof.
  intros Hs Hct Hans.
  destruct (single_strike_returns self strike Hs Hct Hans) as (base & self1 & Hb & Hsame).
  pose proof (same_inputs_answers _ _ Hsame Hans) as Hans1.
  assert (Hlen : (0 < length (strikes (params self1)))%nat).
  { destruct Hsame as (-> & _). rewrite Hs. simpl. lia. }
  destruct (greeks_return self1 Hlen Hans1) as [[delta Hd] [vega Hv]].
  unfold calculate_probability. rewrite Hb, bind_Ok. cbv beta iota.
  rewrite Hd, bind_Ok, Hv, bind_Ok.
  destruct (risk_markup.calculate_total_markup (risk_markup self1) delta vega)
    as [markup rm].
  eexists _, _. reflexivity.
Qed.

Lemma sample_engine_prices :
  exists prob self',
    calculate_probability
      (engine_of (sample_request (OfContractType CALL) [1] (OfPricingCurrency NUMERAIRE) 1))
    = Ok (prob, self').
Proof.
  apply (calculate_probability_returns _ 1); [reflexivity|left; reflexivity|].
  intros strike. eexists. apply flat_surface_query.
Qed.

(** X16. When [calculate_probability] returns, the engine it leaves has
    the same request and the same time to expiry, its markup calculator
    differs in the diagnostics only, and the probability lies in [[0, 1]]. *)
Theorem calculate_probability_frame (self self' : EuropeanDigitalSlope) (prob : R) :
  calculate_probability self = Ok (prob, self') ->
  params self' = params self
  /\ time_to_expiry self' = time_to_expiry self
  /\ (exists d, risk_markup self' = with_debug_info (risk_markup self) d)
  /\ 0 <= prob <= 1.
Proof. exact (calculate_probability_keeps_inputs self self' prob). Qed.

Lemma calculate_probability_frame_witness :
  exists prob self',
    calculate_probability
      (engine_of (sample_request (OfContractType CALL) [1] (OfPricingCurrency NUMERAIRE) 1))
    = Ok (prob, self')
    /\ params self'
       = sample_request (OfContractType CALL) [1] (OfPricingCurrency NUMERAIRE) 1
    /\ 0 <= prob <= 1.
Proof.
  destruct sample_engine_prices as (prob & self' & H).
  exists prob, self'. split; [exact H|].
  destruct (calculate_probability_frame _ _ _ H) as (Hp & _ & _ & Hb).
  split; [exact Hp|exact Hb].
Defined.

(** X17. When [calculate_probability] returns a probability, calling it
    again on the engine it left returns the same probability. *)
Theorem calculate_probability_repeatable (self self' : EuropeanDigitalSlope) (prob : R) :
  calculate_probability self = Ok (prob, self') ->
  exists self'', calculate_probability self' = Ok (prob, self'').
Proof.
  intros Hcall.
  destruct (calculate_probability_keeps_inputs _ _ _ Hcall) as (Hp & Ht & [d Hr] & _).
  revert Hcall. unfold calculate_probability.
  destruct (_calculate_base_probability self) as [[base self1]|err] eqn:Hb; [|discriminate].
  rewrite bind_Ok. cbv beta iota.
  destruct (_calculate_base_probability_frame _ _ _ Hb) as (Hp1 & Ht1 & Hr1).
  destruct (_calculate_base_probability_inputs self self' base self1
              (eq_sym Hp) (eq_sym Ht) Hb) as [self1' Hb'].
  destruct (_calculate_base_probability_frame _ _ _ Hb') as (Hp1' & Ht1' & Hr1').
  rewrite Hb', bind_Ok. cbv beta iota.
  destruct (greeks_inputs self1 self1') as [Hd Hv]; [congruence..|].
  rewrite <- Hd, <- Hv.
  destruct (_calculate_delta self1) as [delta|err]; [|discriminate]. rewrite !bind_Ok.
  destruct (_calculate_vega self1) as [vega|err]; [|discriminate]. rewrite !bind_Ok.
  pose proof (total_markup_ignores_diagnostics (risk_markup self) d delta vega) as Hm.
  rewrite Hr1', Hr, Hr1.
  destruct (risk_markup.calculate_total_markup (risk_markup self) delta vega)
    as [m rm] eqn:E1.
  destruct (risk_markup.calculate_total_markup (with_debug_info (risk_markup self) d)
              delta vega) as [m' rm'] eqn:E2.
  simpl in Hm. subst m'. intros H. injection H as <- _.
  eexists. reflexivity.
Qed.

Lemma calculate_probability_repeatable_witness :
  exists prob self' self'',
    calculate_probability
      (engine_of (sample_request (OfContractType CALL) [1] (OfPricingCurrency NUMERAIRE) 1))
    = Ok (prob, self')
    /\ calculate_probability self' = Ok (prob, self'').
Proof.
  destruct sample_engine_prices as (prob & self' & H).
  destruct (calculate_probability_repeatable _ _ _ H) as [self'' H2].
  exists prob, self', self''. split; [exact H|exact H2].
Defined.

End EngineFurther.

(** ** historical_vol_surface.py: the surfaces it builds *)
Section BuiltSurfaces.
Import constants black_scholes utils underlying_config pricing_engine historical_vol_surface.

Lemma get_market_parameters_complete (market_type symbol : string) :
  exists wings body rr_25 rr_10 bf_25 bf_10 term_slope rr_term bf_term,
    market_parameters (get_market_parameters market_type symbol)
      wings body rr_25 rr_10 bf_25 bf_10 term_slope rr_term bf_term
    /\ 1 <= body <= wings /\ wings <= 1.10 /\ 0 < term_slope <= 0.15.
Proof.
  unfold get_market_parameters.
  repeat case_bool_decide;
    do 9 eexists; (split; [split; reflexivity|]); cbn [snd]; lra.
Qed.

Lemma build_vol_surface_spec (base_vol : R) (market_type symbol : string) :
  exists wings body term_slope surface,
    build_vol_surface base_vol market_type symbol = Ok surface
    /\ 1 <= body <= wings /\ wings <= 1.10 /\ 0 < term_slope <= 0.15
    /\ (forall t, is_Some (surface !! t) <-> t ∈ built_tenors)
    /\ (forall t tables, surface !! t = Some tables ->
          tables !! "smile"
          = Some (built_smile (built_level base_vol term_slope t) wings body)
          /\ tables !! "vol_spread" = Some {[ 50%Z := 0.01 ]}).
Proof.
  destruct (get_market_parameters_complete market_type symbol)
    as (wings & body & rr_25 & rr_10 & bf_25 & bf_10 & term_slope & rr_term & bf_term
        & [H1 H2 H3 H4 H5 H6 H7 H8 H9] & Hb & Hw & Hs).
  exists wings, body, term_slope.
  unfold build_vol_surface, first_tenor_tables, add_term_structure, term_tenor_tables.
  cbv zeta.
  rewrite (getitem_str_Some _ _ _ H1), (getitem_str_Some _ _ _ H2),
    (getitem_str_Some _ _ _ H3), (getitem_str_Some _ _ _ H4),
    (getitem_str_Some _ _ _ H5), (getitem_str_Some _ _ _ H6),
    (getitem_str_Some _ _ _ H7), (getitem_str_Some _ _ _ H8),
    (getitem_str_Some _ _ _ H9).
  rewrite !bind_Ok.
  eexists. split; [reflexivity|]. do 3 (split; [assumption|]). split.
  - intros t. unfold built_tenors. rewrite !lookup_insert_is_Some, lookup_singleton_is_Some.
    rewrite !elem_of_cons, elem_of_nil. intuition congruence.
  - intros t tables Ht.
    repeat (apply lookup_insert_Some in Ht as [[<- <-]|[_ Ht]];
            [split; reflexivity|]).
    apply lookup_singleton_Some in Ht as [<- <-]. split; reflexivity.
Qed.

Lemma built_smile_nonempty level wings body : built_smile level wings body <> ∅.
Proof. intros H. apply (f_equal (fun m => m !! 50%Z)) in H. discriminate. Qed.

Lemma built_smile_lookup level wings body k x :
  built_smile level wings body !! k = Some x ->
  x = level * wings \/ x = level * body \/ x = level.
Proof.
  unfold built_smile. intros H. apply elem_of_list_to_map_2 in H.
  repeat (apply elem_of_cons in H as [H|H]; [injection H as -> ->; tauto|]).
  apply elem_of_nil in H. contradiction.
Qed.

Lemma ln_2_lt_1 : ln 2 < 1.
Proof.
  rewrite <- (ln_exp 1). apply ln_increasing; [lra|].
  pose proof (exp_ineq1 1 ltac:(lra)). lra.
Qed.

Lemma built_level_bounds base_vol term_slope t :
  0 <= base_vol -> 0 < term_slope <= 0.15 -> t ∈ built_tenors ->
  base_vol <= built_level base_vol term_slope t <= 1.15 * base_vol.
Proof.
  intros Hb Hs Ht. unfold built_level. destruct (decide (t = 1%Z)); [lra|].
  assert (H0 : 0 <= ln (IZR t / 365 + 1) < 1).
  { assert (Hr : 1 <= IZR t <= 365).
    { unfold built_tenors in Ht. rewrite !elem_of_cons, elem_of_nil in Ht.
      destruct Ht as [->|[->|[->|[->|[->|[->|[]]]]]]]; lra. }
    split.
    - rewrite <- ln_1. destruct (Req_dec (IZR t / 365 + 1) 1) as [->|Hne]; [lra|].
      left. apply ln_increasing; lra.
    - apply Rle_lt_trans with (ln 2); [|apply ln_2_lt_1].
      destruct (Req_dec (IZR t / 365 + 1) 2) as [->|Hne]; [lra|].
      left. apply ln_increasing; lra. }
  set (l := ln (IZR t / 365 + 1)) in *.
  assert (Hsl : 0 <= term_slope * l <= 0.15) by nra.
  set (x := term_slope * l) in *. nra.
Qed.

(** X25. Whatever the base volatility, the market and the symbol,
    [build_vol_surface] returns a well-formed surface with the tenors 1, 7,
    30, 90, 180 and 365, the first being 1; every smile has the deltas 10,
    25, 50, 75 and 90 and is symmetric around 50; and
    [get_spread_from_surface] returns 0.01 at each of these tenors and
    raises [KeyError] at any other. *)
Theorem build_vol_surface_shape (base_vol : R) (market_type symbol : string) :
  exists surface,
    build_vol_surface base_vol market_type symbol = Ok surface
    /\ well_formed_surface surface
    /\ (forall t, is_Some (surface !! t) <-> t ∈ built_tenors)
    /\ first_tenor surface 1
    /\ (forall t tables smile,
          surface !! t = Some tables -> tables !! "smile" = Some smile ->
          (forall k, is_Some (smile !! k) <-> k ∈ [10; 25; 50; 75; 90]%Z)
          /\ smile !! 10%Z = smile !! 90%Z /\ smile !! 25%Z = smile !! 75%Z)
    /\ (forall t, t ∈ built_tenors -> get_spread_from_surface surface t = Ok 0.01)
    /\ (forall t, t ∉ built_tenors ->
          get_spread_from_surface surface t = Raise (KeyError (IntKey t))).
Proof.
  destruct (build_vol_surface_spec base_vol market_type symbol)
    as (wings & body & slope & surface & Hbuild & Hb & Hw & Hsl & Hdom & Htab).
  exists surface. split; [exact Hbuild|].
  assert (H1 : is_Some (surface !! 1%Z)).
  { apply Hdom. apply list_elem_of_here. }
  repeat split.
  - intros ->. destruct H1 as [? H1]. rewrite lookup_empty in H1. discriminate.
  - intros t tables Ht. destruct (Htab _ _ Ht) as [Hs _].
    eexists. split; [exact Hs|apply built_smile_nonempty].
  - apply Hdom.
  - apply Hdom.
  - exact H1.
  - intros t Ht. apply Hdom in Ht. unfold built_tenors in Ht.
    rewrite !elem_of_cons, elem_of_nil in Ht. lia.
  - destruct (Htab _ _ H) as [Hs _]. rewrite Hs in H0. injection H0 as <-.
    unfold built_smile. intros Hk. rewrite !elem_of_cons, elem_of_nil.
    destruct (decide (k = 10%Z)) as [->|]; [tauto|].
    destruct (decide (k = 25%Z)) as [->|]; [tauto|].
    destruct (decide (k = 50%Z)) as [->|]; [tauto|].
    destruct (decide (k = 75%Z)) as [->|]; [tauto|].
    destruct (decide (k = 90%Z)) as [->|]; [tauto|].
    exfalso. destruct Hk as [x Hk]. apply elem_of_list_to_map_2 in Hk.
    rewrite !elem_of_cons, elem_of_nil in Hk.
    destruct Hk as [Hk|[Hk|[Hk|[Hk|[Hk|[]]]]]]; injection Hk as ? ?; congruence.
  - destruct (Htab _ _ H) as [Hs _]. rewrite Hs in H0. injection H0 as <-.
    rewrite !elem_of_cons, elem_of_nil.
    intros [->|[->|[->|[->|[->|[]]]]]]; eexists; reflexivity.
  - destruct (Htab _ _ H) as [Hs _]. rewrite Hs in H0. injection H0 as <-. reflexivity.
  - destruct (Htab _ _ H) as [Hs _]. rewrite Hs in H0. injection H0 as <-. reflexivity.
  - intros t Ht. apply Hdom in Ht as [tables Ht]. unfold get_spread_from_surface.
    rewrite (getitem_Some _ _ _ Ht), bind_Ok. destruct (Htab _ _ Ht) as [_ ->].
    reflexivity.
  - intros t Ht. unfold get_spread_from_surface, getitem.
    destruct (surface !! t) eqn:E; [|reflexivity].
    exfalso. apply Ht, Hdom. eauto.
Qed.

Lemma built_surface_well_formed base_vol market_type symbol surface :
  build_vol_surface base_vol market_type symbol = Ok surface ->
  well_formed_surface surface /\ first_tenor surface 1.
Proof.
  intros Hb.
  destruct (build_vol_surface_spec base_vol market_type symbol)
    as (wings & body & slope & surface' & Hbuild & _ & _ & _ & Hdom & Htab).
  rewrite Hb in Hbuild. injection Hbuild as <-.
  assert (H1 : is_Some (surface !! 1%Z)).
  { apply Hdom. apply list_elem_of_here. }
  split; [split|split].
  - intros ->. destruct H1 as [? H1]. rewrite lookup_empty in H1. discriminate.
  - intros t tables Ht. destruct (Htab _ _ Ht) as [Hs _].
    eexists. split; [exact Hs|apply built_smile_nonempty].
  - exact H1.
  - intros t Ht. apply Hdom in Ht. unfold built_tenors in Ht.
    rewrite !elem_of_cons, elem_of_nil in Ht. lia.
Qed.

(** X26. For a non-negative base volatility, every query of a surface of
    [build_vol_surface] returns a volatility between the base volatility
    and 1.3 times it. *)
Theorem built_surface_volatility_bounds (base_vol : R) (market_type symbol : string)
    (spot strike time_to_expiry q_rate r_rate : R) :
  0 <= base_vol ->
  exists surface v,
    build_vol_surface base_vol market_type symbol = Ok surface
    /\ get_volatility_from_surface surface spot strike time_to_expiry q_rate r_rate
       = Ok v
    /\ base_vol <= v <= 1.3 * base_vol.
Proof.
  intros Hbase.
  destruct (build_vol_surface_spec base_vol market_type symbol)
    as (wings & body & slope & surface & Hbuild & Hb & Hw & Hsl & Hdom & Htab).
  destruct (built_surface_well_formed _ _ _ _ Hbuild) as [Hwf _].
  destruct (get_volatility_from_surface_spec surface spot strike time_to_expiry
              q_rate r_rate Hwf) as (tenor & tables & smile & v & _ & Ht & Hs & Hv & Hsv).
  exists surface, v. split; [exact Hbuild|]. split; [exact Hv|].
  eapply smile_volatility_envelope; [|exact Hsv].
  intros k x Hk. destruct (Htab _ _ Ht) as [Hs' _]. rewrite Hs' in Hs.
  injection Hs as <-.
  assert (Hl : base_vol <= built_level base_vol slope tenor <= 1.15 * base_vol).
  { apply built_level_bounds; [assumption..|]. apply Hdom. eauto. }
  set (l := built_level base_vol slope tenor) in *.
  destruct (built_smile_lookup _ _ _ _ _ Hk) as [E|[E|E]]; rewrite E; nra.
Qed.

Lemma built_surface_volatility_bounds_witness :
  exists surface v,
    build_vol_surface 0.2 "commodities" "XAUUSD" = Ok surface
    /\ get_volatility_from_surface surface 1 1.1 (30 / 365) 0.03 0.02 = Ok v
    /\ 0.2 <= v <= 1.3 * 0.2.
Proof.
  apply (built_surface_volatility_bounds 0.2 "commodities" "XAUUSD" 1 1.1 (30 / 365)
           0.03 0.02).
  lra.
Defined.

(** X27. Over a surface of [build_vol_surface], whose first tenor is 1, at
    a positive spot and a strike above the pip size,
    the slope adjustment of a spot-starting CALL or PUT is never capped:
    the three queries return and the numeraire probability is the binary
    price plus the uncapped adjustment, however short the contract. *)
Theorem built_surface_slope_is_never_capped (self : EuropeanDigitalSlope)
    (base_vol : R) (market symbol : string) (ct : ContractType) (strike : R) :
  let p := params self in
  let pip := pip_size (by_symbol (underlying_symbol p)) in
  build_vol_surface base_vol market symbol = Ok (vol_surface p) ->
  strikes p = [strike] ->
  0 < spot p -> pip < strike ->
  contract_type p = OfContractType ct ->
  ct = CALL \/ ct = PUT ->
  is_forward_starting (date_pricing p) (date_start p) = false ->
  exists vol vol_down vol_up self',
    _get_volatility_for_strike self strike = Ok vol
    /\ _get_volatility_for_strike self (strike - pip) = Ok vol_down
    /\ _get_volatility_for_strike self (strike + pip) = Ok vol_up
    /\ _calculate_numeraire_probability self
       = Ok (binary_price ct (spot p) strike (time_to_expiry self)
               (discount_rate p) (mu p) vol
             + slope_adjustment_formula self ct strike vol vol_down vol_up, self').
Proof.
  intros p pip Hbuild Hs _ _ Hct Hcp Hfs.
  destruct (built_surface_well_formed _ _ _ _ Hbuild) as [Hwf Hfirst].
  assert (Hq : forall k, exists v, _get_volatility_for_strike self k = Ok v).
  { intros k. unfold _get_volatility_for_strike. fold p.
    destruct (get_volatility_from_surface_spec (vol_surface p) (spot p) k
                (time_to_expiry self) (q_rate p) (r_rate p) Hwf)
      as (? & ? & ? & v & _ & _ & _ & Hv & _).
    exists v. exact Hv. }
  destruct (Hq strike) as [vol Hv].
  destruct (Hq (strike - pip)) as [vol_down Hd].
  destruct (Hq (strike + pip)) as [vol_up Hu].
  assert (Hprice : price_binary_option (contract_type p) (spot p) strike
                     (time_to_expiry self) (discount_rate p) (mu p) vol
                   = Ok (binary_price ct (spot p) strike (time_to_expiry self)
                           (discount_rate p) (mu p) vol)).
  { rewrite Hct. destruct Hcp as [-> | ->]; reflexivity. }
  destruct (_calculate_numeraire_probability_value self strike vol _ Hs Hv Hprice)
    as [_ Hspot].
  destruct (Hspot Hfs vol_down vol_up Hd Hu) as (tenor & self' & [_ Hmin] & Hnum).
  exists vol, vol_down, vol_up, self'. repeat (split; [assumption|]).
  rewrite Hnum. do 3 f_equal. cbv zeta.
  rewrite bool_decide_eq_false_2
    by (intros [_ Ht]; destruct Hfirst as [H1 _]; specialize (Hmin _ H1); lia).
  unfold slope_adjustment_formula. fold p. fold pip. cbv zeta.
  rewrite Hct. destruct Hcp as [-> | ->].
  - rewrite decide_True by reflexivity. reflexivity.
  - rewrite decide_False by discriminate. reflexivity.
Qed.

Lemma built_surface_slope_is_never_capped_witness :
  let self :=
    engine_of (with_surface
                 (sample_request (OfContractType PUT) [1.1] (OfPricingCurrency NUMERAIRE) 1)
                 (surface_of (build_vol_surface 0.2 "forex" "GBPUSD"))) in
  exists vol vol_down vol_up self',
    _get_volatility_for_strike self 1.1 = Ok vol
    /\ _get_volatility_for_strike self
         (1.1 - pip_size (by_symbol (underlying_symbol (params self)))) = Ok vol_down
    /\ _get_volatility_for_strike self
         (1.1 + pip_size (by_symbol (underlying_symbol (params self)))) = Ok vol_up
    /\ _calculate_numeraire_probability self
       = Ok (binary_price PUT 1 1.1 (time_to_expiry self) 0.02 0.03 vol
             + slope_adjustment_formula self PUT 1.1 vol vol_down vol_up, self').
Proof.
  apply (built_surface_slope_is_never_capped
           (engine_of (with_surface
                         (sample_request (OfContractType PUT) [1.1]
                            (OfPricingCurrency NUMERAIRE) 1)
                         (surface_of (build_vol_surface 0.2 "forex" "GBPUSD"))))
           0.2 "forex" "GBPUSD" PUT 1.1).
  - reflexivity.
  - reflexivity.
  - simpl. lra.
  - simpl. lra.
  - reflexivity.
  - right. reflexivity.
  - apply bool_decide_eq_false_2. unfold total_seconds. simpl. rewrite Z.sub_diag. lra.
Defined.

End BuiltSurfaces.
